(** * A shallow embedding of [src/server.js]

    The gateway exposes an OpenAI-style chat endpoint, translates the
    request into the turn format of a generative backend, and rotates
    among a pool of API keys when the backend reports rate limiting.

    Conventions of the embedding.
    - A JavaScript string is a Rocq [string], read as the UTF-8 bytes of
      the text.  Searching for an ASCII substring, testing a prefix, and
      splitting at an ASCII character agree on both readings.
    - A JavaScript exception is a value of [Res]: [Ok] for a normal
      completion, [Throw] for an abrupt one.  Effects persist when an
      exception is thrown, so a stateful computation has type
      [S -> Res A * S], never [S -> Res (A * S)].
    - The backend SDK, the clock and the file system are inputs of the
      model: they are passed in as oracles.
    - One request is followed from its arrival to the end of its
      response.  Other requests, which share the cursor of the key pool
      and may move it while this one waits for the backend, are not part
      of the model; neither is the text printed on the console. *)

From Stdlib Require Import String Ascii List ZArith Lia Bool DecimalString.
Import ListNotations.

#[local] Open Scope string_scope.
#[local] Open Scope list_scope.

(* ===================================================================== *)
(** ** JavaScript values, errors and completions *)
(* ===================================================================== *)

Module Js.

(** A JavaScript number.  The server never computes with a number taken
    from a request, it only prints it and tests it for truth.  An integer
    of magnitude below 10^21, which prints in decimal, is [NInt]; any
    other number is kept as the text [Number::toString] gives for it
    (["0.1"], ["NaN"], ["1e+21"]). *)
Inductive number : Type :=
| NInt (z : Z)
| NOther (shown : string).

(** The values [JSON.parse] can produce, and [undefined] for a property
    that is absent. An object is its list of own properties; the first
    binding of a key is the one that counts. *)
#[warnings="-register-all"]
Inductive value : Type :=
| JUndefined
| JNull
| JBool (b : bool)
| JNum (n : number)
| JStr (s : string)
| JArr (items : list value)
| JObj (fields : list (string * value)).

(** A thrown [Error] object: its [name] and its [message] ([None] when the
    property is absent). *)
Record JsError : Type := mkError { name : string; message : option string }.

Inductive Res (A : Type) : Type :=
| Ok (a : A)
| Throw (e : JsError).
Arguments Ok {A} a.
Arguments Throw {A} e.

Definition bind {A B} (r : Res A) (k : A -> Res B) : Res B :=
  match r with
  | Ok a => k a
  | Throw e => Throw e
  end.

Definition TypeError (msg : string) : JsError := mkError "TypeError" (Some msg).

(** *** Strings *)

(** [s.startsWith(prefix)] *)
Fixpoint startsWith (s prefix : string) {struct prefix} : bool :=
  match prefix with
  | EmptyString => true
  | String c prefix' =>
      match s with
      | EmptyString => false
      | String d s' => Ascii.eqb c d && startsWith s' prefix'
      end
  end.

(** [s.includes(sub)] *)
Fixpoint includes (s sub : string) : bool :=
  startsWith s sub ||
  match s with
  | EmptyString => false
  | String _ s' => includes s' sub
  end.

(** What remains of [s] after [prefix], when [s] starts with it. *)
Fixpoint dropPrefix (s prefix : string) {struct prefix} : option string :=
  match prefix with
  | EmptyString => Some s
  | String c prefix' =>
      match s with
      | EmptyString => None
      | String d s' => if Ascii.eqb c d then dropPrefix s' prefix' else None
      end
  end.

(** Every character of [s] passes the test [ok]. *)
Fixpoint all_chars (ok : ascii -> bool) (s : string) : bool :=
  match s with
  | EmptyString => true
  | String c s' => ok c && all_chars ok s'
  end.

(** Decimal rendering of an integer, as [Number::toString] prints a safe
    integer. *)
Definition decimal (z : Z) : string := NilZero.string_of_int (Z.to_int z).

Definition number_to_string (n : number) : string :=
  match n with
  | NInt z => decimal z
  | NOther shown => shown
  end.

(** *** Property access, truthiness, coercion *)

Fixpoint lookup (key : string) (fields : list (string * value)) : option value :=
  match fields with
  | [] => None
  | (k, v) :: rest => if String.eqb k key then Some v else lookup key rest
  end.

(** [v.key], for a key that no built-in prototype defines (every key this
    server reads is of that kind): the own property of an object,
    [undefined] on any other value that can hold properties, and a
    [TypeError] on [undefined] and [null]. *)
Definition get (v : value) (key : string) : Res value :=
  match v with
  | JUndefined =>
      Throw (TypeError ("Cannot read properties of undefined (reading '" ++ key ++ "')")%string)
  | JNull =>
      Throw (TypeError ("Cannot read properties of null (reading '" ++ key ++ "')")%string)
  | JObj fields =>
      match lookup key fields with
      | Some x => Ok x
      | None => Ok JUndefined
      end
  | _ => Ok JUndefined
  end.

(** [ToBoolean] *)
Definition truthy (v : value) : bool :=
  match v with
  | JUndefined | JNull => false
  | JBool b => b
  | JNum (NInt z) => negb (z =? 0)%Z
  | JNum (NOther shown) => negb (String.eqb shown "NaN")
  | JStr s => negb (String.eqb s "")
  | JArr _ | JObj _ => true
  end.

(** [v === "literal"] *)
Definition is_str (v : value) (literal : string) : bool :=
  match v with
  | JStr s => String.eqb s literal
  | _ => false
  end.

Definition cannot_convert : JsError :=
  TypeError "Cannot convert object to primitive value".

(** [ToString], which [String(v)] and a template literal apply.  An array
    prints as its elements joined by commas, [null] and [undefined]
    elements as the empty string.  A plain object prints through
    [Object.prototype.toString]; when it carries an own property
    [toString] (which, coming from JSON, is not callable) neither
    [toString] nor [valueOf] yields a primitive and the conversion throws. *)
Fixpoint ToString (v : value) : Res string :=
  match v with
  | JUndefined => Ok "undefined"
  | JNull => Ok "null"
  | JBool true => Ok "true"
  | JBool false => Ok "false"
  | JNum n => Ok (number_to_string n)
  | JStr s => Ok s
  | JArr items =>
      (fix join (sep : string) (l : list value) : Res string :=
         match l with
         | [] => Ok ""
         | x :: l' =>
             bind (match x with
                   | JUndefined | JNull => Ok ""
                   | _ => ToString x
                   end) (fun sx =>
             bind (join "," l') (fun rest =>
             Ok (sep ++ sx ++ rest)%string))
         end) "" items
  | JObj fields =>
      match lookup "toString" fields with
      | Some _ => Throw cannot_convert
      | None => Ok "[object Object]"
      end
  end.

End Js.
Import Js.

Notation "x <- c ;; k" := (Js.bind c (fun x => k))
  (at level 61, c at next level, right associativity).

(* ===================================================================== *)
(** ** The credential rotator and the retry executor ([apiKeyManager]) *)
(* ===================================================================== *)

Module apiKeyManager.

(** The value of [currentApiKeyIndex]: a position, or [NaN] once the
    remainder by an empty pool has been taken. *)
Inductive index : Type :=
| Idx (i : nat)
| NaN.

(** What an observer of one request can record: each invocation of the
    wrapped call, with the key its model was built from, and each move of
    the cursor (the server prints the new index on the console). *)
Inductive event : Type :=
| Invoked (key : option string)
| Switched (now : index).

Definition is_invoked (ev : event) : bool :=
  match ev with
  | Invoked _ => true
  | Switched _ => false
  end.

(** How many times the wrapped call was invoked. *)
Definition invocations (t : list event) : nat := length (filter is_invoked t).

(** The process-wide cursor, the record of events, and the state [E] the
    wrapped call works on (the response being written, the backend). *)
Record State (E : Type) : Type := mkState {
  currentApiKeyIndex : index;
  trace : list event;
  ext : E
}.
Arguments mkState {E}.
Arguments currentApiKeyIndex {E}.
Arguments trace {E}.
Arguments ext {E}.

Section WithPool.

Variable apiKeyPool : list string.
Context {E : Type}.

(** [apiKeyPool[i]]: [undefined] out of range and at [NaN]. *)
Definition key_at (i : index) : option string :=
  match i with
  | Idx n => nth_error apiKeyPool n
  | NaN => None
  end.

Definition getCurrentApiKey (st : State E) : option string :=
  key_at (currentApiKeyIndex st).

(** [(currentApiKeyIndex + 1) % apiKeyPool.length] *)
Definition next_index (i : index) : index :=
  match i with
  | Idx n =>
      match length apiKeyPool with
      | O => NaN
      | S _ => Idx ((n + 1) mod length apiKeyPool)
      end
  | NaN => NaN
  end.

Definition switchToNextApiKey (st : State E) : option string * State E :=
  let i := next_index (currentApiKeyIndex st) in
  (key_at i, mkState i (trace st ++ [Switched i]) (ext st)).

(** [k] calls in a row; the keys they return, in order. *)
Fixpoint switch_times (k : nat) (st : State E) : list (option string) * State E :=
  match k with
  | O => ([], st)
  | S k' =>
      let (key, st1) := switchToNextApiKey st in
      let (keys, st2) := switch_times k' st1 in
      (key :: keys, st2)
  end.

(** The cursor after [n] more calls. *)
Fixpoint advance (n : nat) (i : index) : index :=
  match n with
  | O => i
  | S n' => advance n' (next_index i)
  end.

(** What [n] retries record after an invocation made at index [i]: a
    move of the cursor, then the invocation at the new index. *)
Fixpoint retries (i : index) (n : nat) : list event :=
  match n with
  | O => []
  | S n' =>
      Switched (next_index i) :: Invoked (key_at (next_index i))
        :: retries (next_index i) n'
  end.

(** The classification of a caught error. *)
Definition is429Error (error : JsError) : bool :=
  match message error with
  | None => false
  | Some m =>
      negb (String.eqb m "") &&
      (includes m "429" || includes m "quota" ||
       includes m "rate limit" || includes m "too many requests")
  end.

Definition allKeysLimited : JsError :=
  mkError "Error" (Some "所有API密钥都已达到速率限制").

(** The wrapped call receives the model built from the current key and
    works on [E]; what it changed stays changed when it throws. *)
Definition ApiCall (A : Type) : Type := option string -> E -> Res A * E.

(** The [while] loop of [executeWithRetry], one iteration per unit of
    [fuel]; [None] only when the fuel runs out. *)
Fixpoint retry_loop {A} (fuel : nat) (apiCallFn : ApiCall A)
    (maxRetries retryCount : Z) (st : State E) : option (Res A * State E) :=
  match fuel with
  | O => None
  | S fuel' =>
      if (retryCount <? maxRetries)%Z then
        let model := getCurrentApiKey st in
        let (r, e1) := apiCallFn model (ext st) in
        let st1 := mkState (currentApiKeyIndex st) (trace st ++ [Invoked model]) e1 in
        match r with
        | Ok a => Some (Ok a, st1)
        | Throw error =>
            if negb (is429Error error) || (retryCount >=? maxRetries - 1)%Z
            then Some (Throw error, st1)
            else
              let (_, st2) := switchToNextApiKey st1 in
              retry_loop fuel' apiCallFn maxRetries (retryCount + 1)%Z st2
        end
      else Some (Throw allKeysLimited, st)
  end.

(** The loop runs at most [maxRetries] iterations and one more test. *)
Definition enough (maxRetries : Z) : nat := S (Z.to_nat maxRetries).

(** The loop under enough fuel; the second branch is never taken
    (lemma [executeWithRetry_runs]). *)
Definition executeWithRetry {A} (apiCallFn : ApiCall A) (maxRetries : Z)
    (st : State E) : Res A * State E :=
  match retry_loop (enough maxRetries) apiCallFn maxRetries 0%Z st with
  | Some out => out
  | None => (Throw allKeysLimited, st)
  end.

(** [maxRetries = apiKeyPool.length], the default every caller uses. *)
Definition executeWithRetry_default {A} (apiCallFn : ApiCall A)
    (st : State E) : Res A * State E :=
  executeWithRetry apiCallFn (Z.of_nat (length apiKeyPool)) st.

End WithPool.

End apiKeyManager.

(* ===================================================================== *)
(** ** Content normalisation ([processMessageContent]) *)
(* ===================================================================== *)

Module Content.

(** A part of a backend turn: [{ text }] or [{ inlineData: { data, mimeType } }].
    The server stores whatever value it read, so the fields are values. *)
Inductive Part : Type :=
| PText (text : value)
| PInlineData (data mimeType : value).

(** What the server needs of [path], [mime-types] and [fs]:
    [readFileBase64 p] is [Buffer.from(fs.readFileSync(p)).toString("base64")],
    which throws when the file cannot be read; [mime_lookup] answers
    [None] where [mime.lookup] answers [false]. *)
Record Files : Type := mkFiles {
  rootDir : string;
  path_join : string -> string -> string;
  mime_lookup : string -> option string;
  readFileBase64 : string -> Res string
}.

Definition LF : string := String "010"%char "".
Definition CR : string := String "013"%char "".
(** U+2028 and U+2029, in UTF-8. *)
Definition LS : string := String "226"%char (String "128"%char (String "168"%char "")).
Definition PS : string := String "226"%char (String "128"%char (String "169"%char "")).

(** The characters a [.] of a regular expression refuses. *)
Definition has_line_terminator (s : string) : bool :=
  includes s LF || includes s CR || includes s LS || includes s PS.

(** The longest prefix of [s] free of [c], and what follows it. *)
Fixpoint span_until (c : ascii) (s : string) : string * string :=
  match s with
  | EmptyString => (EmptyString, EmptyString)
  | String d s' =>
      if Ascii.eqb d c then (EmptyString, s)
      else let (p, r) := span_until c s' in (String d p, r)
  end.

(** [url.match(/^data:([^;]+);base64,(.+)$/)]: the two groups, or [None]
    for [null].  The first group cannot hold a [;] and is followed by one,
    so it ends at the first [;] after [data:]; the second is the rest. *)
Definition match_data_uri (url : string) : option (string * string) :=
  match dropPrefix url "data:" with
  | None => None
  | Some rest =>
      let (g1, tail) := span_until ";"%char rest in
      if String.eqb g1 "" then None
      else
        match dropPrefix tail ";base64," with
        | None => None
        | Some g2 =>
            if String.eqb g2 "" || has_line_terminator g2 then None
            else Some (g1, g2)
        end
  end.

Definition unsupported : Part := PText (JStr "不支持的内容类型").

(** The receiver of [.startsWith(...)] has to be a string: on [undefined]
    and [null] the property read throws, on anything else the property is
    not a function. *)
Definition url_string (url : value) : Res string :=
  match url with
  | JStr s => Ok s
  | JUndefined =>
      Throw (TypeError "Cannot read properties of undefined (reading 'startsWith')")
  | JNull =>
      Throw (TypeError "Cannot read properties of null (reading 'startsWith')")
  | _ => Throw (TypeError "item.image_url.url.startsWith is not a function")
  end.

Section WithFiles.

Variable fs : Files.

Definition fileToGenerativePart (filePath : string) (mimeType : string) : Res Part :=
  data <- readFileBase64 fs filePath ;;
  Ok (PInlineData (JStr data) (JStr mimeType)).

(** [found || 'image/jpeg'] *)
Definition or_jpeg (found : option string) : string :=
  match found with
  | Some m => if String.eqb m "" then "image/jpeg" else m
  | None => "image/jpeg"
  end.

(** The callback of [content.map]. *)
Definition process_item (item : value) : Res Part :=
  ty <- get item "type" ;;
  if is_str ty "text" then
    text <- get item "text" ;;
    Ok (PText text)
  else if is_str ty "image_url" then
    image_url <- get item "image_url" ;;
    url <- get image_url "url" ;;
    u <- url_string url ;;
    if startsWith u "data:" then
      match match_data_uri u with
      | Some (mimeType, base64Data) =>
          Ok (PInlineData (JStr base64Data) (JStr mimeType))
      | None => Ok unsupported
      end
    else if startsWith u "/uploads/" then
      let filePath := path_join fs (rootDir fs) u in
      let mimeType := or_jpeg (mime_lookup fs filePath) in
      fileToGenerativePart filePath mimeType
    else Ok unsupported
  else Ok unsupported.

(** [array.map(f)] for a callback that may throw: left to right, stopping
    at the first exception. *)
Fixpoint map_res {A B} (f : A -> Res B) (l : list A) : Res (list B) :=
  match l with
  | [] => Ok []
  | x :: l' =>
      y <- f x ;;
      ys <- map_res f l' ;;
      Ok (y :: ys)
  end.

Definition processMessageContent (content : value) : Res (list Part) :=
  match content with
  | JStr _ => Ok [PText content]
  | JArr items => map_res process_item items
  | _ =>
      s <- ToString content ;;
      Ok [PText (JStr s)]
  end.

End WithFiles.

(** A request item that carries an image by URL, and the data URI that
    declares [mime] and carries [payload]. *)
Definition image_item (url : string) : value :=
  JObj [("type", JStr "image_url"); ("image_url", JObj [("url", JStr url)])].

Definition data_uri (mime payload : string) : string :=
  "data:" ++ mime ++ ";base64," ++ payload.

End Content.

(* ===================================================================== *)
(** ** Base64, as a client encodes an image for a data URI *)
(* ===================================================================== *)

Module Base64.

Definition alphabet : string :=
  "ABCDEFGHIJKLMNOPQRSTUVWXYZabcdefghijklmnopqrstuvwxyz0123456789+/".

(** The character for a group of six bits. *)
Definition digit (n : N) : ascii :=
  match String.get (N.to_nat n) alphabet with
  | Some c => c
  | None => "="%char
  end.

(** RFC 4648: three bytes give four characters; one or two bytes left
    over give two or three characters and padding. *)
Fixpoint encode (bytes : list Byte.byte) : string :=
  match bytes with
  | [] => ""
  | [a] =>
      let x := Byte.to_N a in
      String (digit (x / 4)) (String (digit (x mod 4 * 16)) "==")
  | [a; b] =>
      let x := Byte.to_N a in
      let y := Byte.to_N b in
      String (digit (x / 4))
        (String (digit (x mod 4 * 16 + y / 16))
           (String (digit (y mod 16 * 4)) "="))
  | a :: b :: c :: rest =>
      let x := Byte.to_N a in
      let y := Byte.to_N b in
      let z := Byte.to_N c in
      String (digit (x / 4))
        (String (digit (x mod 4 * 16 + y / 16))
           (String (digit (y mod 16 * 4 + z / 64))
              (String (digit (z mod 64)) (encode rest))))
  end%N.

(** Neither a line break nor the first byte of U+2028 or U+2029. *)
Definition plain (c : ascii) : bool :=
  negb (Ascii.eqb "010" c) && negb (Ascii.eqb "013" c) && negb (Ascii.eqb "226" c).

End Base64.

(* ===================================================================== *)
(** ** [JSON.stringify] and the HTTP response *)
(* ===================================================================== *)

Module Http.

Definition dquote : string := String "034"%char "".

Definition hex_digit (n : nat) : ascii :=
  nth n ["0"; "1"; "2"; "3"; "4"; "5"; "6"; "7"; "8"; "9";
         "a"; "b"; "c"; "d"; "e"; "f"]%char "0"%char.

Definition escape_char (c : ascii) : string :=
  let n := nat_of_ascii c in
  if Nat.eqb n 34 then "\" ++ dquote
  else if Nat.eqb n 92 then "\\"
  else if Nat.eqb n 8 then "\b"
  else if Nat.eqb n 12 then "\f"
  else if Nat.eqb n 10 then "\n"
  else if Nat.eqb n 13 then "\r"
  else if Nat.eqb n 9 then "\t"
  else if Nat.ltb n 32 then
    "\u00" ++ String (hex_digit (n / 16)) (String (hex_digit (n mod 16)) "")
  else String c "".

Fixpoint escape (s : string) : string :=
  match s with
  | EmptyString => EmptyString
  | String c s' => escape_char c ++ escape s'
  end.

Definition quote (s : string) : string := dquote ++ escape s ++ dquote.

Fixpoint join (sep : string) (l : list string) : string :=
  match l with
  | [] => ""
  | [x] => x
  | x :: l' => x ++ sep ++ join sep l'
  end.

Definition stringify_number (n : number) : string :=
  match n with
  | NInt z => decimal z
  | NOther shown =>
      if String.eqb shown "NaN" || String.eqb shown "Infinity"
         || String.eqb shown "-Infinity"
      then "null" else shown
  end.

(** [JSON.stringify(v)], [None] where it answers [undefined].  A property
    whose value is [undefined] is left out of an object; in an array it
    prints as [null].  Properties print in the order of the list, which is
    the order of creation for the objects the server builds (their keys
    are distinct and none is an array index). *)
Fixpoint stringify (v : value) : option string :=
  match v with
  | JUndefined => None
  | JNull => Some "null"
  | JBool true => Some "true"
  | JBool false => Some "false"
  | JNum n => Some (stringify_number n)
  | JStr s => Some (quote s)
  | JArr items =>
      Some ("[" ++
            join "," ((fix each (l : list value) : list string :=
                         match l with
                         | [] => []
                         | x :: l' =>
                             match stringify x with
                             | Some t => t
                             | None => "null"
                             end :: each l'
                         end) items)
            ++ "]")
  | JObj fields =>
      Some ("{" ++
            join "," ((fix each (l : list (string * value)) : list string :=
                         match l with
                         | [] => []
                         | (k, x) :: l' =>
                             match stringify x with
                             | Some t => (quote k ++ ":" ++ t) :: each l'
                             | None => each l'
                             end
                         end) fields)
            ++ "}")
  end%string.

(** The template literal [`data: ${JSON.stringify(event)}\n\n`]. *)
Definition sse (event : value) : string :=
  ("data: " ++ match stringify event with
               | Some t => t
               | None => "undefined"
               end ++ Content.LF ++ Content.LF)%string.

Definition done_frame : string := ("data: [DONE]" ++ Content.LF ++ Content.LF)%string.

(** The response object [res]: status, headers set, chunks written so
    far, and whether [end] has been called. *)
Record Response : Type := mkResponse {
  statusCode : Z;
  headers : list (string * string);
  written : list string;
  ended : bool
}.

Definition fresh : Response := mkResponse 200 [] [] false.

Definition setHeader (k v : string) (r : Response) : Response :=
  mkResponse (statusCode r) (headers r ++ [(k, v)]) (written r) (ended r).

Definition write (chunk : string) (r : Response) : Response :=
  mkResponse (statusCode r) (headers r) (written r ++ [chunk]) (ended r).

(** Several chunks written one after the other. *)
Definition write_all (chunks : list string) (r : Response) : Response :=
  fold_left (fun acc chunk => write chunk acc) chunks r.

Definition end_ (r : Response) : Response :=
  mkResponse (statusCode r) (headers r) (written r) true.

Definition status (code : Z) (r : Response) : Response :=
  mkResponse code (headers r) (written r) (ended r).

(** [res.json(v)]: the serialised value is the whole body. *)
Definition json (v : value) (r : Response) : Response :=
  end_ (write (match stringify v with Some t => t | None => "" end)
              (setHeader "Content-Type" "application/json; charset=utf-8" r)).

End Http.

(* ===================================================================== *)
(** ** The backend, as the handlers see it *)
(* ===================================================================== *)

Module Backend.

Import Content.

(** A turn of the backend's history. *)
Record Turn : Type := mkTurn { role : string; parts : list Part }.

(** [chatConfig]: the two settings a request can override. *)
Record Config : Type := mkConfig { temperature : value; maxOutputTokens : value }.

(** What [startChat] and [sendMessage]/[sendMessageStream] are given. *)
Record ChatCall : Type := mkCall {
  generationConfig : Config;
  history : list Turn;
  input : list Part
}.

(** One run of a streamed answer: the texts of the chunks the stream
    yields, then either its end ([None]) or the error it throws. An error
    of [sendMessageStream] itself is a run without chunks. *)
Record StreamRun : Type := mkRun {
  fragments : list string;
  failure : option JsError
}.

(** The SDK, as an oracle. Each answer may depend on the key the model
    was built from, on what was sent, and on how many calls this request
    has made before. A one-shot call either throws or returns a result
    whose [response.text()] in turn yields a text or throws. *)
Record Sdk : Type := mkSdk {
  sendMessageStream : option string -> ChatCall -> nat -> StreamRun;
  sendMessage : option string -> ChatCall -> nat -> Res (Res string);
  generateContent : option string -> list Part -> nat -> Res (Res string)
}.

(** The state a wrapped call works on: the response under construction
    and the number of backend calls made so far. *)
Record Conn : Type := mkConn { res : Http.Response; attempts : nat }.

Definition start : apiKeyManager.State Conn :=
  apiKeyManager.mkState (apiKeyManager.Idx 0) [] (mkConn Http.fresh 0).

Definition with_res (f : Http.Response -> Http.Response)
    (st : apiKeyManager.State Conn) : apiKeyManager.State Conn :=
  apiKeyManager.mkState (apiKeyManager.currentApiKeyIndex st) (apiKeyManager.trace st)
    (mkConn (f (res (apiKeyManager.ext st))) (attempts (apiKeyManager.ext st))).

(** The chunks written to the client so far. *)
Definition output (st : apiKeyManager.State Conn) : list string :=
  Http.written (res (apiKeyManager.ext st)).

Definition message_value (error : JsError) : value :=
  match message error with
  | Some m => JStr m
  | None => JUndefined
  end.

End Backend.

(* ===================================================================== *)
(** ** [POST /v1/chat/completions] *)
(* ===================================================================== *)

Module Chat.

Import apiKeyManager Content Http Backend.

(** A request whose body carries an array of messages. *)
Record Request : Type := mkRequest {
  messages : list value;
  req_temperature : value;
  max_tokens : value;
  stream : value
}.

(** [const { key, ... } = v] *)
Definition destructure (v : value) (key what : string) : Res value :=
  match v with
  | JUndefined =>
      Throw (TypeError ("Cannot destructure property '" ++ key ++ "' of '"
                        ++ what ++ "' as it is undefined.")%string)
  | JNull =>
      Throw (TypeError ("Cannot destructure property '" ++ key ++ "' of '"
                        ++ what ++ "' as it is null.")%string)
  | _ => get v key
  end.

(** [Array.prototype.slice]: a negative bound counts from the end. *)
Definition slice_bound (len rel : Z) : Z :=
  if (rel <? 0)%Z then Z.max (len + rel) 0 else Z.min rel len.

Definition slice {A} (l : list A) (start stop : Z) : list A :=
  let len := Z.of_nat (length l) in
  let k := slice_bound len start in
  let final := slice_bound len stop in
  firstn (Z.to_nat (final - k)) (skipn (Z.to_nat k) l).

(** [l[i]] *)
Definition item_at (l : list value) (i : Z) : value :=
  if (i <? 0)%Z then JUndefined else nth (Z.to_nat i) l JUndefined.

Definition chat_config (req : Request) : Config :=
  mkConfig
    (match req_temperature req with
     | JUndefined => JNum (NOther "0.1")
     | t => t
     end)
    (match max_tokens req with
     | JUndefined => JNum (NInt 500)
     | m => m
     end).

Section WithFiles.

Variable fs : Files.

(** The body of the [for] loop over the history. *)
Definition translate_message (message : value) : Res Turn :=
  role <- destructure message "role" "message" ;;
  content <- get message "content" ;;
  let geminiRole := if is_str role "assistant" then "model" else "user" in
  processedContent <-
    (if is_str role "system" then
       s <- ToString content ;;
       Ok [PText (JStr ("[SYSTEM]: " ++ s))]
     else
       match content with
       | JStr _ => Ok [PText content]
       | _ => processMessageContent fs content
       end) ;;
  Ok (mkTurn geminiRole processedContent).

(** The loop, with [history.push] as an append. *)
Fixpoint history_loop (rest : list value) (history : list Turn) : Res (list Turn) :=
  match rest with
  | [] => Ok history
  | message :: rest' =>
      turn <- translate_message message ;;
      history_loop rest' (history ++ [turn])
  end.

Definition translate_history (msgs : list value) : Res (list Turn) :=
  history_loop (slice msgs 0 (-1)) [].

(** Everything the handler computes before it looks at [stream]. *)
Definition prepare (req : Request) : Res ChatCall :=
  history <- translate_history (messages req) ;;
  let lastMessage := item_at (messages req) (Z.of_nat (length (messages req)) - 1) in
  content <- get lastMessage "content" ;;
  lastMessageParts <- processMessageContent fs content ;;
  Ok (mkCall (chat_config req) history lastMessageParts).

End WithFiles.

Definition model_name : string := "gemini-2.5-pro-exp-03-25".

(** The shape shared by the three kinds of chunk. *)
Definition chunk (id : string) (created : Z) (delta finish_reason : value) : value :=
  JObj [("id", JStr id);
        ("object", JStr "chat.completion.chunk");
        ("created", JNum (NInt created));
        ("model", JStr model_name);
        ("choices", JArr [JObj [("index", JNum (NInt 0));
                                ("delta", delta);
                                ("finish_reason", finish_reason)]])].

Definition startEvent (id : string) (created : Z) : value :=
  chunk id created (JObj [("role", JStr "assistant")]) JNull.

Definition chunkEvent (id : string) (created : Z) (chunkText : string) : value :=
  chunk id created (JObj [("content", JStr chunkText)]) JNull.

Definition finishEvent (id : string) (created : Z) : value :=
  chunk id created (JObj []) (JStr "stop").

Definition errorEvent (error : JsError) (type : string) : value :=
  JObj [("error", JObj [("message", message_value error); ("type", JStr type)])].

(** The frames that the chunks of one run contribute: one for each text
    that is not empty. *)
Definition deltas (id : string) (created : Z) (texts : list string) : list string :=
  map (fun t => sse (chunkEvent id created t))
      (filter (fun t => negb (String.eqb t "")) texts).

(** [event.choices[0].key] *)
Definition choice_field (event : value) (key : string) : Res value :=
  choices <- get event "choices" ;;
  match choices with
  | JArr (first :: _) => get first key
  | _ => get JUndefined key
  end.

(** The [for await] loop over the chunks of the stream. *)
Fixpoint chunk_loop (id : string) (created : Z) (chunks : list string)
    (contentSoFar : string) (r : Response) : string * Response :=
  match chunks with
  | [] => (contentSoFar, r)
  | chunkText :: rest =>
      if truthy (JStr chunkText) then
        chunk_loop id created rest (contentSoFar ++ chunkText)
          (write (sse (chunkEvent id created chunkText)) r)
      else chunk_loop id created rest contentSoFar r
  end.

(** The closure handed to [executeWithRetry] by the streaming branch. *)
Definition stream_call (sdk : Sdk) (call : ChatCall) (id : string) (created : Z)
    : ApiCall (E := Conn) unit :=
  fun model conn =>
    let run := sendMessageStream sdk model call (attempts conn) in
    let (_, r1) := chunk_loop id created (fragments run) "" (res conn) in
    match failure run with
    | Some error => (Throw error, mkConn r1 (S (attempts conn)))
    | None =>
        (Ok tt,
         mkConn (end_ (write done_frame (write (sse (finishEvent id created)) r1)))
                (S (attempts conn)))
    end.

(** The closure of the other branch. *)
Definition send_call (sdk : Sdk) (call : ChatCall) : ApiCall (E := Conn) (Res string) :=
  fun model conn =>
    (sendMessage sdk model call (attempts conn),
     mkConn (res conn) (S (attempts conn))).

Definition completion (id : string) (created : Z) (text : string) : value :=
  JObj [("id", JStr id);
        ("object", JStr "chat.completion");
        ("created", JNum (NInt created));
        ("model", JStr model_name);
        ("choices", JArr [JObj [("index", JNum (NInt 0));
                                ("message", JObj [("role", JStr "assistant");
                                                  ("content", JStr text)]);
                                ("finish_reason", JStr "stop")]]);
        ("usage", JObj [("prompt_tokens", JNum (NInt (-1)));
                        ("completion_tokens", JNum (NInt (-1)));
                        ("total_tokens", JNum (NInt (-1)))])].

Definition fail500 (error : JsError) (st : State Conn) : State Conn :=
  with_res (fun r => json (errorEvent error "internal_server_error") (status 500 r)) st.

Section Handler.

Variable apiKeyPool : list string.
Variable fs : Files.
Variable sdk : Sdk.
(** [clock k] is what the [k]-th call of [Date.now()] in this request
    returns, in milliseconds. *)
Variable clock : nat -> Z.

Definition responseId : string := "chatcmpl-" ++ decimal (clock 0).
Definition created_at : Z := (clock 1 / 1000)%Z.

Definition streaming (call : ChatCall) (st : State Conn) : State Conn :=
  let st0 :=
    with_res (fun r =>
      setHeader "Connection" "keep-alive"
        (setHeader "Cache-Control" "no-cache"
          (setHeader "Content-Type" "text/event-stream" r))) st in
  let st1 := with_res (write (sse (startEvent responseId created_at))) st0 in
  let (out, st2) :=
    executeWithRetry_default apiKeyPool
      (stream_call sdk call responseId created_at) st1 in
  match out with
  | Ok _ => st2
  | Throw error =>
      with_res (fun r =>
        end_ (write done_frame (write (sse (errorEvent error "server_error")) r))) st2
  end.

Definition non_streaming (call : ChatCall) (st : State Conn) : State Conn :=
  let (out, st1) := executeWithRetry_default apiKeyPool (send_call sdk call) st in
  match out with
  | Ok (Ok text) => with_res (json (completion responseId created_at text)) st1
  | Ok (Throw error) => fail500 error st1
  | Throw error => fail500 error st1
  end.

Definition chat_completions (req : Request) (st : State Conn) : State Conn :=
  match prepare fs req with
  | Throw error => fail500 error st
  | Ok call =>
      if truthy (stream req) then streaming call st else non_streaming call st
  end.

End Handler.

End Chat.

(* ===================================================================== *)
(** ** [POST /backends/chat-completions/generate] *)
(* ===================================================================== *)

Module Generate.

Import apiKeyManager Content Http Backend.

(** A file multer stored for the request. *)
Record Upload : Type := mkUpload { mimetype : string; path : string }.

Definition missing_prompt : value :=
  JObj [("success", JBool false); ("error", JStr "必须提供prompt参数")].

Definition failure_body (error : JsError) : value :=
  JObj [("success", JBool false); ("error", message_value error)].

Definition success_body (text : string) : value :=
  JObj [("success", JBool true); ("response", JStr text)].

(** The closure handed to [executeWithRetry]. *)
Definition generate_call (sdk : Sdk) (messageParts : list Part)
    : ApiCall (E := Conn) (Res string) :=
  fun model conn =>
    (generateContent sdk model messageParts (attempts conn),
     mkConn (res conn) (S (attempts conn))).

(** The body of the loop over [req.body.images]. *)
Definition inline_image (image : value) : Res (list Part) :=
  data <- get image "data" ;;
  if truthy data then
    mimeType <- get image "mimeType" ;;
    if truthy mimeType then Ok [PInlineData data mimeType] else Ok []
  else Ok [].

Fixpoint inline_images_loop (images : list value) : Res (list Part) :=
  match images with
  | [] => Ok []
  | image :: rest =>
      here <- inline_image image ;;
      more <- inline_images_loop rest ;;
      Ok (here ++ more)
  end.

(** [for (const image of req.body.images || [])]. A string iterates as
    its characters, none of which has a [data] property; any other truthy
    value that is not an array cannot be iterated. *)
Definition inline_images (images : value) : Res (list Part) :=
  if truthy images then
    match images with
    | JArr items => inline_images_loop items
    | JStr _ => Ok []
    | _ => Throw (TypeError "images is not iterable")
    end
  else Ok [].

Section Handler.

Variable apiKeyPool : list string.
Variable fs : Files.
Variable sdk : Sdk.

(** The loop over the uploaded files. *)
Fixpoint file_parts (uploadedFiles : list Upload) : Res (list Part) :=
  match uploadedFiles with
  | [] => Ok []
  | file :: rest =>
      let mimeType :=
        if negb (String.eqb (mimetype file) "") then mimetype file
        else or_jpeg (mime_lookup fs (path file)) in
      imagePart <- fileToGenerativePart fs (path file) mimeType ;;
      more <- file_parts rest ;;
      Ok (imagePart :: more)
  end.

Definition message_parts (prompt body : value) (uploadedFiles : list Upload)
    : Res (list Part) :=
  fromFiles <- file_parts uploadedFiles ;;
  images <- get body "images" ;;
  inline <- inline_images images ;;
  Ok (PText prompt :: fromFiles ++ inline).

Definition fail500 (error : JsError) (st : State Conn) : State Conn :=
  with_res (fun r => json (failure_body error) (status 500 r)) st.

Definition generate (body : value) (uploadedFiles : list Upload)
    (st : State Conn) : State Conn :=
  match Chat.destructure body "prompt" "req.body" with
  | Throw error => fail500 error st
  | Ok prompt =>
      if negb (truthy prompt) then
        with_res (fun r => json missing_prompt (status 400 r)) st
      else
        match message_parts prompt body uploadedFiles with
        | Throw error => fail500 error st
        | Ok messageParts =>
            let (out, st1) :=
              executeWithRetry_default apiKeyPool (generate_call sdk messageParts) st in
            match out with
            | Ok (Ok text) => with_res (json (success_body text)) st1
            | Ok (Throw error) => fail500 error st1
            | Throw error => fail500 error st1
            end
        end
  end.

End Handler.

End Generate.

(* ===================================================================== *)
(** ** Sample inputs *)
(* ===================================================================== *)

Module Sample.

Import apiKeyManager Content Backend.

Definition pool3 : list string := ["key-a"; "key-b"; "key-c"].

Definition too_many : JsError :=
  mkError "Error" (Some "[429 Too Many Requests] Resource has been exhausted").

Definition bad_key : JsError :=
  mkError "Error" (Some "[400 Bad Request] API key not valid").

(** A call that counts how often it ran and always fails the same way. *)
Definition failing (error : JsError) : ApiCall (E := nat) unit :=
  fun _ n => (Throw error, S n).

(** No file can be read and no extension is known. *)
Definition no_files : Files :=
  mkFiles "/srv" (fun a b => (a ++ b)%string) (fun _ => None)
    (fun p => Throw (mkError "Error" (Some ("ENOENT: no such file or directory, open '" ++ p ++ "'")%string))).

(** A backend that is rate-limited under the first key after it has
    streamed ["Hel"], and streams ["Hel"] and ["lo"] under any other. *)
Definition limited_once : Sdk :=
  mkSdk
    (fun key _ _ =>
       match key with
       | Some "key-a" => mkRun ["Hel"] (Some too_many)
       | _ => mkRun ["Hel"; "lo"] None
       end)
    (fun _ _ _ => Ok (Ok "Hello"))
    (fun _ _ _ => Ok (Ok "Hello")).

(** A backend that streams ["Hel"] and ["lo"] and stops. *)
Definition steady : Sdk :=
  mkSdk (fun _ _ _ => mkRun ["Hel"; "lo"] None)
        (fun _ _ _ => Ok (Ok "Hello"))
        (fun _ _ _ => Ok (Ok "Hello")).

(** The clock of a request received at 1700000000123 ms. *)
Definition clock (k : nat) : Z := (1700000000123 + Z.of_nat k)%Z.

Definition msg (role : string) (content : value) : value :=
  JObj [("role", JStr role); ("content", content)].

Definition conversation : list value :=
  [msg "system" (JStr "Be brief.");
   msg "user" (JStr "Hi");
   msg "assistant" (JStr "Hello.");
   msg "user" (JStr "Tell me more")].

Definition streaming_request : Chat.Request :=
  Chat.mkRequest conversation JUndefined JUndefined (JBool true).

End Sample.


(* ===================================================================== *)
(** ** The key pool read from the environment *)
(* ===================================================================== *)

Module Pool.

(** [s.split(sep)] for a one-character separator: the pieces between the
    separators, empty pieces included; never an empty list. *)
Fixpoint split (sep : ascii) (s : string) : list string :=
  match s with
  | EmptyString => [EmptyString]
  | String c s' =>
      if Ascii.eqb c sep then EmptyString :: split sep s'
      else
        match split sep s' with
        | piece :: rest => String c piece :: rest
        | [] => [String c EmptyString]
        end
  end.

(** [pieces.join(sep)] *)
Fixpoint join (sep : ascii) (pieces : list string) : string :=
  match pieces with
  | [] => EmptyString
  | [piece] => piece
  | piece :: rest => piece ++ String sep (join sep rest)
  end.

(** ASCII white space and line terminators: TAB, LF, VT, FF, CR, SP. *)
Definition ascii_space (n : nat) : bool :=
  Nat.eqb n 9 || Nat.eqb n 10 || Nat.eqb n 11 || Nat.eqb n 12
  || Nat.eqb n 13 || Nat.eqb n 32.

(** The three-byte UTF-8 forms of U+1680, U+2000..U+200A, U+2028, U+2029,
    U+202F, U+205F, U+3000 and U+FEFF. *)
Definition wide_space (a b c : nat) : bool :=
  (Nat.eqb a 225 && Nat.eqb b 154 && Nat.eqb c 128)
  || (Nat.eqb a 226 && Nat.eqb b 128
      && (Nat.leb 128 c && Nat.leb c 138 || Nat.eqb c 168 || Nat.eqb c 169
          || Nat.eqb c 175))
  || (Nat.eqb a 226 && Nat.eqb b 129 && Nat.eqb c 159)
  || (Nat.eqb a 227 && Nat.eqb b 128 && Nat.eqb c 128)
  || (Nat.eqb a 239 && Nat.eqb b 187 && Nat.eqb c 191).

(** [s.trim()] is the empty string: [s] is made of white space and line
    terminators only (U+00A0 is C2 A0 in UTF-8). *)
Fixpoint blank (s : string) : bool :=
  match s with
  | EmptyString => true
  | String c1 rest1 =>
      if ascii_space (nat_of_ascii c1) then blank rest1
      else
        match rest1 with
        | EmptyString => false
        | String c2 rest2 =>
            if Nat.eqb (nat_of_ascii c1) 194 && Nat.eqb (nat_of_ascii c2) 160
            then blank rest2
            else
              match rest2 with
              | EmptyString => false
              | String c3 rest3 =>
                  if wide_space (nat_of_ascii c1) (nat_of_ascii c2) (nat_of_ascii c3)
                  then blank rest3
                  else false
              end
        end
  end.

(** A variable of the environment is truthy when it is set and not
    empty. *)
Definition set_var (v : option string) : bool :=
  match v with
  | Some s => negb (String.eqb s "")
  | None => false
  end.

(** The pool at start-up, from [GEMINI_API_KEYS] and [GEMINI_API_KEY]. *)
Definition apiKeyPool (GEMINI_API_KEYS GEMINI_API_KEY : option string) : list string :=
  let listed :=
    match GEMINI_API_KEYS with
    | Some s =>
        if negb (String.eqb s "")
        then filter (fun key => negb (blank key)) (split ","%char s)
        else []
    | None => []
    end in
  if Nat.eqb (length listed) 0 && set_var GEMINI_API_KEY then
    match GEMINI_API_KEY with
    | Some key => listed ++ [key]
    | None => listed
    end
  else listed.

End Pool.

(* ===================================================================== *)
(** ** [POST /upload-files] *)
(* ===================================================================== *)

Module Upload.

Import Http Backend.

(** A file as multer hands it to the handler. *)
Record Stored : Type := mkStored {
  filename : string;
  originalname : string;
  mimetype : string;
  path : string
}.

(** The [filename] callback of the disk storage:
    [`${Date.now()}-${file.originalname}`]. *)
Definition stored_name (now : Z) (original : string) : string :=
  decimal now ++ "-" ++ original.

Definition url_of (file : Stored) : string := "/uploads/" ++ filename file.

(** The callback of [req.files.map]. *)
Definition entry (file : Stored) : value :=
  JObj [("filename", JStr (filename file));
        ("originalname", JStr (originalname file));
        ("mimetype", JStr (mimetype file));
        ("path", JStr (path file));
        ("url", JStr (url_of file))].

Definition uploaded (files : list Stored) : value :=
  JObj [("success", JBool true); ("files", JArr (map entry files))].

Definition failure_body (error : JsError) : value :=
  JObj [("success", JBool false); ("error", message_value error)].

(** The handler; [req.files] is [None] when multer left it undefined. *)
Definition upload_files (files : option (list Stored)) (r : Response) : Response :=
  match files with
  | Some uploadedFiles => json (uploaded uploadedFiles) r
  | None =>
      json (failure_body
              (TypeError "Cannot read properties of undefined (reading 'map')"))
           (status 500 r)
  end.

End Upload.

(* ===================================================================== *)
(** ** [GET /health] *)
(* ===================================================================== *)

Module Health.

Import apiKeyManager Http.

Definition index_value (i : index) : value :=
  match i with
  | Idx n => JNum (NInt (Z.of_nat n))
  | NaN => JNum (NOther "NaN")
  end.

Definition report (apiKeyPool : list string) (current : index) : value :=
  JObj [("status", JStr "ok");
        ("apiKeys", JObj [("total", JNum (NInt (Z.of_nat (length apiKeyPool))));
                          ("current", index_value current)])].

Definition health {E} (apiKeyPool : list string) (st : State E) (r : Response) : Response :=
  json (report apiKeyPool (currentApiKeyIndex st)) r.

End Health.

(* ===================================================================== *)
(** ** Vocabulary of the statements *)
(* ===================================================================== *)

Module Shape.

Import apiKeyManager.

(** The keys of the invocations a trace records, in order. *)
Fixpoint invoked_keys (t : list event) : list (option string) :=
  match t with
  | [] => []
  | Invoked key :: rest => key :: invoked_keys rest
  | Switched _ :: rest => invoked_keys rest
  end.

(** The moves of the cursor a trace records. *)
Definition switches (t : list event) : nat :=
  length (filter (fun ev => negb (is_invoked ev)) t).

(** The cursor points into the pool. *)
Definition in_range (apiKeyPool : list string) (i : index) : Prop :=
  match i with
  | Idx n => n < length apiKeyPool
  | NaN => False
  end.

(** What makes the retry loop stop at a key: an answer, or an error that
    is not a rate limit. *)
Definition settles {A} (r : Res A) : Prop :=
  match r with
  | Ok _ => True
  | Throw error => is429Error error = false
  end.

(** The pool read from the position [i] on, and round to [i] again. *)
Definition rotation (apiKeyPool : list string) (i : nat) : list string :=
  skipn i apiKeyPool ++ firstn i apiKeyPool.

(** Not a control character: a line of such characters has no break. *)
Definition printable (c : ascii) : bool := Nat.leb 32 (nat_of_ascii c).

(** One event of a server-sent stream: [data: ], one line, an empty line. *)
Definition framed (frame : string) : Prop :=
  exists line,
    frame = ("data: " ++ line ++ Content.LF ++ Content.LF)%string
    /\ all_chars printable line = true.

End Shape.

(* ===================================================================== *)
(** ** More sample inputs *)
(* ===================================================================== *)

Module Cases.

Import Backend.

(** Only the third key of [Sample.pool3] is not rate-limited. *)
Definition third_key {A} (good : A) (key : option string) : Res A :=
  match key with
  | Some "key-c" => Ok good
  | _ => Throw Sample.too_many
  end.

Definition counting {A} (good : A) : apiKeyManager.ApiCall (E := nat) A :=
  fun key n => (third_key good key, S n).

Definition third_key_sdk : Sdk :=
  mkSdk (fun _ _ _ => mkRun [] None)
        (fun key _ _ => third_key (Ok "Hello") key)
        (fun key _ _ => third_key (Ok "A cat.") key).

Definition plain_request : Chat.Request :=
  Chat.mkRequest Sample.conversation JUndefined JUndefined JUndefined.

End Cases.

Module Runs.

Import apiKeyManager Backend.

(** The [j]-th run of the stream when every earlier run was rate-limited:
    made with the key [j] positions after the cursor, as the call number
    [j] of the request. *)
Definition run_after (apiKeyPool : list string) (sdk : Sdk) (call : ChatCall)
    (st : State Conn) (j : nat) : StreamRun :=
  sendMessageStream sdk (key_at apiKeyPool (advance apiKeyPool j (currentApiKeyIndex st)))
    call (attempts (ext st) + j).

End Runs.

(* ===================================================================== *)
(** ** What goes over the wire, written out *)
(* ===================================================================== *)

Module Wire.

(** A text written with an apostrophe wherever the wire has a double
    quote. *)
Fixpoint quoted (s : string) : string :=
  match s with
  | EmptyString => EmptyString
  | String c s' => String (if Ascii.eqb c "'" then "034"%char else c) (quoted s')
  end.

(** The line feed. *)
Definition nl : string := String "010"%char "".

(** A character [JSON.stringify] copies as it is. *)
Definition ordinary (c : ascii) : bool :=
  Nat.leb 32 (nat_of_ascii c)
  && negb (Nat.eqb (nat_of_ascii c) 34)
  && negb (Nat.eqb (nat_of_ascii c) 92).

(** The frame of a completion chunk, character by character: [id] and
    [created] as they are printed, [delta] and [finish_reason] as JSON
    texts. *)
Definition chunk_text (id created delta finish_reason : string) : string :=
  (quoted "data: {'id':'" ++ id
   ++ quoted "','object':'chat.completion.chunk','created':" ++ created
   ++ quoted ",'model':'gemini-2.5-pro-exp-03-25','choices':[{'index':0,'delta':"
   ++ quoted delta
   ++ quoted ",'finish_reason':" ++ quoted finish_reason
   ++ "}]}" ++ nl ++ nl)%string.

(** The sentinel frame. *)
Definition done_text : string := ("data: [DONE]" ++ nl ++ nl)%string.

End Wire.

(* ===================================================================== *)
(** ** The attempts of a request that is not streamed *)
(* ===================================================================== *)

Module Answers.

Import apiKeyManager Backend.

(** What the backend answers to the [j]-th attempt when every earlier
    one was rate-limited: the call is made with the key [j] positions
    after the cursor, as the call number [j] of the request. *)
Definition answer_after (apiKeyPool : list string) (sdk : Sdk) (call : ChatCall)
    (st : State Conn) (j : nat) : Res (Res string) :=
  sendMessage sdk (key_at apiKeyPool (advance apiKeyPool j (currentApiKeyIndex st)))
    call (attempts (ext st) + j).

End Answers.

(* ===================================================================== *)
(** ** The inline images that are kept *)
(* ===================================================================== *)

Module Inline.

(** What one entry of [req.body.images] contributes: the part built from
    its [data] and [mimeType] when it is an object that has both and
    both are truthy, nothing otherwise. *)
Definition kept_image (image : value) : list Content.Part :=
  match image with
  | JObj fields =>
      match lookup "data" fields, lookup "mimeType" fields with
      | Some data, Some mimeType =>
          if truthy data && truthy mimeType
          then [Content.PInlineData data mimeType]
          else []
      | _, _ => []
      end
  | _ => []
  end.

(** An entry with the two properties. *)
Definition image (data mimeType : string) : value :=
  JObj [("data", JStr data); ("mimeType", JStr mimeType)].

End Inline.

(* ===================================================================== *)
(** * Properties *)
(* ===================================================================== *)

(** ** Strings *)

Section StringFacts.

Lemma startsWith_app (p t : string) : startsWith (p ++ t) p = true.
Proof.
  induction p as [|c p IH]; simpl; [reflexivity|].
  now rewrite Ascii.eqb_refl.
Qed.

Lemma startsWith_split (s p : string) :
  startsWith s p = true -> exists t, s = (p ++ t)%string.
Proof.
  revert s; induction p as [|c p IH]; intros s H; simpl in *.
  - now exists s.
  - destruct s as [|d s]; [discriminate|].
    apply andb_true_iff in H as [Hc Hp].
    apply Ascii.eqb_eq in Hc; subst d.
    destruct (IH _ Hp) as [t ->]. now exists t.
Qed.

Lemma startsWith_iff (s p : string) :
  startsWith s p = true <-> exists t, s = (p ++ t)%string.
Proof.
  split; [apply startsWith_split|].
  intros [t ->]; apply startsWith_app.
Qed.

Lemma includes_unfold (s sub : string) :
  includes s sub =
  startsWith s sub ||
  match s with
  | EmptyString => false
  | String _ s' => includes s' sub
  end.
Proof. destruct s; reflexivity. Qed.

(** [includes] decides the substring relation. *)
Lemma includes_iff (s sub : string) :
  includes s sub = true <-> exists pre post, s = (pre ++ sub ++ post)%string.
Proof.
  split.
  - induction s as [|c s IH]; simpl; intros H.
    + rewrite orb_false_r in H. apply startsWith_split in H as [t Ht].
      exists ""%string, t. exact Ht.
    + apply orb_true_iff in H as [H|H].
      * apply startsWith_split in H as [t Ht]. exists ""%string, t. exact Ht.
      * destruct (IH H) as (pre & post & ->).
        now exists (String c pre), post.
  - intros (pre & post & ->).
    induction pre as [|c pre IH]; simpl.
    + rewrite includes_unfold, startsWith_app. reflexivity.
    + rewrite IH. apply orb_true_r.
Qed.

Lemma dropPrefix_app (p t : string) : dropPrefix (p ++ t) p = Some t.
Proof.
  induction p as [|c p IH]; simpl; [reflexivity|].
  now rewrite Ascii.eqb_refl.
Qed.

Lemma dropPrefix_Some (s p t : string) :
  dropPrefix s p = Some t -> s = (p ++ t)%string.
Proof.
  revert s; induction p as [|c p IH]; intros s H; simpl in *.
  - congruence.
  - destruct s as [|d s]; [discriminate|].
    destruct (Ascii.eqb c d) eqn:Hc; [|discriminate].
    apply Ascii.eqb_eq in Hc; subst d. now rewrite (IH _ H).
Qed.

(** A string none of whose characters is [c] does not include a string
    that starts with [c]. *)
Lemma includes_head_absent (c : ascii) (rest s : string) :
  all_chars (fun d => negb (Ascii.eqb c d)) s = true ->
  includes s (String c rest) = false.
Proof.
  induction s as [|d s IH]; simpl; intros H; [reflexivity|].
  apply andb_true_iff in H as [Hd Hs].
  apply negb_true_iff in Hd. rewrite Hd, IH by assumption. reflexivity.
Qed.

Lemma all_chars_weaken (p q : ascii -> bool) (s : string) :
  (forall c, p c = true -> q c = true) ->
  all_chars p s = true -> all_chars q s = true.
Proof.
  intros Hpq. induction s as [|c s IH]; simpl; [reflexivity|].
  intros H. apply andb_true_iff in H as [Hc Hs].
  now rewrite (Hpq _ Hc), IH.
Qed.

End StringFacts.

(** ** The credential rotator *)

Section RotatorFacts.

Import apiKeyManager.

Variable pool : list string.
Context {E : Type}.

Lemma next_index_in_range (i : nat) :
  1 <= length pool ->
  next_index pool (Idx i) = Idx ((i + 1) mod length pool).
Proof.
  unfold next_index. destruct (length pool) eqn:Hp; [lia|reflexivity].
Qed.

Lemma switch_times_cursor (k : nat) : forall (st : State E),
  currentApiKeyIndex (snd (switch_times pool k st)) =
  advance pool k (currentApiKeyIndex st).
Proof.
  induction k as [|k IH]; intros st; simpl; [reflexivity|].
  destruct (switch_times pool k _) as [keys st2] eqn:Hk. simpl.
  specialize (IH (snd (switchToNextApiKey pool st))).
  simpl in IH. rewrite Hk in IH. exact IH.
Qed.

Lemma advance_in_range (k : nat) : forall i,
  1 <= length pool -> i < length pool ->
  advance pool k (Idx i) = Idx ((i + k) mod length pool).
Proof.
  induction k as [|k IH]; intros i Hp Hi; cbn [advance].
  - now rewrite Nat.add_0_r, Nat.mod_small.
  - rewrite next_index_in_range by assumption.
    rewrite IH by (try assumption; apply Nat.mod_upper_bound; lia).
    f_equal. rewrite Nat.Div0.add_mod_idemp_l. f_equal. lia.
Qed.

Lemma switch_times_keys (k : nat) : forall (st : State E) i,
  1 <= length pool -> i < length pool ->
  currentApiKeyIndex st = Idx i ->
  fst (switch_times pool k st) =
  map (fun j => nth_error pool ((i + j) mod length pool)) (seq 1 k).
Proof.
  induction k as [|k IH]; intros st i Hp Hi Hst; simpl; [reflexivity|].
  destruct (switch_times pool k _) as [keys st2] eqn:Hk. simpl.
  rewrite Hst, next_index_in_range by assumption. simpl. f_equal.
  specialize (IH (snd (switchToNextApiKey pool st)) ((i + 1) mod length pool) Hp).
  simpl in IH. rewrite Hk in IH. simpl in IH.
  rewrite IH.
  - rewrite <- (seq_shift k 1), map_map. apply map_ext. intros j.
    rewrite Nat.Div0.add_mod_idemp_l. do 2 f_equal. lia.
  - apply Nat.mod_upper_bound; lia.
  - rewrite Hst. now apply next_index_in_range.
Qed.

End RotatorFacts.

(** C5. With a pool of [p >= 1] keys and the cursor at [i < p], [k] calls
    of [switchToNextApiKey] leave the cursor at [(i + k) mod p]; the
    [j]-th call returns the key at [(i + j) mod p], the position it has
    just moved the cursor to, and that key exists. *)
Theorem switchToNextApiKey_k_times :
  forall (pool : list string) (E : Type) (st : apiKeyManager.State E) (i k : nat),
    1 <= length pool ->
    i < length pool ->
    apiKeyManager.currentApiKeyIndex st = apiKeyManager.Idx i ->
    apiKeyManager.currentApiKeyIndex (snd (apiKeyManager.switch_times pool k st))
      = apiKeyManager.Idx ((i + k) mod length pool)
    /\ fst (apiKeyManager.switch_times pool k st)
       = map (fun j => nth_error pool ((i + j) mod length pool)) (seq 1 k)
    /\ Forall (fun key => key <> None) (fst (apiKeyManager.switch_times pool k st))
    /\ (forall st0 : apiKeyManager.State E,
          fst (apiKeyManager.switchToNextApiKey pool st0)
          = apiKeyManager.getCurrentApiKey pool (snd (apiKeyManager.switchToNextApiKey pool st0))).
Proof.
  intros pool E st i k Hp Hi Hst. repeat split.
  - rewrite switch_times_cursor, Hst. now apply advance_in_range.
  - now apply switch_times_keys.
  - rewrite (switch_times_keys pool k st i Hp Hi Hst).
    apply Forall_forall. intros key Hin.
    apply in_map_iff in Hin as (j & <- & _).
    apply nth_error_Some. apply Nat.mod_upper_bound. lia.
Qed.

Lemma switchToNextApiKey_k_times_witness :
  apiKeyManager.currentApiKeyIndex
    (snd (apiKeyManager.switch_times ["k0"; "k1"; "k2"] 5
            (apiKeyManager.mkState (apiKeyManager.Idx 2) [] tt)))
  = apiKeyManager.Idx 1
  /\ fst (apiKeyManager.switch_times ["k0"; "k1"; "k2"] 5
            (apiKeyManager.mkState (apiKeyManager.Idx 2) [] tt))
     = [Some "k0"; Some "k1"; Some "k2"; Some "k0"; Some "k1"].
Proof.
  destruct (switchToNextApiKey_k_times ["k0"; "k1"; "k2"] unit
              (apiKeyManager.mkState (apiKeyManager.Idx 2) [] tt) 2 5)
    as (Hc & Hk & _); simpl; try lia; try reflexivity.
  split; [exact Hc | exact Hk].
Defined.

(** ** The retry executor *)

Section RetryFacts.

Import apiKeyManager.

Variable pool : list string.
Context {E A : Type}.
Variable fn : ApiCall (E := E) A.

Lemma invocations_app (t u : list event) :
  invocations (t ++ u) = invocations t + invocations u.
Proof. unfold invocations. now rewrite filter_app, length_app. Qed.

Lemma invocations_retries (n : nat) : forall i,
  invocations (retries pool i n) = n.
Proof.
  induction n as [|n IH]; intros i; [reflexivity|].
  cbn [retries]. change (invocations (Switched ?a :: Invoked ?b :: ?t))
    with (S (invocations t)). now rewrite IH.
Qed.

(** An error that is not classified ends the loop at once: it is thrown
    as it is, and the cursor stays where it was. *)
Lemma retry_loop_fatal (fuel : nat) (maxRetries retryCount : Z)
    (st : State E) (error : JsError) (e' : E) :
  (retryCount < maxRetries)%Z ->
  fn (getCurrentApiKey pool st) (ext st) = (Throw error, e') ->
  is429Error error = false ->
  retry_loop pool (S fuel) fn maxRetries retryCount st
  = Some (Throw error,
          mkState (currentApiKeyIndex st)
                  (trace st ++ [Invoked (getCurrentApiKey pool st)]) e').
Proof.
  intros Hlt Hfn Hc. cbn [retry_loop].
  apply Z.ltb_lt in Hlt. rewrite Hlt, Hfn, Hc. reflexivity.
Qed.

(** A classified error with attempts left moves the cursor and runs the
    loop again from the state the failed attempt left. *)
Lemma retry_loop_again (fuel : nat) (maxRetries retryCount : Z)
    (st : State E) (error : JsError) (e' : E) :
  (retryCount < maxRetries - 1)%Z ->
  fn (getCurrentApiKey pool st) (ext st) = (Throw error, e') ->
  is429Error error = true ->
  retry_loop pool (S fuel) fn maxRetries retryCount st
  = retry_loop pool fuel fn maxRetries (retryCount + 1)
      (snd (switchToNextApiKey pool
              (mkState (currentApiKeyIndex st)
                       (trace st ++ [Invoked (getCurrentApiKey pool st)]) e'))).
Proof.
  intros Hlt Hfn Hc. cbn [retry_loop].
  assert (H1 : (retryCount <? maxRetries)%Z = true) by (apply Z.ltb_lt; lia).
  assert (H2 : (retryCount >=? maxRetries - 1)%Z = false)
    by (rewrite Z.geb_leb; apply Z.leb_gt; lia).
  rewrite H1, Hfn, Hc, H2. reflexivity.
Qed.

(** A classified error on the last attempt is thrown as it is. *)
Lemma retry_loop_last (fuel : nat) (maxRetries retryCount : Z)
    (st : State E) (error : JsError) (e' : E) :
  (retryCount < maxRetries)%Z ->
  (maxRetries - 1 <= retryCount)%Z ->
  fn (getCurrentApiKey pool st) (ext st) = (Throw error, e') ->
  retry_loop pool (S fuel) fn maxRetries retryCount st
  = Some (Throw error,
          mkState (currentApiKeyIndex st)
                  (trace st ++ [Invoked (getCurrentApiKey pool st)]) e').
Proof.
  intros Hlt Hge Hfn. cbn [retry_loop].
  apply Z.ltb_lt in Hlt.
  assert (H2 : (retryCount >=? maxRetries - 1)%Z = true)
    by (rewrite Z.geb_leb; apply Z.leb_le; lia).
  rewrite Hlt, Hfn, H2, orb_true_r. reflexivity.
Qed.

Lemma retry_loop_success (fuel : nat) (maxRetries retryCount : Z)
    (st : State E) (a : A) (e' : E) :
  (retryCount < maxRetries)%Z ->
  fn (getCurrentApiKey pool st) (ext st) = (Ok a, e') ->
  retry_loop pool (S fuel) fn maxRetries retryCount st
  = Some (Ok a,
          mkState (currentApiKeyIndex st)
                  (trace st ++ [Invoked (getCurrentApiKey pool st)]) e').
Proof.
  intros Hlt Hfn. cbn [retry_loop].
  apply Z.ltb_lt in Hlt. rewrite Hlt, Hfn. reflexivity.
Qed.

(** The fuel [executeWithRetry] provides is enough: the loop always
    comes to a result. *)
Lemma retry_loop_total (fuel : nat) : forall (maxRetries retryCount : Z) (st : State E),
  (Z.to_nat (maxRetries - retryCount) < fuel)%nat ->
  exists out, retry_loop pool fuel fn maxRetries retryCount st = Some out.
Proof.
  induction fuel as [|fuel IH]; intros maxRetries retryCount st Hf; [lia|].
  cbn [retry_loop].
  destruct (retryCount <? maxRetries)%Z eqn:Hlt; [|eauto].
  apply Z.ltb_lt in Hlt.
  destruct (fn _ _) as [[a|error] e1]; [eauto|].
  destruct (negb (is429Error error) || _); [eauto|].
  cbn [switchToNextApiKey]. apply IH. lia.
Qed.

Lemma executeWithRetry_runs (maxRetries : Z) (st : State E) :
  retry_loop pool (enough maxRetries) fn maxRetries 0 st
  = Some (executeWithRetry pool fn maxRetries st).
Proof.
  unfold executeWithRetry.
  destruct (retry_loop_total (enough maxRetries) maxRetries 0 st) as [out Hout].
  - unfold enough. rewrite Z.sub_0_r. lia.
  - now rewrite Hout.
Qed.

Hypothesis always_limited :
  forall model e, exists error e',
    fn model e = (Throw error, e') /\ is429Error error = true.

Lemma retry_loop_always_limited (n : nat) :
  forall (fuel : nat) (maxRetries retryCount : Z) (st : State E),
    maxRetries = (retryCount + Z.of_nat (S n))%Z ->
    (n < fuel)%nat ->
    exists error e_last st',
      retry_loop pool fuel fn maxRetries retryCount st = Some (Throw error, st')
      /\ trace st' = trace st ++ Invoked (getCurrentApiKey pool st)
                                 :: retries pool (currentApiKeyIndex st) n
      /\ currentApiKeyIndex st' = advance pool n (currentApiKeyIndex st)
      /\ fn (getCurrentApiKey pool st') e_last = (Throw error, ext st').
Proof.
  induction n as [|n IH]; intros fuel maxRetries retryCount st Hm Hf;
    (destruct fuel as [|fuel]; [lia|]);
    destruct (always_limited (getCurrentApiKey pool st) (ext st))
      as (error & e' & Hfn & Hc).
  - exists error, (ext st), (mkState (currentApiKeyIndex st)
                     (trace st ++ [Invoked (getCurrentApiKey pool st)]) e').
    split; [|repeat split].
    + apply retry_loop_last; [lia|lia|exact Hfn].
    + exact Hfn.
  - rewrite (retry_loop_again fuel maxRetries retryCount st error e')
      by (try assumption; lia).
    cbn [switchToNextApiKey snd].
    edestruct (IH fuel maxRetries (retryCount + 1)%Z) as (err & el & st' & Hr & Ht & Hi & Hl);
      [lia|lia|].
    exists err, el, st'. rewrite Hr. split; [reflexivity|].
    cbn [trace currentApiKeyIndex ext] in *. unfold getCurrentApiKey in *.
    cbn [trace currentApiKeyIndex ext] in *.
    split; [|split; [exact Hi | exact Hl]].
    rewrite Ht. cbn [retries]. rewrite <- !app_assoc. reflexivity.
Qed.

End RetryFacts.

(** C1. With an attempt budget [maxRetries >= 1]: a call that throws a
    rate-limit error every time is invoked [maxRetries] times, the cursor
    moves once between two consecutive invocations, and the error of the
    last invocation is what [executeWithRetry] throws; a call whose first
    error is not a rate-limit error is invoked once, the cursor does not
    move, and that error is what [executeWithRetry] throws. *)
Theorem executeWithRetry_attempt_count :
  forall (pool : list string) (E A : Type) (fn : apiKeyManager.ApiCall (E := E) A)
         (maxRetries : Z) (st : apiKeyManager.State E),
    (1 <= maxRetries)%Z ->
    ((forall model e, exists error e',
         fn model e = (Throw error, e') /\ apiKeyManager.is429Error error = true) ->
     exists error e_last st',
       apiKeyManager.executeWithRetry pool fn maxRetries st = (Throw error, st')
       /\ apiKeyManager.trace st'
          = apiKeyManager.trace st
            ++ apiKeyManager.Invoked (apiKeyManager.getCurrentApiKey pool st)
               :: apiKeyManager.retries pool (apiKeyManager.currentApiKeyIndex st)
                    (Z.to_nat maxRetries - 1)
       /\ apiKeyManager.invocations (apiKeyManager.trace st')
          = apiKeyManager.invocations (apiKeyManager.trace st) + Z.to_nat maxRetries
       /\ apiKeyManager.currentApiKeyIndex st'
          = apiKeyManager.advance pool (Z.to_nat maxRetries - 1)
              (apiKeyManager.currentApiKeyIndex st)
       /\ fn (apiKeyManager.getCurrentApiKey pool st') e_last
          = (Throw error, apiKeyManager.ext st'))
    /\
    (forall error e',
        fn (apiKeyManager.getCurrentApiKey pool st) (apiKeyManager.ext st)
        = (Throw error, e') ->
        apiKeyManager.is429Error error = false ->
        apiKeyManager.executeWithRetry pool fn maxRetries st
        = (Throw error,
           apiKeyManager.mkState (apiKeyManager.currentApiKeyIndex st)
             (apiKeyManager.trace st
              ++ [apiKeyManager.Invoked (apiKeyManager.getCurrentApiKey pool st)]) e')).
Proof.
  intros pool E A fn maxRetries st Hmax. split.
  - intros Hall.
    destruct (retry_loop_always_limited pool fn Hall (Z.to_nat maxRetries - 1)
                (apiKeyManager.enough maxRetries) maxRetries 0%Z st)
      as (error & e_last & st' & Hr & Ht & Hi & Hl).
    + lia.
    + unfold apiKeyManager.enough. lia.
    + exists error, e_last, st'.
      rewrite executeWithRetry_runs in Hr. injection Hr as Hr.
      repeat split; try assumption.
      rewrite Ht, invocations_app.
      change (apiKeyManager.invocations (apiKeyManager.Invoked ?k :: ?t))
        with (S (apiKeyManager.invocations t)).
      rewrite invocations_retries. lia.
  - intros error e' Hfn Hc.
    pose proof (executeWithRetry_runs pool fn maxRetries st) as Hr.
    unfold apiKeyManager.enough in Hr.
    rewrite (retry_loop_fatal pool fn _ maxRetries 0%Z st error e') in Hr
      by (try assumption; lia).
    now injection Hr as <-.
Qed.

Section RetryFirstAttempts.

Import apiKeyManager.

Variable pool : list string.
Context {E A : Type}.
Variable fn : ApiCall (E := E) A.

Lemma executeWithRetry_first_success (maxRetries : Z) (st : State E) (a : A) (e' : E) :
  (1 <= maxRetries)%Z ->
  fn (getCurrentApiKey pool st) (ext st) = (Ok a, e') ->
  executeWithRetry pool fn maxRetries st
  = (Ok a,
     mkState (currentApiKeyIndex st)
             (trace st ++ [Invoked (getCurrentApiKey pool st)]) e').
Proof.
  intros Hmax Hfn.
  pose proof (executeWithRetry_runs pool fn maxRetries st) as Hr.
  unfold enough in Hr.
  rewrite (retry_loop_success pool fn _ maxRetries 0%Z st a e') in Hr
    by (try assumption; lia).
  now injection Hr as <-.
Qed.

(** After a first attempt that was rate-limited, with a budget of two
    attempts or more, [executeWithRetry] is the rest of the loop, run
    from what that attempt left and with the cursor moved. *)
Lemma executeWithRetry_first_limited (maxRetries : Z) (st : State E)
    (error : JsError) (e' : E) :
  (2 <= maxRetries)%Z ->
  fn (getCurrentApiKey pool st) (ext st) = (Throw error, e') ->
  is429Error error = true ->
  retry_loop pool (Z.to_nat maxRetries) fn maxRetries 1
    (mkState (next_index pool (currentApiKeyIndex st))
       ((trace st ++ [Invoked (getCurrentApiKey pool st)])
        ++ [Switched (next_index pool (currentApiKeyIndex st))]) e')
  = Some (executeWithRetry pool fn maxRetries st).
Proof.
  intros Hmax Hfn Hc.
  rewrite <- executeWithRetry_runs. unfold enough.
  rewrite (retry_loop_again pool fn _ maxRetries 0%Z st error e')
    by (try assumption; lia).
  reflexivity.
Qed.

End RetryFirstAttempts.

Lemma executeWithRetry_attempt_count_witness :
  (1 <= 3)%Z
  /\ (exists error st',
        apiKeyManager.executeWithRetry Sample.pool3 (Sample.failing Sample.too_many) 3
          (apiKeyManager.mkState (apiKeyManager.Idx 0) [] 0%nat) = (Throw error, st')
        /\ apiKeyManager.invocations (apiKeyManager.trace st') = 3%nat
        /\ apiKeyManager.currentApiKeyIndex st' = apiKeyManager.Idx 2)
  /\ apiKeyManager.executeWithRetry Sample.pool3 (Sample.failing Sample.bad_key) 3
       (apiKeyManager.mkState (apiKeyManager.Idx 0) [] 0%nat)
     = (Throw Sample.bad_key,
        apiKeyManager.mkState (apiKeyManager.Idx 0) [apiKeyManager.Invoked (Some "key-a")] 1%nat).
Proof.
  split; [lia|]. split.
  - destruct (executeWithRetry_attempt_count Sample.pool3 nat unit
                (Sample.failing Sample.too_many) 3
                (apiKeyManager.mkState (apiKeyManager.Idx 0) [] 0%nat)) as [Hlim _]; [lia|].
    destruct Hlim as (error & e_last & st' & Hr & _ & Hn & Hi & _).
    + intros model e. exists Sample.too_many, (S e). split; reflexivity.
    + exists error, st'. split; [exact Hr|]. split; [exact Hn | exact Hi].
  - destruct (executeWithRetry_attempt_count Sample.pool3 nat unit
                (Sample.failing Sample.bad_key) 3
                (apiKeyManager.mkState (apiKeyManager.Idx 0) [] 0%nat)) as [_ Hfatal]; [lia|].
    apply (Hfatal Sample.bad_key 1%nat); reflexivity.
Defined.

(** A classified message is not empty. *)
Lemma includes_nonempty (m sub : string) :
  includes m sub = true -> sub <> ""%string -> String.eqb m "" = false.
Proof.
  intros H Hsub. destruct m as [|c m]; [|reflexivity].
  destruct sub; [congruence|discriminate].
Qed.

Lemma is429Error_iff (error : JsError) :
  apiKeyManager.is429Error error = true <->
  exists m sub pre post,
    message error = Some m
    /\ In sub ["429"; "quota"; "rate limit"; "too many requests"]
    /\ m = (pre ++ sub ++ post)%string.
Proof.
  unfold apiKeyManager.is429Error. split.
  - destruct (message error) as [m|]; [|discriminate].
    intros H. apply andb_true_iff in H as [_ H].
    repeat (apply orb_true_iff in H as [H|H]);
      apply includes_iff in H as (pre & post & ->);
      eexists _, _, pre, post; (split; [reflexivity|]); (split; [|reflexivity]);
      simpl; tauto.
  - intros (m & sub & pre & post & -> & Hin & Hm).
    assert (Hinc : includes m sub = true)
      by (apply includes_iff; now exists pre, post).
    assert (Hne : sub <> ""%string)
      by (simpl in Hin; intuition (subst; discriminate)).
    rewrite (includes_nonempty m sub Hinc Hne). simpl negb. rewrite andb_true_l.
    simpl in Hin. destruct Hin as [<-|[<-|[<-|[<-|[]]]]]; rewrite Hinc;
      rewrite ?orb_true_r; reflexivity.
Qed.

(** C4. A thrown error counts as rate-limited exactly when its message
    has one of the four markers, spelled in lower case, as a substring;
    an error without a message, or with an empty one, does not.  At any
    iteration of the loop an error that does not count is thrown to the
    caller as it is and the cursor keeps its place, and so it is for
    [executeWithRetry] when its first attempt fails that way. *)
Theorem is429Error_classification :
  forall (pool : list string) (E A : Type) (fn : apiKeyManager.ApiCall (E := E) A)
         (error : JsError),
    (apiKeyManager.is429Error error = true <->
       exists m sub pre post,
         message error = Some m
         /\ In sub ["429"; "quota"; "rate limit"; "too many requests"]
         /\ m = (pre ++ sub ++ post)%string)
    /\ (message error = None \/ message error = Some ""%string ->
        apiKeyManager.is429Error error = false)
    /\ (apiKeyManager.is429Error error = false ->
        forall (fuel : nat) (maxRetries retryCount : Z) (st : apiKeyManager.State E) (e' : E),
          (retryCount < maxRetries)%Z ->
          fn (apiKeyManager.getCurrentApiKey pool st) (apiKeyManager.ext st)
          = (Throw error, e') ->
          apiKeyManager.retry_loop pool (S fuel) fn maxRetries retryCount st
          = Some (Throw error,
                  apiKeyManager.mkState (apiKeyManager.currentApiKeyIndex st)
                    (apiKeyManager.trace st
                     ++ [apiKeyManager.Invoked (apiKeyManager.getCurrentApiKey pool st)]) e'))
    /\ (apiKeyManager.is429Error error = false ->
        forall (maxRetries : Z) (st : apiKeyManager.State E) (e' : E),
          (1 <= maxRetries)%Z ->
          fn (apiKeyManager.getCurrentApiKey pool st) (apiKeyManager.ext st)
          = (Throw error, e') ->
          apiKeyManager.executeWithRetry pool fn maxRetries st
          = (Throw error,
             apiKeyManager.mkState (apiKeyManager.currentApiKeyIndex st)
               (apiKeyManager.trace st
                ++ [apiKeyManager.Invoked (apiKeyManager.getCurrentApiKey pool st)]) e')).
Proof.
  intros pool E A fn error. split; [apply is429Error_iff|]. split; [|split].
  - unfold apiKeyManager.is429Error. intros [-> | ->]; reflexivity.
  - intros Hc fuel maxRetries retryCount st e' Hlt Hfn.
    now apply retry_loop_fatal.
  - intros Hc maxRetries st e' Hmax Hfn.
    pose proof (executeWithRetry_runs pool fn maxRetries st) as Hr.
    unfold apiKeyManager.enough in Hr.
    rewrite (retry_loop_fatal pool fn _ maxRetries 0%Z st error e') in Hr
      by (try assumption; lia).
    now injection Hr as <-.
Qed.

Lemma is429Error_classification_witness :
  apiKeyManager.is429Error Sample.too_many = true
  /\ apiKeyManager.is429Error (mkError "Error" (Some "Quota exceeded")) = false
  /\ apiKeyManager.executeWithRetry Sample.pool3
       (Sample.failing (mkError "Error" (Some "Quota exceeded"))) 3
       (apiKeyManager.mkState (apiKeyManager.Idx 1) [] 0%nat)
     = (Throw (mkError "Error" (Some "Quota exceeded")),
        apiKeyManager.mkState (apiKeyManager.Idx 1) [apiKeyManager.Invoked (Some "key-b")] 1%nat).
Proof.
  pose proof (is429Error_classification Sample.pool3 nat unit
                (Sample.failing Sample.too_many) Sample.too_many) as (Hiff & _).
  pose proof (is429Error_classification Sample.pool3 nat unit
                (Sample.failing (mkError "Error" (Some "Quota exceeded")))
                (mkError "Error" (Some "Quota exceeded"))) as (_ & _ & _ & Hrun).
  split; [|split].
  - apply Hiff.
    exists "[429 Too Many Requests] Resource has been exhausted"%string,
           "429"%string, "["%string,
           " Too Many Requests] Resource has been exhausted"%string.
    split; [reflexivity|]. split; [simpl; tauto|reflexivity].
  - reflexivity.
  - apply (Hrun eq_refl 3%Z (apiKeyManager.mkState (apiKeyManager.Idx 1) [] 0%nat) 1%nat);
      [lia|reflexivity].
Defined.

(** ** Content normalisation *)

Section ContentFacts.

Import Content.

Lemma includes_char_absent (c : ascii) (s : string) :
  includes s (String c "") = false ->
  all_chars (fun d => negb (Ascii.eqb c d)) s = true.
Proof.
  induction s as [|d s IH]; cbn [includes startsWith all_chars]; intros H;
    [reflexivity|].
  apply orb_false_iff in H as [Hd Hs].
  rewrite andb_true_r in Hd. rewrite Hd, IH by assumption. reflexivity.
Qed.

Lemma span_until_app (c : ascii) (p rest : string) :
  all_chars (fun d => negb (Ascii.eqb c d)) p = true ->
  span_until c (p ++ String c rest) = (p, String c rest).
Proof.
  induction p as [|d p IH]; cbn [append span_until all_chars]; intros H.
  - now rewrite Ascii.eqb_refl.
  - apply andb_true_iff in H as [Hd Hp]. apply negb_true_iff in Hd.
    rewrite Ascii.eqb_sym, Hd, IH by assumption. reflexivity.
Qed.

Lemma span_until_split (c : ascii) (s p r : string) :
  span_until c s = (p, r) ->
  s = (p ++ r)%string /\ all_chars (fun d => negb (Ascii.eqb c d)) p = true.
Proof.
  revert p r. induction s as [|d s IH]; cbn [span_until]; intros p r H.
  - injection H as <- <-. split; reflexivity.
  - destruct (Ascii.eqb d c) eqn:Hd.
    + injection H as <- <-. split; reflexivity.
    + destruct (span_until c s) as [p' r'] eqn:Hs. injection H as <- <-.
      destruct (IH p' r' eq_refl) as [-> Hp]. split; [reflexivity|].
      cbn [all_chars]. now rewrite Ascii.eqb_sym, Hd, Hp.
Qed.

Lemma eqb_empty_false (s : string) : s <> ""%string -> String.eqb s "" = false.
Proof. destruct s; [congruence|reflexivity]. Qed.

(** The expression matches a data URI whose declared type is not empty
    and has no [;], and whose payload is not empty and has no line
    terminator; the groups are the type and the payload. *)
Lemma match_data_uri_accepts (mime payload : string) :
  mime <> ""%string ->
  includes mime ";" = false ->
  payload <> ""%string ->
  has_line_terminator payload = false ->
  match_data_uri (data_uri mime payload) = Some (mime, payload).
Proof.
  intros Hm Hsemi Hp Hlt. unfold match_data_uri, data_uri.
  rewrite dropPrefix_app.
  change (mime ++ ";base64," ++ payload)%string
    with (mime ++ String ";" ("base64," ++ payload))%string.
  rewrite span_until_app by now apply includes_char_absent.
  rewrite (eqb_empty_false mime Hm).
  change (String ";" ("base64," ++ payload))%string
    with (";base64," ++ payload)%string.
  rewrite dropPrefix_app, (eqb_empty_false payload Hp), Hlt. reflexivity.
Qed.

(** Conversely, it matches nothing else. *)
Lemma match_data_uri_only (url mime payload : string) :
  match_data_uri url = Some (mime, payload) ->
  url = data_uri mime payload
  /\ mime <> ""%string
  /\ all_chars (fun d => negb (Ascii.eqb ";" d)) mime = true
  /\ payload <> ""%string
  /\ has_line_terminator payload = false.
Proof.
  unfold match_data_uri, data_uri. intros H.
  destruct (dropPrefix url "data:") as [rest|] eqn:Hd; [|discriminate].
  apply dropPrefix_Some in Hd.
  destruct (span_until ";" rest) as [g1 tail] eqn:Hs.
  apply span_until_split in Hs as [-> Hg1].
  destruct (String.eqb g1 "") eqn:He; [discriminate|].
  destruct (dropPrefix tail ";base64,") as [g2|] eqn:Ht; [|discriminate].
  apply dropPrefix_Some in Ht.
  destruct (String.eqb g2 "" || has_line_terminator g2) eqn:Hg2; [discriminate|].
  injection H as <- <-. apply orb_false_iff in Hg2 as [Hne Hlt].
  subst url tail. repeat split; try assumption.
  - intros ->. discriminate.
  - intros ->. discriminate.
Qed.

Variable fs : Files.

Lemma process_item_data_uri (item image_url : value) (mime payload : string) :
  get item "type" = Ok (JStr "image_url") ->
  get item "image_url" = Ok image_url ->
  get image_url "url" = Ok (JStr (data_uri mime payload)) ->
  mime <> ""%string ->
  includes mime ";" = false ->
  payload <> ""%string ->
  has_line_terminator payload = false ->
  process_item fs item = Ok (PInlineData (JStr payload) (JStr mime)).
Proof.
  intros Hty Hiu Hurl Hm Hsemi Hp Hlt. unfold process_item.
  rewrite Hty. cbn [Js.bind is_str]. simpl String.eqb.
  rewrite Hiu. cbn [Js.bind]. rewrite Hurl. cbn [Js.bind url_string].
  assert (Hstart : startsWith (data_uri mime payload) "data:" = true)
    by apply startsWith_app.
  rewrite Hstart, match_data_uri_accepts by assumption. reflexivity.
Qed.

End ContentFacts.

(** ** Base64 text *)

Section Base64Facts.

Import Base64.

Lemma digit_plain (n : N) : plain (digit n) = true.
Proof.
  unfold digit. generalize (N.to_nat n) as k. intros k.
  do 65 (destruct k as [|k]; [reflexivity|]). reflexivity.
Qed.

Lemma encode_plain : forall bytes, all_chars plain (encode bytes) = true.
Proof.
  fix IH 1. intros [|a [|b [|c rest]]]; cbn [encode all_chars];
    rewrite ?digit_plain; try reflexivity.
  cbn [andb]. apply IH.
Qed.

Lemma encode_nonempty (bytes : list Byte.byte) :
  bytes <> [] -> encode bytes <> ""%string.
Proof. destruct bytes as [|a [|b [|c rest]]]; [congruence|discriminate..]. Qed.

Lemma plain_no_line_terminator (s : string) :
  all_chars plain s = true -> Content.has_line_terminator s = false.
Proof.
  intros H. unfold Content.has_line_terminator, Content.LF, Content.CR,
    Content.LS, Content.PS.
  rewrite !includes_head_absent; [reflexivity|..];
    (eapply all_chars_weaken; [|exact H]); intros c Hc; unfold plain in Hc;
    apply andb_true_iff in Hc as [Hc H3]; apply andb_true_iff in Hc as [H1 H2];
    assumption.
Qed.

Lemma encode_no_line_terminator (bytes : list Byte.byte) :
  Content.has_line_terminator (encode bytes) = false.
Proof. apply plain_no_line_terminator, encode_plain. Qed.

End Base64Facts.

(** C6. Take a list with one item tagged [image_url] whose URL
    is [data:<mime>;base64,<payload>], where [<mime>] is not empty and has
    no [;], and [<payload>] is not empty and has no line terminator.
    Normalisation yields exactly one inline-data part, with that type and
    that payload.  The Base64 text of one byte or more is such a payload,
    so encoding bytes into a data URI and normalising it gives back the
    type and the encoded text. *)
Theorem processMessageContent_data_uri :
  forall (fs : Content.Files) (item image_url : value) (mime : string),
    get item "type" = Ok (JStr "image_url") ->
    get item "image_url" = Ok image_url ->
    mime <> ""%string ->
    includes mime ";" = false ->
    (forall payload,
        get image_url "url" = Ok (JStr (Content.data_uri mime payload)) ->
        payload <> ""%string ->
        Content.has_line_terminator payload = false ->
        Content.processMessageContent fs (JArr [item])
        = Ok [Content.PInlineData (JStr payload) (JStr mime)])
    /\
    (forall bytes,
        get image_url "url"
        = Ok (JStr (Content.data_uri mime (Base64.encode bytes))) ->
        bytes <> [] ->
        Content.processMessageContent fs (JArr [item])
        = Ok [Content.PInlineData (JStr (Base64.encode bytes)) (JStr mime)]).
Proof.
  intros fs item image_url mime Hty Hiu Hm Hsemi.
  assert (Hone : forall payload,
             get image_url "url" = Ok (JStr (Content.data_uri mime payload)) ->
             payload <> ""%string ->
             Content.has_line_terminator payload = false ->
             Content.processMessageContent fs (JArr [item])
             = Ok [Content.PInlineData (JStr payload) (JStr mime)]).
  { intros payload Hurl Hp Hlt.
    cbn [Content.processMessageContent Content.map_res].
    rewrite (process_item_data_uri fs item image_url mime payload) by assumption.
    reflexivity. }
  split; [exact Hone|].
  intros bytes Hurl Hb. apply Hone; [exact Hurl| |].
  - now apply encode_nonempty.
  - apply encode_no_line_terminator.
Qed.

Lemma processMessageContent_data_uri_witness :
  Content.processMessageContent Sample.no_files
    (JArr [Content.image_item
             (Content.data_uri "image/png" (Base64.encode [Byte.x89; Byte.x50; Byte.x4e; Byte.x47]))])
  = Ok [Content.PInlineData (JStr "iVBORw==") (JStr "image/png")].
Proof.
  destruct (processMessageContent_data_uri Sample.no_files
              (Content.image_item
                 (Content.data_uri "image/png"
                    (Base64.encode [Byte.x89; Byte.x50; Byte.x4e; Byte.x47])))
              (JObj [("url", JStr (Content.data_uri "image/png"
                    (Base64.encode [Byte.x89; Byte.x50; Byte.x4e; Byte.x47])))])
              "image/png") as [_ Hbytes];
    [reflexivity | reflexivity | discriminate | reflexivity |].
  apply (Hbytes [Byte.x89; Byte.x50; Byte.x4e; Byte.x47]);
    [reflexivity | discriminate].
Defined.

(** C6, without those conditions, does not hold: the data URI of no
    bytes at all, a declared type with a parameter, an empty declared
    type, and a payload broken into lines all normalise to the
    "unsupported" text part. *)
Lemma processMessageContent_data_uri_rejected :
  Content.processMessageContent Sample.no_files
    (JArr [Content.image_item (Content.data_uri "image/png" (Base64.encode []))])
  = Ok [Content.unsupported]
  /\ Content.processMessageContent Sample.no_files
       (JArr [Content.image_item (Content.data_uri "image/png" (Base64.encode []))])
     <> Ok [Content.PInlineData (JStr (Base64.encode [])) (JStr "image/png")]
  /\ Content.processMessageContent Sample.no_files
       (JArr [Content.image_item
                (Content.data_uri "text/plain;charset=utf-8" "SGk=")])
     = Ok [Content.unsupported]
  /\ Content.processMessageContent Sample.no_files
       (JArr [Content.image_item (Content.data_uri "" "SGk=")])
     = Ok [Content.unsupported]
  /\ Content.processMessageContent Sample.no_files
       (JArr [Content.image_item
                (Content.data_uri "image/png" ("iVBO" ++ Content.LF ++ "Rw=="))])
     = Ok [Content.unsupported].
Proof.
  repeat split; try reflexivity. discriminate.
Qed.

(** ** The history translator *)

Section HistoryFacts.

Import Content Backend Chat.

Lemma bind_ret {A} (r : Res A) : (x <- r ;; Ok x) = r.
Proof. destruct r; reflexivity. Qed.

(** [slice(0, -1)] drops the last element, and only that one. *)
Lemma slice_drops_last {A} (l : list A) : slice l 0 (-1) = removelast l.
Proof.
  unfold slice, slice_bound. cbn [Z.ltb Z.compare].
  replace (Z.to_nat (Z.min 0 (Z.of_nat (length l)))) with 0%nat by lia.
  cbn [skipn]. rewrite removelast_firstn_len. f_equal. lia.
Qed.

Lemma slice_snoc {A} (front : list A) (last : A) :
  slice (front ++ [last]) 0 (-1) = front.
Proof. rewrite slice_drops_last. apply removelast_last. Qed.

Section MapRes.

Context {A B : Type}.
Variable f : A -> Res B.

Lemma map_res_pointwise (l : list A) : forall ys,
  map_res f l = Ok ys -> Forall2 (fun x y => f x = Ok y) l ys.
Proof.
  induction l as [|x l IH]; cbn [map_res]; intros ys H.
  - injection H as <-. constructor.
  - destruct (f x) as [y|e] eqn:Hx; [|discriminate]. cbn [Js.bind] in H.
    destruct (map_res f l) as [ys'|e]; [|discriminate]. cbn [Js.bind] in H.
    injection H as <-. constructor; [exact Hx | now apply IH].
Qed.

Lemma map_res_defined (l : list A) :
  Forall (fun x => exists y, f x = Ok y) l -> exists ys, map_res f l = Ok ys.
Proof.
  induction 1 as [|x l [y Hy] _ [ys Hys]]; cbn [map_res].
  - now exists [].
  - rewrite Hy, Hys. now exists (y :: ys).
Qed.

End MapRes.

Variable fs : Files.

(** The loop appends to [history] the translations of the messages it is
    given, in their order, unless one of them throws. *)
Lemma history_loop_map (rest : list value) : forall history,
  history_loop fs rest history
  = (turns <- map_res (translate_message fs) rest ;; Ok (history ++ turns)).
Proof.
  induction rest as [|m rest IH]; intros history; cbn [history_loop map_res].
  - cbn [Js.bind]. now rewrite app_nil_r.
  - destruct (translate_message fs m) as [t|e]; [|reflexivity].
    cbn [Js.bind]. rewrite IH.
    destruct (map_res (translate_message fs) rest); [|reflexivity].
    cbn [Js.bind]. now rewrite <- app_assoc.
Qed.

Lemma translate_history_map (msgs : list value) :
  translate_history fs msgs = map_res (translate_message fs) (removelast msgs).
Proof.
  unfold translate_history. rewrite history_loop_map, slice_drops_last.
  cbn [app]. apply bind_ret.
Qed.

(** A message that is an object with a string for content translates. *)
Lemma translate_message_text (fields : list (string * value)) (text : string) :
  lookup "content" fields = Some (JStr text) ->
  exists turn, translate_message fs (JObj fields) = Ok turn.
Proof.
  intros Hc. unfold translate_message. cbn [destructure get Js.bind].
  rewrite Hc. cbn [Js.bind].
  destruct (lookup "role" fields) as [role|]; cbn [Js.bind];
    [destruct (is_str role "system")|]; cbn [ToString Js.bind is_str]; eauto.
Qed.

Lemma translate_message_system (message content : value) :
  get message "role" = Ok (JStr "system") ->
  get message "content" = Ok content ->
  translate_message fs message
  = (s <- ToString content ;;
     Ok (mkTurn "user" [PText (JStr ("[SYSTEM]: " ++ s))])).
Proof.
  intros Hrole Hcontent. unfold translate_message.
  assert (Hd : destructure message "role" "message" = Ok (JStr "system")).
  { destruct message; try exact Hrole; discriminate. }
  rewrite Hd, Hcontent. cbn [Js.bind is_str]. simpl String.eqb.
  cbv iota. destruct (ToString content); reflexivity.
Qed.

End HistoryFacts.

(** C7. The history is the translation, in order, of every message but
    the last.  For a list of [N >= 1] messages it has [N - 1] turns, the
    [i]-th being the translation of the [i]-th message; it exists as soon
    as each of those messages translates, which every object with a
    string for content does; and it is the same whatever the last message
    is. *)
Theorem translate_history_all_but_last :
  forall (fs : Content.Files) (msgs : list value),
    1 <= length msgs ->
    Chat.translate_history fs msgs
    = Content.map_res (Chat.translate_message fs) (removelast msgs)
    /\ (forall history,
          Chat.translate_history fs msgs = Ok history ->
          length history = length msgs - 1
          /\ Forall2 (fun m turn => Chat.translate_message fs m = Ok turn)
               (removelast msgs) history)
    /\ (Forall (fun m => exists turn, Chat.translate_message fs m = Ok turn)
          (removelast msgs) ->
        exists history, Chat.translate_history fs msgs = Ok history)
    /\ (Forall (fun m => exists fields text,
                    m = JObj fields /\ lookup "content" fields = Some (JStr text))
          (removelast msgs) ->
        exists history, Chat.translate_history fs msgs = Ok history)
    /\ (forall other,
          Chat.translate_history fs (removelast msgs ++ [other])
          = Chat.translate_history fs msgs).
Proof.
  intros fs msgs HN. split; [apply translate_history_map|]. split; [|split; [|split]].
  - intros history H. rewrite translate_history_map in H.
    apply map_res_pointwise in H. split; [|exact H].
    apply Forall2_length in H. rewrite <- H, removelast_firstn_len, length_firstn.
    lia.
  - intros Hall. rewrite translate_history_map. now apply map_res_defined.
  - intros Hall. rewrite translate_history_map. apply map_res_defined.
    eapply Forall_impl; [|exact Hall].
    intros m (fields & text & -> & Hc). now apply (translate_message_text fs fields text).
  - intros other. now rewrite !translate_history_map, removelast_last.
Qed.

Lemma translate_history_all_but_last_witness :
  1 <= length Sample.conversation
  /\ Chat.translate_history Sample.no_files Sample.conversation
     = Ok [Backend.mkTurn "user" [Content.PText (JStr "[SYSTEM]: Be brief.")];
           Backend.mkTurn "user" [Content.PText (JStr "Hi")];
           Backend.mkTurn "model" [Content.PText (JStr "Hello.")]]
  /\ length [Backend.mkTurn "user" [Content.PText (JStr "[SYSTEM]: Be brief.")];
             Backend.mkTurn "user" [Content.PText (JStr "Hi")];
             Backend.mkTurn "model" [Content.PText (JStr "Hello.")]]
     = length Sample.conversation - 1.
Proof.
  assert (HN : 1 <= length Sample.conversation) by (simpl; lia).
  destruct (translate_history_all_but_last Sample.no_files Sample.conversation HN)
    as (Heq & Hlen & _ & _ & _).
  assert (Hrun : Chat.translate_history Sample.no_files Sample.conversation
                 = Ok [Backend.mkTurn "user" [Content.PText (JStr "[SYSTEM]: Be brief.")];
                       Backend.mkTurn "user" [Content.PText (JStr "Hi")];
                       Backend.mkTurn "model" [Content.PText (JStr "Hello.")]])
    by (rewrite Heq; reflexivity).
  split; [exact HN|]. split; [exact Hrun|]. exact (proj1 (Hlen _ Hrun)).
Defined.

(** C8. A message whose role is [system] translates to a turn of role
    [user] with one text part: the prefix ["[SYSTEM]: "] followed by the
    content converted to a string, whatever the content is (the turn
    exists exactly when that conversion does).  When such a message is
    not the last one, that turn stands at the message's position in the
    history. *)
Theorem translate_message_system_prefix :
  forall (fs : Content.Files) (message content : value),
    get message "role" = Ok (JStr "system") ->
    get message "content" = Ok content ->
    Chat.translate_message fs message
    = (s <- ToString content ;;
       Ok (Backend.mkTurn "user" [Content.PText (JStr ("[SYSTEM]: " ++ s))]))
    /\ (forall text, content = JStr text ->
          Chat.translate_message fs message
          = Ok (Backend.mkTurn "user" [Content.PText (JStr ("[SYSTEM]: " ++ text))]))
    /\ (forall front back history,
          back <> [] ->
          Chat.translate_history fs (front ++ message :: back) = Ok history ->
          exists s,
            ToString content = Ok s
            /\ nth_error history (length front)
               = Some (Backend.mkTurn "user"
                         [Content.PText (JStr ("[SYSTEM]: " ++ s))])).
Proof.
  intros fs message content Hrole Hcontent.
  pose proof (translate_message_system fs message content Hrole Hcontent) as Heq.
  split; [exact Heq|]. split.
  - intros text ->. exact Heq.
  - intros front back history Hback H.
    rewrite translate_history_map, removelast_app in H by discriminate.
    apply map_res_pointwise in H.
    apply Forall2_app_inv_l in H as (h1 & h2 & Hfront & Hrest & ->).
    destruct back as [|b back]; [congruence|].
    cbn [removelast] in Hrest. inversion Hrest as [|? turn ? h2' Hm _]; subst.
    rewrite Heq in Hm. destruct (ToString content) as [s|e]; [|discriminate].
    cbn [Js.bind] in Hm. injection Hm as <-.
    exists s. split; [reflexivity|].
    rewrite nth_error_app2 by (apply Forall2_length in Hfront; lia).
    apply Forall2_length in Hfront. rewrite Hfront, Nat.sub_diag. reflexivity.
Qed.

Lemma translate_message_system_prefix_witness :
  Chat.translate_message Sample.no_files
    (Sample.msg "system"
       (JArr [JObj [("type", JStr "text"); ("text", JStr "Be brief.")];
              JObj [("type", JStr "text"); ("text", JStr "Be kind.")]]))
  = Ok (Backend.mkTurn "user"
          [Content.PText (JStr "[SYSTEM]: [object Object],[object Object]")])
  /\ Chat.translate_message Sample.no_files (Sample.msg "system" (JStr "Be brief."))
     = Ok (Backend.mkTurn "user" [Content.PText (JStr "[SYSTEM]: Be brief.")]).
Proof.
  split.
  - destruct (translate_message_system_prefix Sample.no_files
                (Sample.msg "system"
                   (JArr [JObj [("type", JStr "text"); ("text", JStr "Be brief.")];
                          JObj [("type", JStr "text"); ("text", JStr "Be kind.")]]))
                (JArr [JObj [("type", JStr "text"); ("text", JStr "Be brief.")];
                       JObj [("type", JStr "text"); ("text", JStr "Be kind.")]])
                eq_refl eq_refl) as (Heq & _).
    rewrite Heq. reflexivity.
  - destruct (translate_message_system_prefix Sample.no_files
                (Sample.msg "system" (JStr "Be brief.")) (JStr "Be brief.")
                eq_refl eq_refl) as (_ & Hstr & _).
    exact (Hstr "Be brief."%string eq_refl).
Defined.

(** ** The streaming branch *)

Section StreamFacts.

Import apiKeyManager Content Http Backend Chat.

Lemma write_all_unfold (chunks : list string) : forall r,
  write_all chunks r
  = mkResponse (statusCode r) (headers r) (written r ++ chunks) (ended r).
Proof.
  unfold write_all.
  induction chunks as [|c chunks IH]; intros r; cbn [fold_left].
  - rewrite app_nil_r. now destruct r.
  - rewrite IH. unfold write. cbn [statusCode headers written ended].
    now rewrite <- app_assoc.
Qed.

Lemma write_all_app (a b : list string) (r : Response) :
  write_all (a ++ b) r = write_all b (write_all a r).
Proof. unfold write_all. apply fold_left_app. Qed.

Lemma written_write_all (chunks : list string) (r : Response) :
  written (write_all chunks r) = written r ++ chunks.
Proof. now rewrite write_all_unfold. Qed.

Lemma deltas_app (id : string) (created : Z) (a b : list string) :
  deltas id created (a ++ b) = deltas id created a ++ deltas id created b.
Proof. unfold deltas. now rewrite filter_app, map_app. Qed.

Variables (id : string) (created : Z).

(** The loop writes one frame for each text that is not empty, in
    order, and nothing else. *)
Lemma chunk_loop_writes (chunks : list string) : forall contentSoFar r,
  snd (chunk_loop id created chunks contentSoFar r)
  = write_all (deltas id created chunks) r.
Proof.
  induction chunks as [|t chunks IH]; intros contentSoFar r;
    cbn [chunk_loop]; [reflexivity|].
  unfold deltas. cbn [truthy filter].
  destruct (negb (String.eqb t "")); [|apply IH].
  rewrite IH. reflexivity.
Qed.

Variables (sdk : Sdk) (call : ChatCall).

(** One run of the closure: the frames of the chunks, then the closing
    frames if the stream ended, or nothing more if it threw. *)
Lemma stream_call_run (model : option string) (conn : Conn) :
  stream_call sdk call id created model conn
  = let run := sendMessageStream sdk model call (attempts conn) in
    match failure run with
    | Some error =>
        (Throw error,
         mkConn (write_all (deltas id created (fragments run)) (res conn))
                (S (attempts conn)))
    | None =>
        (Ok tt,
         mkConn (end_ (write_all (deltas id created (fragments run)
                                  ++ [sse (finishEvent id created); done_frame])
                                 (res conn)))
                (S (attempts conn)))
    end.
Proof.
  unfold stream_call. cbv zeta.
  pose proof (chunk_loop_writes
                (fragments (sendMessageStream sdk model call (attempts conn)))
                "" (res conn)) as Hloop.
  destruct (chunk_loop _ _ _ _ _) as [c r1]. cbn [snd] in Hloop. subst r1.
  destruct (failure _); [reflexivity|].
  rewrite write_all_app. reflexivity.
Qed.

Variable pool : list string.

(** Whatever the loop does, it only adds to what has been written. *)
Lemma stream_loop_extends (fuel : nat) :
  forall (maxRetries retryCount : Z) (st : State Conn) out st',
    retry_loop pool fuel (stream_call sdk call id created) maxRetries retryCount st
    = Some (out, st') ->
    exists tail, output st' = output st ++ tail.
Proof.
  induction fuel as [|fuel IH]; intros maxRetries retryCount st out st' H;
    [discriminate|].
  cbn [retry_loop] in H.
  destruct (retryCount <? maxRetries)%Z.
  2:{ injection H as _ <-. exists []. now rewrite app_nil_r. }
  rewrite stream_call_run in H. cbv zeta in H.
  destruct (failure _) as [error|].
  - destruct (negb (is429Error error) || _).
    + injection H as _ <-. unfold output. cbn [ext res].
      rewrite written_write_all. eauto.
    + cbn [switchToNextApiKey] in H. apply IH in H as [tail Ht].
      unfold output in *. cbn [ext res] in Ht.
      rewrite written_write_all in Ht. rewrite Ht, <- app_assoc. eauto.
  - injection H as _ <-. unfold output. cbn [ext res end_ written].
    rewrite written_write_all. eauto.
Qed.

End StreamFacts.

Section StreamingHandler.

Import apiKeyManager Content Http Backend Chat.

Variables (pool : list string) (fs : Files) (sdk : Sdk) (clock : nat -> Z).
Variables (req : Request) (call : ChatCall).

Hypothesis prepared : prepare fs req = Ok call.
Hypothesis wants_stream : truthy (stream req) = true.

Lemma chat_completions_streams (st : State Conn) :
  chat_completions pool fs sdk clock req st = streaming pool sdk clock call st.
Proof. unfold chat_completions. now rewrite prepared, wants_stream. Qed.

(** One iteration of the loop over the closure of the streaming branch. *)
Lemma stream_loop_step (id : string) (created : Z) (fuel : nat)
    (maxRetries retryCount : Z) (st : State Conn) out st' :
  (retryCount < maxRetries)%Z ->
  retry_loop pool (S fuel) (stream_call sdk call id created) maxRetries retryCount st
  = Some (out, st') ->
  let run := sendMessageStream sdk (getCurrentApiKey pool st) call
               (attempts (ext st)) in
  exists tail,
    output st' = output st ++ deltas id created (fragments run) ++ tail
    /\ (failure run = None ->
        tail = [sse (finishEvent id created); done_frame]
        /\ out = Ok tt
        /\ trace st' = trace st ++ [Invoked (getCurrentApiKey pool st)]
        /\ currentApiKeyIndex st' = currentApiKeyIndex st
        /\ ended (res (ext st')) = true).
Proof.
  intros Hlt H. cbv zeta. cbn [retry_loop] in H.
  apply Z.ltb_lt in Hlt. rewrite Hlt, stream_call_run in H. cbv zeta in H.
  destruct (failure _) as [error|].
  - destruct (negb (is429Error error) || _).
    + injection H as _ <-. exists []. split; [|discriminate].
      unfold output. cbn [ext res]. now rewrite written_write_all, app_nil_r.
    + cbn [switchToNextApiKey] in H.
      apply stream_loop_extends in H as [tail Ht].
      exists tail. split; [|discriminate].
      unfold output in *. cbn [ext res] in Ht.
      now rewrite Ht, written_write_all, <- app_assoc.
  - injection H as <- <-. exists [sse (finishEvent id created); done_frame].
    split; [|intros _; repeat split].
    unfold output. cbn [ext res end_ written].
    now rewrite written_write_all.
Qed.

(** What the handler adds once [executeWithRetry] is over. *)
Lemma streaming_output (st : State Conn) :
  let id := responseId clock in
  let created := created_at clock in
  let st1 :=
    with_res (fun r =>
      write (sse (startEvent id created))
        (setHeader "Connection" "keep-alive"
          (setHeader "Cache-Control" "no-cache"
            (setHeader "Content-Type" "text/event-stream" r)))) st in
  let result := executeWithRetry_default pool (stream_call sdk call id created) st1 in
  output (streaming pool sdk clock call st)
  = output (snd result)
    ++ match fst result with
       | Ok _ => []
       | Throw error => [sse (errorEvent error "server_error"); done_frame]
       end
  /\ trace (streaming pool sdk clock call st) = trace (snd result)
  /\ currentApiKeyIndex (streaming pool sdk clock call st)
     = currentApiKeyIndex (snd result)
  /\ (forall u, fst result = Ok u ->
      streaming pool sdk clock call st = snd result).
Proof.
  cbv zeta. unfold streaming.
  set (id := responseId clock). set (created := created_at clock).
  change (with_res (write (sse (startEvent id created)))
            (with_res (fun r => setHeader "Connection" "keep-alive"
               (setHeader "Cache-Control" "no-cache"
                  (setHeader "Content-Type" "text/event-stream" r))) st))
    with (with_res (fun r =>
            write (sse (startEvent id created))
              (setHeader "Connection" "keep-alive"
                (setHeader "Cache-Control" "no-cache"
                  (setHeader "Content-Type" "text/event-stream" r)))) st).
  destruct (executeWithRetry_default _ _ _) as [[u|error] st2]; cbn [fst snd].
  - rewrite app_nil_r. repeat split.
  - repeat split; try discriminate.
    unfold output, with_res. cbn [ext res end_ write written].
    now rewrite <- app_assoc.
Qed.

End StreamingHandler.

Section StreamingRuns.

Import apiKeyManager Content Http Backend Chat.

Variables (pool : list string) (fs : Files) (sdk : Sdk) (clock : nat -> Z).
Variables (req : Request) (call : ChatCall).

Hypothesis prepared : prepare fs req = Ok call.
Hypothesis wants_stream : truthy (stream req) = true.

(** A first run that comes to its end: the role frame, the frames of
    its chunks, the finish frame and the sentinel. *)
Lemma streaming_first_run_completes (st : State Conn) :
  1 <= length pool ->
  failure (sendMessageStream sdk (getCurrentApiKey pool st) call
             (attempts (ext st))) = None ->
  let st' := chat_completions pool fs sdk clock req st in
  output st'
  = output st
    ++ sse (startEvent (responseId clock) (created_at clock))
       :: deltas (responseId clock) (created_at clock)
            (fragments (sendMessageStream sdk (getCurrentApiKey pool st) call
                          (attempts (ext st))))
       ++ [sse (finishEvent (responseId clock) (created_at clock)); done_frame]
  /\ trace st' = trace st ++ [Invoked (getCurrentApiKey pool st)]
  /\ currentApiKeyIndex st' = currentApiKeyIndex st
  /\ ended (res (ext st')) = true.
Proof.
  intros Hpool Hrun. cbv zeta.
  rewrite (chat_completions_streams pool fs sdk clock req call prepared wants_stream).
  destruct (streaming_output pool sdk clock call st) as (Hout & Htr & Hcur & Hst).
  unfold executeWithRetry_default in *.
  match type of Hout with
  | context [executeWithRetry pool ?f ?m ?s] =>
      pose proof (executeWithRetry_runs pool f m s) as Hr;
      destruct (executeWithRetry pool f m s) as [out st2] eqn:Hexec
  end.
  unfold enough in Hr.
  apply stream_loop_step in Hr as (tail & Ho & Hnone); [|lia].
  cbn [fst snd] in *.
  destruct (Hnone Hrun) as (-> & -> & Ht & Hc & He).
  split; [|split; [|split]].
  - rewrite Hout, Ho, app_nil_r. unfold output, with_res.
    cbn [ext res write written]. rewrite <- app_assoc. reflexivity.
  - rewrite Htr, Ht. reflexivity.
  - rewrite Hcur, Hc. reflexivity.
  - rewrite (Hst tt eq_refl). exact He.
Qed.

(** A first run that is rate-limited while a second key is at hand: the
    frames of its chunks stay, and those of the second run follow them. *)
Lemma streaming_first_run_limited (st : State Conn) (error : JsError) :
  2 <= length pool ->
  failure (sendMessageStream sdk (getCurrentApiKey pool st) call
             (attempts (ext st))) = Some error ->
  is429Error error = true ->
  let first := sendMessageStream sdk (getCurrentApiKey pool st) call
                 (attempts (ext st)) in
  let second := sendMessageStream sdk
                  (key_at pool (next_index pool (currentApiKeyIndex st))) call
                  (S (attempts (ext st))) in
  let st' := chat_completions pool fs sdk clock req st in
  exists tail,
    output st'
    = output st
      ++ sse (startEvent (responseId clock) (created_at clock))
         :: deltas (responseId clock) (created_at clock) (fragments first)
         ++ deltas (responseId clock) (created_at clock) (fragments second)
         ++ tail
    /\ (failure second = None ->
        tail = [sse (finishEvent (responseId clock) (created_at clock)); done_frame]
        /\ trace st'
           = trace st
             ++ [Invoked (getCurrentApiKey pool st);
                 Switched (next_index pool (currentApiKeyIndex st));
                 Invoked (key_at pool (next_index pool (currentApiKeyIndex st)))]
        /\ currentApiKeyIndex st' = next_index pool (currentApiKeyIndex st)).
Proof.
  intros Hpool Hfail Hc. cbv zeta.
  rewrite (chat_completions_streams pool fs sdk clock req call prepared wants_stream).
  destruct (streaming_output pool sdk clock call st) as (Hout & Htr & Hcur & Hst).
  unfold executeWithRetry_default in *.
  match type of Hout with
  | context [executeWithRetry pool ?f ?m ?s] =>
      pose proof (executeWithRetry_first_limited pool f m s error
                    (mkConn (write_all (deltas (responseId clock) (created_at clock)
                               (fragments (sendMessageStream sdk (getCurrentApiKey pool st)
                                             call (attempts (ext st)))))
                               (res (ext s)))
                            (S (attempts (ext st))))) as Hr;
      destruct (executeWithRetry pool f m s) as [out st2] eqn:Hexec
  end.
  cbn [fst snd] in *.
  assert (Hloop := Hr ltac:(lia)). clear Hr.
  rewrite stream_call_run in Hloop. cbv zeta in Hloop.
  unfold getCurrentApiKey at 1 2 in Hloop.
  cbn [with_res currentApiKeyIndex ext attempts] in Hloop.
  fold (getCurrentApiKey pool st) in Hloop. rewrite Hfail in Hloop.
  specialize (Hloop eq_refl Hc).
  destruct (Z.to_nat (Z.of_nat (length pool))) as [|fuel] eqn:Hfuel; [lia|].
  apply stream_loop_step in Hloop as (tail & Ho & Hnone); [|lia].
  unfold getCurrentApiKey in Ho, Hnone.
  cbn [currentApiKeyIndex ext attempts trace] in Ho, Hnone.
  exists (tail ++ match out with
                  | Ok _ => []
                  | Throw e => [sse (errorEvent e "server_error"); done_frame]
                  end).
  split.
  - rewrite Hout, Ho. unfold output, with_res.
    cbn [ext res write written]. rewrite written_write_all.
    cbn [ext res write written]. rewrite <- !app_assoc. reflexivity.
  - intros Hsecond. destruct (Hnone Hsecond) as (-> & -> & Ht & Hi & _).
    rewrite app_nil_r. split; [reflexivity|].
    rewrite Htr, Ht, Hcur, Hi. cbn [with_res trace].
    rewrite <- !app_assoc. split; reflexivity.
Qed.

End StreamingRuns.

Section FrameText.

Import Content Http Backend Chat Wire.

Lemma append_assoc_r (a b c : string) :
  ((a ++ b) ++ c)%string = (a ++ (b ++ c))%string.
Proof. induction a as [|x a IH]; cbn [append]; [reflexivity|now rewrite IH]. Qed.

Lemma escape_append (a b : string) :
  escape (a ++ b) = (escape a ++ escape b)%string.
Proof.
  induction a as [|c a IH]; cbn [append escape]; [reflexivity|].
  now rewrite IH, append_assoc_r.
Qed.

Lemma escape_char_ordinary (c : ascii) :
  ordinary c = true -> escape_char c = String c "".
Proof.
  destruct c as [[] [] [] [] [] [] [] []]; intros H;
    first [reflexivity | discriminate H].
Qed.

Lemma escape_ordinary (s : string) :
  all_chars ordinary s = true -> escape s = s.
Proof.
  induction s as [|c s IH]; cbn [all_chars escape]; intros H; [reflexivity|].
  apply andb_true_iff in H as [Hc Hs].
  now rewrite (escape_char_ordinary c Hc), IH.
Qed.

Lemma uint_ordinary (d : Decimal.uint) :
  all_chars ordinary (NilEmpty.string_of_uint d) = true.
Proof. induction d; cbn [NilEmpty.string_of_uint all_chars]; auto. Qed.

Lemma decimal_ordinary (z : Z) : all_chars ordinary (decimal z) = true.
Proof.
  unfold decimal, NilZero.string_of_int.
  destruct (Z.to_int z) as [d|d]; unfold NilZero.string_of_uint;
    destruct d; cbn [all_chars]; try reflexivity;
    cbn [NilEmpty.string_of_uint all_chars]; apply uint_ordinary.
Qed.

(** The identifier of a response has nothing to escape. *)
Lemma escape_responseId (clock : nat -> Z) :
  escape (responseId clock) = ("chatcmpl-" ++ decimal (clock 0))%string.
Proof.
  unfold responseId.
  rewrite escape_append, (escape_ordinary (decimal _) (decimal_ordinary _)).
  reflexivity.
Qed.

(** The frame of a chunk, as text. *)
Lemma sse_chunk_text (id : string) (created : Z) (delta finish_reason : value)
    (d f : string) :
  escape id = id ->
  stringify delta = Some (quoted d) ->
  stringify finish_reason = Some (quoted f) ->
  sse (chunk id created delta finish_reason) = chunk_text id (decimal created) d f.
Proof.
  intros Hid Hd Hf. unfold sse, chunk, chunk_text.
  cbn [stringify stringify_number]. rewrite Hd, Hf. unfold quote. rewrite Hid.
  cbn [join].
  generalize (decimal created) (quoted d) (quoted f). intros tc td tf.
  rewrite !append_assoc_r. reflexivity.
Qed.

Lemma sse_startEvent_text (clock : nat -> Z) :
  sse (startEvent (responseId clock) (created_at clock))
  = chunk_text ("chatcmpl-" ++ decimal (clock 0)) (decimal (clock 1 / 1000))
      "{'role':'assistant'}" "null".
Proof. apply sse_chunk_text; [apply escape_responseId|reflexivity|reflexivity]. Qed.

Lemma sse_finishEvent_text (clock : nat -> Z) :
  sse (finishEvent (responseId clock) (created_at clock))
  = chunk_text ("chatcmpl-" ++ decimal (clock 0)) (decimal (clock 1 / 1000))
      "{}" "'stop'".
Proof. apply sse_chunk_text; [apply escape_responseId|reflexivity|reflexivity]. Qed.

Lemma done_frame_text : done_frame = done_text.
Proof. reflexivity. Qed.

End FrameText.

(** C2. A streaming request whose backend stream yields ["Hel"], then
    ["lo"], then ends, makes the handler write five frames: the role
    chunk (delta [{role: "assistant"}], finish reason [null]), a chunk
    with delta content ["Hel"], a chunk with delta content ["lo"], the
    closing chunk (empty delta, finish reason ["stop"]) and the sentinel
    [data: [DONE]].  The four chunks carry the same [id].  The frames
    are given twice: as the text that is written, character by
    character, and as the events that are serialized. *)
Theorem streaming_hel_lo_frames :
  forall (pool : list string) (fs : Content.Files) (sdk : Backend.Sdk)
         (clock : nat -> Z) (req : Chat.Request) (call : Backend.ChatCall)
         (st : apiKeyManager.State Backend.Conn),
    1 <= length pool ->
    Chat.prepare fs req = Ok call ->
    truthy (Chat.stream req) = true ->
    Backend.sendMessageStream sdk (apiKeyManager.getCurrentApiKey pool st) call
      (Backend.attempts (apiKeyManager.ext st))
    = Backend.mkRun ["Hel"; "lo"] None ->
    let id := Chat.responseId clock in
    let created := Chat.created_at clock in
    let events := [Chat.startEvent id created;
                   Chat.chunkEvent id created "Hel";
                   Chat.chunkEvent id created "lo";
                   Chat.finishEvent id created] in
    let id_text := ("chatcmpl-" ++ decimal (clock 0))%string in
    let created_text := decimal (clock 1 / 1000) in
    let st' := Chat.chat_completions pool fs sdk clock req st in
    Backend.output st'
    = Backend.output st
      ++ [Wire.chunk_text id_text created_text "{'role':'assistant'}" "null";
          Wire.chunk_text id_text created_text "{'content':'Hel'}" "null";
          Wire.chunk_text id_text created_text "{'content':'lo'}" "null";
          Wire.chunk_text id_text created_text "{}" "'stop'";
          Wire.done_text]
    /\ Backend.output st' = Backend.output st ++ map Http.sse events ++ [Http.done_frame]
    /\ Http.done_frame = ("data: [DONE]" ++ Content.LF ++ Content.LF)%string
    /\ Forall (fun ev => get ev "id" = Ok (JStr id)) events
    /\ map (fun ev => Chat.choice_field ev "delta") events
       = [Ok (JObj [("role", JStr "assistant")]);
          Ok (JObj [("content", JStr "Hel")]);
          Ok (JObj [("content", JStr "lo")]);
          Ok (JObj [])]
    /\ map (fun ev => Chat.choice_field ev "finish_reason") events
       = [Ok JNull; Ok JNull; Ok JNull; Ok (JStr "stop")]
    /\ Http.ended (Backend.res (apiKeyManager.ext st')) = true.
Proof.
  intros pool fs sdk clock req call st Hpool Hprep Hstream Hrun. cbv zeta.
  destruct (streaming_first_run_completes pool fs sdk clock req call Hprep Hstream st Hpool)
    as (Hout & _ & _ & Hend); [now rewrite Hrun|].
  rewrite Hrun in Hout. split; [|split; [exact Hout|]].
  - rewrite Hout. f_equal.
    change (Chat.deltas ?i ?c (Backend.fragments (Backend.mkRun ["Hel"; "lo"] None)))
      with [Http.sse (Chat.chunkEvent i c "Hel"); Http.sse (Chat.chunkEvent i c "lo")].
    cbn [app].
    rewrite sse_startEvent_text, sse_finishEvent_text, done_frame_text.
    unfold Chat.chunkEvent.
    rewrite (sse_chunk_text _ _ (JObj [("content", JStr "Hel")]) JNull
               "{'content':'Hel'}" "null" (escape_responseId clock) eq_refl eq_refl).
    rewrite (sse_chunk_text _ _ (JObj [("content", JStr "lo")]) JNull
               "{'content':'lo'}" "null" (escape_responseId clock) eq_refl eq_refl).
    reflexivity.
  - split; [reflexivity|].
    split; [repeat constructor|]. split; [reflexivity|]. split; [reflexivity|].
    exact Hend.
Qed.

Lemma streaming_hel_lo_frames_witness :
  Backend.output
    (Chat.chat_completions Sample.pool3 Sample.no_files Sample.steady Sample.clock
       Sample.streaming_request Backend.start)
  = [(Wire.quoted "data: {'id':'chatcmpl-1700000000123','object':'chat.completion.chunk','created':1700000000,'model':'gemini-2.5-pro-exp-03-25','choices':[{'index':0,'delta':{'role':'assistant'},'finish_reason':null}]}"
        ++ Wire.nl ++ Wire.nl)%string;
     (Wire.quoted "data: {'id':'chatcmpl-1700000000123','object':'chat.completion.chunk','created':1700000000,'model':'gemini-2.5-pro-exp-03-25','choices':[{'index':0,'delta':{'content':'Hel'},'finish_reason':null}]}"
        ++ Wire.nl ++ Wire.nl)%string;
     (Wire.quoted "data: {'id':'chatcmpl-1700000000123','object':'chat.completion.chunk','created':1700000000,'model':'gemini-2.5-pro-exp-03-25','choices':[{'index':0,'delta':{'content':'lo'},'finish_reason':null}]}"
        ++ Wire.nl ++ Wire.nl)%string;
     (Wire.quoted "data: {'id':'chatcmpl-1700000000123','object':'chat.completion.chunk','created':1700000000,'model':'gemini-2.5-pro-exp-03-25','choices':[{'index':0,'delta':{},'finish_reason':'stop'}]}"
        ++ Wire.nl ++ Wire.nl)%string;
     (Wire.quoted "data: [DONE]" ++ Wire.nl ++ Wire.nl)%string].
Proof.
  destruct (Chat.prepare Sample.no_files Sample.streaming_request) as [call|e] eqn:Hprep;
    [|discriminate].
  refine (eq_trans (proj1 (streaming_hel_lo_frames Sample.pool3 Sample.no_files
                             Sample.steady Sample.clock Sample.streaming_request call
                             Backend.start ltac:(simpl; lia) Hprep eq_refl eq_refl)) _).
  vm_compute. reflexivity.
Defined.

(** C3. When a run of the stream throws a rate-limit error and attempts
    remain, the loop writes neither an error frame nor the sentinel: it
    moves the cursor and runs the closure again on the response as the
    failed run left it.  So, for a first run that fails this way with a
    second key at hand, the frames of the second run follow those of the
    first, which stay; when the second run repeats the texts of the first
    and ends, the client gets those texts twice. *)
Theorem streaming_retry_keeps_written_chunks :
  forall (pool : list string) (fs : Content.Files) (sdk : Backend.Sdk)
         (clock : nat -> Z) (req : Chat.Request) (call : Backend.ChatCall)
         (st : apiKeyManager.State Backend.Conn) (error : JsError),
    let id := Chat.responseId clock in
    let created := Chat.created_at clock in
    let first := Backend.sendMessageStream sdk (apiKeyManager.getCurrentApiKey pool st)
                   call (Backend.attempts (apiKeyManager.ext st)) in
    let moved := apiKeyManager.next_index pool (apiKeyManager.currentApiKeyIndex st) in
    let second := Backend.sendMessageStream sdk (apiKeyManager.key_at pool moved)
                    call (S (Backend.attempts (apiKeyManager.ext st))) in
    Backend.failure first = Some error ->
    apiKeyManager.is429Error error = true ->
    (forall (fuel : nat) (maxRetries retryCount : Z),
        (retryCount < maxRetries - 1)%Z ->
        apiKeyManager.retry_loop pool (S fuel) (Chat.stream_call sdk call id created)
          maxRetries retryCount st
        = apiKeyManager.retry_loop pool fuel (Chat.stream_call sdk call id created)
            maxRetries (retryCount + 1)
            (apiKeyManager.mkState moved
               ((apiKeyManager.trace st
                 ++ [apiKeyManager.Invoked (apiKeyManager.getCurrentApiKey pool st)])
                ++ [apiKeyManager.Switched moved])
               (Backend.mkConn
                  (Http.write_all (Chat.deltas id created (Backend.fragments first))
                     (Backend.res (apiKeyManager.ext st)))
                  (S (Backend.attempts (apiKeyManager.ext st))))))
    /\
    (2 <= length pool ->
     Chat.prepare fs req = Ok call ->
     truthy (Chat.stream req) = true ->
     let st' := Chat.chat_completions pool fs sdk clock req st in
     (exists tail,
         Backend.output st'
         = Backend.output st
           ++ Http.sse (Chat.startEvent id created)
              :: Chat.deltas id created (Backend.fragments first)
              ++ Chat.deltas id created (Backend.fragments second)
              ++ tail)
     /\ (forall more,
           Backend.fragments second = Backend.fragments first ++ more ->
           Backend.failure second = None ->
           Backend.output st'
           = Backend.output st
             ++ Http.sse (Chat.startEvent id created)
                :: Chat.deltas id created (Backend.fragments first)
                ++ Chat.deltas id created (Backend.fragments first)
                ++ Chat.deltas id created more
                ++ [Http.sse (Chat.finishEvent id created); Http.done_frame]
           /\ apiKeyManager.trace st'
              = apiKeyManager.trace st
                ++ [apiKeyManager.Invoked (apiKeyManager.getCurrentApiKey pool st);
                    apiKeyManager.Switched moved;
                    apiKeyManager.Invoked (apiKeyManager.key_at pool moved)])).
Proof.
  intros pool fs sdk clock req call st error. cbv zeta. intros Hfail Hc. split.
  - intros fuel maxRetries retryCount Hlt.
    rewrite (retry_loop_again pool _ fuel maxRetries retryCount st error
               (Backend.mkConn
                  (Http.write_all
                     (Chat.deltas (Chat.responseId clock) (Chat.created_at clock)
                        (Backend.fragments
                           (Backend.sendMessageStream sdk
                              (apiKeyManager.getCurrentApiKey pool st) call
                              (Backend.attempts (apiKeyManager.ext st)))))
                     (Backend.res (apiKeyManager.ext st)))
                  (S (Backend.attempts (apiKeyManager.ext st))))); try assumption.
    + reflexivity.
    + rewrite stream_call_run. cbv zeta. now rewrite Hfail.
  - intros Hpool Hprep Hstream.
    destruct (streaming_first_run_limited pool fs sdk clock req call Hprep Hstream
                st error Hpool Hfail Hc) as (tail & Hout & Hnone).
    split; [now exists tail|].
    intros more Hmore Hsecond. destruct (Hnone Hsecond) as (-> & Ht & _).
    split; [|exact Ht].
    rewrite Hout, Hmore, deltas_app, <- !app_assoc. reflexivity.
Qed.

Lemma streaming_retry_keeps_written_chunks_witness :
  Backend.output
    (Chat.chat_completions Sample.pool3 Sample.no_files Sample.limited_once
       Sample.clock Sample.streaming_request Backend.start)
  = map Http.sse
      [Chat.startEvent "chatcmpl-1700000000123" 1700000000;
       Chat.chunkEvent "chatcmpl-1700000000123" 1700000000 "Hel";
       Chat.chunkEvent "chatcmpl-1700000000123" 1700000000 "Hel";
       Chat.chunkEvent "chatcmpl-1700000000123" 1700000000 "lo";
       Chat.finishEvent "chatcmpl-1700000000123" 1700000000]
    ++ [Http.done_frame].
Proof.
  destruct (Chat.prepare Sample.no_files Sample.streaming_request) as [call|e] eqn:Hprep;
    [|discriminate].
  destruct (streaming_retry_keeps_written_chunks Sample.pool3 Sample.no_files
              Sample.limited_once Sample.clock Sample.streaming_request call
              Backend.start Sample.too_many eq_refl eq_refl) as (_ & Hhandler).
  destruct (Hhandler ltac:(simpl; lia) Hprep eq_refl) as (_ & Hdup).
  exact (proj1 (Hdup ["lo"] eq_refl eq_refl)).
Defined.

(** C10. In the loop over the stream a chunk whose text is empty writes
    nothing: the frames written are those of the texts that are not
    empty, one each and in order, so every one of them carries a text
    that is not empty and there are as many frames as such texts.  The
    same holds for every run of the closure, which adds to them only the
    two closing frames, and only when the stream ends. *)
Theorem chunk_loop_skips_empty_text :
  forall (id : string) (created : Z) (chunks : list string)
         (contentSoFar : string) (r : Http.Response),
    let nonempty := filter (fun t => negb (String.eqb t "")) chunks in
    Http.written (snd (Chat.chunk_loop id created chunks contentSoFar r))
    = Http.written r ++ map (fun t => Http.sse (Chat.chunkEvent id created t)) nonempty
    /\ length (map (fun t => Http.sse (Chat.chunkEvent id created t)) nonempty)
       = length nonempty
    /\ Forall (fun t => t <> ""%string /\ In t chunks
                        /\ Chat.choice_field (Chat.chunkEvent id created t) "delta"
                           = Ok (JObj [("content", JStr t)])) nonempty
    /\ (forall before after,
          chunks = before ++ ""%string :: after ->
          Http.written (snd (Chat.chunk_loop id created chunks contentSoFar r))
          = Http.written
              (snd (Chat.chunk_loop id created (before ++ after) contentSoFar r)))
    /\ (forall (sdk : Backend.Sdk) (call : Backend.ChatCall)
               (model : option string) (conn : Backend.Conn),
          let run := Backend.sendMessageStream sdk model call (Backend.attempts conn) in
          Http.written
            (Backend.res (snd (Chat.stream_call sdk call id created model conn)))
          = Http.written (Backend.res conn)
            ++ map (fun t => Http.sse (Chat.chunkEvent id created t))
                 (filter (fun t => negb (String.eqb t "")) (Backend.fragments run))
            ++ match Backend.failure run with
               | None => [Http.sse (Chat.finishEvent id created); Http.done_frame]
               | Some _ => []
               end).
Proof.
  intros id created chunks contentSoFar r. cbv zeta.
  split; [|split; [|split; [|split]]].
  - now rewrite chunk_loop_writes, written_write_all.
  - apply length_map.
  - apply Forall_forall. intros t Hin. apply filter_In in Hin as [Hin Hne].
    split; [|split; [exact Hin | reflexivity]].
    intros ->. discriminate.
  - intros before after ->.
    rewrite !chunk_loop_writes, !written_write_all, !deltas_app. reflexivity.
  - intros sdk call model conn. cbv zeta. rewrite stream_call_run. cbv zeta.
    destruct (Backend.failure _); cbn [snd Backend.res Http.end_ Http.written];
      rewrite written_write_all; unfold Chat.deltas;
      rewrite ?app_nil_r; reflexivity.
Qed.

(** ** The image endpoint *)

(** C9. A request to the image endpoint whose body has no [prompt], or a
    falsy one, is answered with status 400 and the body
    [{success: false, error: <message>}]; the backend call is not
    reached: nothing is invoked and the cursor keeps its place. *)
Theorem generate_requires_prompt :
  forall (pool : list string) (fs : Content.Files) (sdk : Backend.Sdk)
         (body prompt : value) (files : list Generate.Upload)
         (st : apiKeyManager.State Backend.Conn),
    get body "prompt" = Ok prompt ->
    truthy prompt = false ->
    let st' := Generate.generate pool fs sdk body files st in
    Http.statusCode (Backend.res (apiKeyManager.ext st')) = 400%Z
    /\ Backend.output st'
       = Backend.output st
         ++ [match Http.stringify Generate.missing_prompt with
             | Some text => text
             | None => ""%string
             end]
    /\ get Generate.missing_prompt "success" = Ok (JBool false)
    /\ (exists m, get Generate.missing_prompt "error" = Ok (JStr m))
    /\ Http.ended (Backend.res (apiKeyManager.ext st')) = true
    /\ apiKeyManager.trace st' = apiKeyManager.trace st
    /\ apiKeyManager.invocations (apiKeyManager.trace st')
       = apiKeyManager.invocations (apiKeyManager.trace st)
    /\ Backend.attempts (apiKeyManager.ext st') = Backend.attempts (apiKeyManager.ext st)
    /\ apiKeyManager.currentApiKeyIndex st' = apiKeyManager.currentApiKeyIndex st.
Proof.
  intros pool fs sdk body prompt files st Hget Hfalsy. cbv zeta.
  unfold Generate.generate.
  assert (Hd : Chat.destructure body "prompt" "req.body" = Ok prompt)
    by (destruct body; try exact Hget; discriminate).
  rewrite Hd, Hfalsy. cbn [negb].
  repeat split. eexists. reflexivity.
Qed.

Lemma generate_requires_prompt_witness :
  Http.statusCode
    (Backend.res
       (apiKeyManager.ext
          (Generate.generate Sample.pool3 Sample.no_files Sample.steady
             (JObj [("images", JArr [])]) [] Backend.start))) = 400%Z
  /\ apiKeyManager.trace
       (Generate.generate Sample.pool3 Sample.no_files Sample.steady
          (JObj [("images", JArr [])]) [] Backend.start) = [].
Proof.
  destruct (generate_requires_prompt Sample.pool3 Sample.no_files Sample.steady
              (JObj [("images", JArr [])]) JUndefined [] Backend.start
              eq_refl eq_refl) as (Hs & _ & _ & _ & _ & Ht & _).
  split; [exact Hs | exact Ht].
Defined.

(* ===================================================================== *)
(** * Further properties *)
(* ===================================================================== *)

(** ** The rotator: range and period *)

Section RangeFacts.

Import apiKeyManager Shape.

Variable pool : list string.

Lemma next_index_keeps_range (i : index) :
  in_range pool i -> in_range pool (next_index pool i).
Proof.
  destruct i as [n|]; cbn [in_range]; [|tauto]. intros Hn.
  rewrite next_index_in_range by lia. cbn [in_range].
  apply Nat.mod_upper_bound. lia.
Qed.

Lemma advance_keeps_range (k : nat) : forall i,
  in_range pool i -> in_range pool (advance pool k i).
Proof.
  induction k as [|k IH]; intros i Hi; cbn [advance]; [exact Hi|].
  apply IH. now apply next_index_keeps_range.
Qed.

Lemma key_at_in_range (i : index) :
  in_range pool i -> exists key, key_at pool i = Some key /\ In key pool.
Proof.
  destruct i as [n|]; cbn [in_range key_at]; [|tauto]. intros Hn.
  destruct (nth_error pool n) as [key|] eqn:Hk.
  - exists key. split; [reflexivity|]. now apply nth_error_In with n.
  - apply nth_error_None in Hk. lia.
Qed.

Lemma advance_empty (k : nat) (i : index) :
  pool = [] -> advance pool (S k) i = NaN.
Proof.
  intros ->. revert i. induction k as [|k IH]; intros i.
  - destruct i; reflexivity.
  - change (advance [] (S (S k)) i) with (advance [] (S k) (next_index [] i)).
    apply IH.
Qed.

End RangeFacts.

(** X1. A cursor that points into the pool keeps doing so: after any
    number of calls of [switchToNextApiKey] it still points into the
    pool, the current key is a key of the pool, and as many calls as the
    pool has keys bring the cursor back to where it was. *)
Theorem cursor_stays_in_pool :
  forall (pool : list string) (E : Type) (st : apiKeyManager.State E) (k : nat),
    Shape.in_range pool (apiKeyManager.currentApiKeyIndex st) ->
    let st' := snd (apiKeyManager.switch_times pool k st) in
    Shape.in_range pool (apiKeyManager.currentApiKeyIndex st')
    /\ (exists key, apiKeyManager.getCurrentApiKey pool st' = Some key /\ In key pool)
    /\ apiKeyManager.currentApiKeyIndex
         (snd (apiKeyManager.switch_times pool (length pool) st))
       = apiKeyManager.currentApiKeyIndex st
    /\ apiKeyManager.currentApiKeyIndex
         (snd (apiKeyManager.switch_times pool (k + length pool) st))
       = apiKeyManager.currentApiKeyIndex st'.
Proof.
  intros pool E st k Hin. cbv zeta.
  rewrite !switch_times_cursor.
  assert (Hk : Shape.in_range pool
                 (apiKeyManager.advance pool k (apiKeyManager.currentApiKeyIndex st)))
    by now apply advance_keeps_range.
  split; [exact Hk|]. split.
  - unfold apiKeyManager.getCurrentApiKey. rewrite switch_times_cursor.
    now apply key_at_in_range.
  - destruct (apiKeyManager.currentApiKeyIndex st) as [i|]; [|contradiction].
    cbn [Shape.in_range] in Hin.
    rewrite !advance_in_range by lia. split; f_equal.
    + rewrite <- (Nat.mul_1_l (length pool)) at 1.
      rewrite Nat.Div0.mod_add. now apply Nat.mod_small.
    + rewrite Nat.add_assoc. rewrite <- (Nat.mul_1_l (length pool)) at 1.
      now rewrite Nat.Div0.mod_add.
Qed.

Lemma cursor_stays_in_pool_witness :
  apiKeyManager.currentApiKeyIndex
    (snd (apiKeyManager.switch_times Sample.pool3 3
            (apiKeyManager.mkState (apiKeyManager.Idx 1) [] tt)))
  = apiKeyManager.Idx 1.
Proof.
  exact (proj1 (proj2 (proj2
           (cursor_stays_in_pool Sample.pool3 unit
              (apiKeyManager.mkState (apiKeyManager.Idx 1) [] tt) 0
              ltac:(simpl; lia))))).
Defined.

(** X2. With an empty pool the first call of [switchToNextApiKey] turns
    the cursor into [NaN], no later call changes that, and every call
    returns [undefined], as [getCurrentApiKey] does from the start. *)
Theorem empty_pool_has_no_key :
  forall (E : Type) (st : apiKeyManager.State E) (k : nat),
    apiKeyManager.getCurrentApiKey [] st = None
    /\ apiKeyManager.currentApiKeyIndex (snd (apiKeyManager.switch_times [] (S k) st))
       = apiKeyManager.NaN
    /\ fst (apiKeyManager.switch_times [] k st) = repeat None k
    /\ apiKeyManager.getCurrentApiKey [] (snd (apiKeyManager.switch_times [] k st))
       = None.
Proof.
  intros E st k.
  assert (Hkey : forall i, apiKeyManager.key_at [] i = None).
  { intros [n|]; [|reflexivity]. destruct n; reflexivity. }
  split; [apply Hkey|]. split; [|split].
  - rewrite switch_times_cursor. now apply advance_empty.
  - revert st. induction k as [|k IH]; intros st; [reflexivity|].
    cbn [apiKeyManager.switch_times apiKeyManager.switchToNextApiKey].
    rewrite Hkey. specialize (IH (apiKeyManager.mkState
      (apiKeyManager.next_index [] (apiKeyManager.currentApiKeyIndex st))
      (apiKeyManager.trace st
       ++ [apiKeyManager.Switched
             (apiKeyManager.next_index [] (apiKeyManager.currentApiKeyIndex st))])
      (apiKeyManager.ext st))).
    destruct (apiKeyManager.switch_times [] k _) as [keys st2].
    cbn [fst] in *. now rewrite IH.
  - apply Hkey.
Qed.

(** ** The retry executor: what any run looks like *)

Section ShapeFacts.

Import apiKeyManager Shape.

Variable pool : list string.
Context {E A : Type}.
Variable fn : ApiCall (E := E) A.

Lemma invoked_keys_app (t u : list event) :
  invoked_keys (t ++ u) = invoked_keys t ++ invoked_keys u.
Proof.
  induction t as [|[key|i] t IH]; cbn [app invoked_keys]; [reflexivity| |exact IH].
  now rewrite IH.
Qed.

Lemma switches_app (t u : list event) :
  switches (t ++ u) = switches t + switches u.
Proof. unfold switches. now rewrite filter_app, length_app. Qed.

Lemma switches_retries (n : nat) : forall i, switches (retries pool i n) = n.
Proof.
  induction n as [|n IH]; intros i; [reflexivity|].
  cbn [retries]. change (switches (Switched ?a :: Invoked ?b :: ?t))
    with (S (switches t)). now rewrite IH.
Qed.

Lemma invoked_keys_retries (n : nat) : forall i,
  invoked_keys (retries pool i n)
  = map (fun j => key_at pool (advance pool j i)) (seq 1 n).
Proof.
  induction n as [|n IH]; intros i; [reflexivity|].
  cbn [retries invoked_keys seq map advance]. f_equal.
  rewrite IH, <- (seq_shift n 1), map_map. reflexivity.
Qed.

(** The loop either does not start, or records one invocation and then
    some retries, fewer than the attempts left; the cursor ends where
    the last retry put it. *)
Lemma retry_loop_shape (fuel : nat) :
  forall (maxRetries retryCount : Z) (st : State E) out st',
    retry_loop pool fuel fn maxRetries retryCount st = Some (out, st') ->
    ((maxRetries <= retryCount)%Z /\ st' = st /\ out = Throw allKeysLimited)
    \/ ((retryCount < maxRetries)%Z
        /\ exists n,
            (Z.of_nat n < maxRetries - retryCount)%Z
            /\ trace st'
               = trace st ++ Invoked (getCurrentApiKey pool st)
                             :: retries pool (currentApiKeyIndex st) n
            /\ currentApiKeyIndex st' = advance pool n (currentApiKeyIndex st)).
Proof.
  induction fuel as [|fuel IH]; intros maxRetries retryCount st out st' H;
    [discriminate|].
  cbn [retry_loop] in H.
  destruct (retryCount <? maxRetries)%Z eqn:Hlt.
  2:{ apply Z.ltb_ge in Hlt. injection H as <- <-. left. repeat split. exact Hlt. }
  apply Z.ltb_lt in Hlt. right. split; [exact Hlt|].
  destruct (fn _ _) as [[a|error] e1].
  - injection H as <- <-. exists 0%nat. repeat split. lia.
  - destruct (negb (is429Error error) || (retryCount >=? maxRetries - 1)%Z) eqn:Hstop.
    + injection H as <- <-. exists 0%nat. repeat split. lia.
    + apply orb_false_iff in Hstop as [_ Hge].
      rewrite Z.geb_leb in Hge. apply Z.leb_gt in Hge.
      cbn [switchToNextApiKey] in H.
      apply IH in H as [(Hle & _) | (_ & n & Hn & Ht & Hc)]; [lia|].
      cbn [trace currentApiKeyIndex] in Ht, Hc.
      unfold getCurrentApiKey in Ht. cbn [currentApiKeyIndex] in Ht.
      exists (S n). split; [lia|]. split; [|exact Hc].
      rewrite Ht. cbn [retries]. rewrite <- !app_assoc. reflexivity.
Qed.

End ShapeFacts.

(** X3. Whatever the wrapped call does, [executeWithRetry] with a budget
    [maxRetries >= 1] invokes it at least once and at most [maxRetries]
    times; the cursor moves once between two invocations and at no other
    time, each invocation after the first uses the key the cursor has
    just moved to, and the cursor is left on the key of the last
    invocation. *)
Theorem executeWithRetry_never_exceeds_budget :
  forall (pool : list string) (E A : Type) (fn : apiKeyManager.ApiCall (E := E) A)
         (maxRetries : Z) (st : apiKeyManager.State E),
    (1 <= maxRetries)%Z ->
    let st' := snd (apiKeyManager.executeWithRetry pool fn maxRetries st) in
    exists n added,
      apiKeyManager.trace st' = apiKeyManager.trace st ++ added
      /\ added = apiKeyManager.Invoked (apiKeyManager.getCurrentApiKey pool st)
                 :: apiKeyManager.retries pool (apiKeyManager.currentApiKeyIndex st) n
      /\ apiKeyManager.invocations added = S n
      /\ (Z.of_nat (S n) <= maxRetries)%Z
      /\ Shape.switches added = n
      /\ apiKeyManager.currentApiKeyIndex st'
         = apiKeyManager.advance pool n (apiKeyManager.currentApiKeyIndex st)
      /\ last (Shape.invoked_keys added) None
         = apiKeyManager.getCurrentApiKey pool st'.
Proof.
  intros pool E A fn maxRetries st Hmax. cbv zeta.
  pose proof (executeWithRetry_runs pool fn maxRetries st) as Hr.
  destruct (apiKeyManager.executeWithRetry pool fn maxRetries st) as [out st'].
  apply retry_loop_shape in Hr as [(Hle & _) | (_ & n & Hn & Ht & Hc)]; [lia|].
  cbn [snd]. exists n. eexists. split; [exact Ht|]. split; [reflexivity|].
  split; [|split; [lia|split; [|split; [exact Hc|]]]].
  - change (apiKeyManager.invocations (apiKeyManager.Invoked ?k :: ?t))
      with (S (apiKeyManager.invocations t)).
    now rewrite invocations_retries.
  - change (Shape.switches (apiKeyManager.Invoked ?k :: ?t))
      with (Shape.switches t).
    apply switches_retries.
  - cbn [Shape.invoked_keys]. rewrite invoked_keys_retries.
    unfold apiKeyManager.getCurrentApiKey. rewrite Hc.
    change (apiKeyManager.key_at pool (apiKeyManager.currentApiKeyIndex st)
            :: map (fun j => apiKeyManager.key_at pool
                               (apiKeyManager.advance pool j
                                  (apiKeyManager.currentApiKeyIndex st))) (seq 1 n))
      with (map (fun j => apiKeyManager.key_at pool
                            (apiKeyManager.advance pool j
                               (apiKeyManager.currentApiKeyIndex st))) (seq 0 (S n))).
    rewrite seq_S, map_app. cbn [map]. now rewrite last_last.
Qed.

Lemma executeWithRetry_never_exceeds_budget_witness :
  exists n added,
    apiKeyManager.trace
      (snd (apiKeyManager.executeWithRetry Sample.pool3
              (Sample.failing Sample.too_many) 2
              (apiKeyManager.mkState (apiKeyManager.Idx 0) [] 0%nat)))
    = [] ++ added
    /\ apiKeyManager.invocations added = S n
    /\ (Z.of_nat (S n) <= 2)%Z.
Proof.
  destruct (executeWithRetry_never_exceeds_budget Sample.pool3 nat unit
              (Sample.failing Sample.too_many) 2
              (apiKeyManager.mkState (apiKeyManager.Idx 0) [] 0%nat)
              ltac:(lia)) as (n & added & Ht & _ & Hi & Hb & _).
  exists n, added. split; [exact Ht|]. split; [exact Hi | exact Hb].
Defined.

Lemma executeWithRetry_stops_at_once (pool : list string) {E A : Type}
    (fn : apiKeyManager.ApiCall (E := E) A) (maxRetries : Z)
    (st : apiKeyManager.State E) :
  (maxRetries <= 0)%Z ->
  apiKeyManager.executeWithRetry pool fn maxRetries st
  = (Throw apiKeyManager.allKeysLimited, st).
Proof.
  intros Hm.
  pose proof (executeWithRetry_runs pool fn maxRetries st) as Hr.
  destruct (apiKeyManager.executeWithRetry pool fn maxRetries st) as [out st'].
  apply retry_loop_shape in Hr as [(_ & -> & ->) | (Hlt & _)]; [reflexivity|lia].
Qed.

(** X4. With a budget of zero or less (the default budget of an empty
    pool) the wrapped call is never invoked: [executeWithRetry] throws
    the error "all keys are rate-limited" and leaves the state as it
    was. *)
Theorem executeWithRetry_without_budget :
  forall (pool : list string) (E A : Type) (fn : apiKeyManager.ApiCall (E := E) A)
         (maxRetries : Z) (st : apiKeyManager.State E),
    (maxRetries <= 0)%Z ->
    apiKeyManager.executeWithRetry pool fn maxRetries st
    = (Throw apiKeyManager.allKeysLimited, st)
    /\ apiKeyManager.executeWithRetry_default (@nil string) fn st
       = (Throw apiKeyManager.allKeysLimited, st).
Proof.
  intros pool E A fn maxRetries st Hmax.
  split; [now apply executeWithRetry_stops_at_once|].
  apply executeWithRetry_stops_at_once. simpl. lia.
Qed.

Lemma executeWithRetry_without_budget_witness :
  apiKeyManager.executeWithRetry Sample.pool3 (Sample.failing Sample.bad_key) 0
    (apiKeyManager.mkState (apiKeyManager.Idx 0) [] 0%nat)
  = (Throw apiKeyManager.allKeysLimited,
     apiKeyManager.mkState (apiKeyManager.Idx 0) [] 0%nat).
Proof.
  exact (proj1 (executeWithRetry_without_budget Sample.pool3 nat unit
                  (Sample.failing Sample.bad_key) 0
                  (apiKeyManager.mkState (apiKeyManager.Idx 0) [] 0%nat)
                  ltac:(lia))).
Defined.

Section UsableKey.

Import apiKeyManager Shape.

Variable pool : list string.
Context {E A : Type}.
Variable fn : ApiCall (E := E) A.
Variable answer : option string -> Res A.
Variable maxRetries : Z.

Hypothesis by_key : forall model e, fst (fn model e) = answer model.

Lemma retry_loop_first_usable (k : nat) :
  forall (fuel : nat) (retryCount : Z) (st : State E),
    k < fuel ->
    (retryCount + Z.of_nat k < maxRetries)%Z ->
    (forall j, j < k ->
       exists error,
         answer (key_at pool (advance pool j (currentApiKeyIndex st))) = Throw error
         /\ is429Error error = true) ->
    settles (answer (key_at pool (advance pool k (currentApiKeyIndex st)))) ->
    exists st',
      retry_loop pool fuel fn maxRetries retryCount st
      = Some (answer (key_at pool (advance pool k (currentApiKeyIndex st))), st')
      /\ currentApiKeyIndex st' = advance pool k (currentApiKeyIndex st)
      /\ trace st' = trace st ++ Invoked (getCurrentApiKey pool st)
                                 :: retries pool (currentApiKeyIndex st) k.
Proof.
  induction k as [|k IH]; intros fuel retryCount st Hf Hbudget Hbefore Hhere;
    (destruct fuel as [|fuel]; [lia|]);
    pose proof (by_key (getCurrentApiKey pool st) (ext st)) as Hfst;
    destruct (fn (getCurrentApiKey pool st) (ext st)) as [r e1] eqn:Hfn;
    cbn [fst] in Hfst; subst r.
  - cbn [advance] in *. fold (getCurrentApiKey pool st) in *.
    destruct (answer (getCurrentApiKey pool st)) as [a|error] eqn:Ha.
    + eexists. split; [apply retry_loop_success; [lia|exact Hfn]|].
      split; reflexivity.
    + eexists. split; [apply retry_loop_fatal; [lia|exact Hfn|exact Hhere]|].
      split; reflexivity.
  - destruct (Hbefore 0%nat ltac:(lia)) as (error & Herr & Hc).
    cbn [advance] in Herr. fold (getCurrentApiKey pool st) in Herr.
    rewrite Herr in Hfn.
    rewrite (retry_loop_again pool fn fuel maxRetries retryCount st error e1)
      by (try assumption; lia).
    cbn [switchToNextApiKey snd].
    destruct (IH fuel (retryCount + 1)%Z
                (mkState (next_index pool (currentApiKeyIndex st))
                   ((trace st ++ [Invoked (getCurrentApiKey pool st)])
                    ++ [Switched (next_index pool (currentApiKeyIndex st))]) e1))
      as (st' & Hr & Hcur & Htr); [lia|lia| |exact Hhere|].
    + intros j Hj. cbn [currentApiKeyIndex].
      apply (Hbefore (S j)). lia.
    + cbn [currentApiKeyIndex trace] in *.
      exists st'. split; [exact Hr|]. split; [exact Hcur|].
      rewrite Htr. unfold getCurrentApiKey. cbn [currentApiKeyIndex retries].
      rewrite <- !app_assoc. reflexivity.
Qed.

End UsableKey.

(** X5. Suppose the outcome of the wrapped call depends only on the key
    of the model.  If the keys at the cursor and at the next [k - 1]
    positions are rate-limited, the key after them answers or fails
    otherwise, and [k] is below the budget, then [executeWithRetry]
    gives the outcome of that key after [k + 1] invocations and leaves
    the cursor on it. *)
Theorem executeWithRetry_first_usable_key :
  forall (pool : list string) (E A : Type) (fn : apiKeyManager.ApiCall (E := E) A)
         (answer : option string -> Res A) (maxRetries : Z)
         (st : apiKeyManager.State E) (k : nat),
    (forall model e, fst (fn model e) = answer model) ->
    (Z.of_nat k < maxRetries)%Z ->
    (forall j, j < k ->
       exists error,
         answer (apiKeyManager.key_at pool
                   (apiKeyManager.advance pool j (apiKeyManager.currentApiKeyIndex st)))
         = Throw error
         /\ apiKeyManager.is429Error error = true) ->
    match answer (apiKeyManager.key_at pool
                    (apiKeyManager.advance pool k (apiKeyManager.currentApiKeyIndex st)))
    with
    | Ok _ => True
    | Throw error => apiKeyManager.is429Error error = false
    end ->
    let out := apiKeyManager.executeWithRetry pool fn maxRetries st in
    fst out
    = answer (apiKeyManager.key_at pool
                (apiKeyManager.advance pool k (apiKeyManager.currentApiKeyIndex st)))
    /\ apiKeyManager.currentApiKeyIndex (snd out)
       = apiKeyManager.advance pool k (apiKeyManager.currentApiKeyIndex st)
    /\ apiKeyManager.invocations (apiKeyManager.trace (snd out))
       = apiKeyManager.invocations (apiKeyManager.trace st) + S k
    /\ Shape.switches (apiKeyManager.trace (snd out))
       = Shape.switches (apiKeyManager.trace st) + k.
Proof.
  intros pool E A fn answer maxRetries st k Hkey Hk Hbefore Hhere. cbv zeta.
  pose proof (executeWithRetry_runs pool fn maxRetries st) as Hr.
  destruct (retry_loop_first_usable pool fn answer maxRetries Hkey k
              (apiKeyManager.enough maxRetries) 0%Z st)
    as (st' & Hloop & Hcur & Htr);
    [unfold apiKeyManager.enough; lia | lia | assumption | assumption |].
  rewrite Hloop in Hr. injection Hr as <-. cbn [fst snd].
  split; [reflexivity|]. split; [exact Hcur|].
  rewrite Htr, invocations_app, switches_app.
  change (apiKeyManager.invocations (apiKeyManager.Invoked ?x :: ?t))
    with (S (apiKeyManager.invocations t)).
  change (Shape.switches (apiKeyManager.Invoked ?x :: ?t))
    with (Shape.switches t).
  rewrite invocations_retries, switches_retries. split; reflexivity.
Qed.

Lemma executeWithRetry_first_usable_key_witness :
  fst (apiKeyManager.executeWithRetry Sample.pool3 (Cases.counting "done"%string) 3
         (apiKeyManager.mkState (apiKeyManager.Idx 0) [] 0%nat))
  = Ok "done"%string.
Proof.
  refine (proj1 (executeWithRetry_first_usable_key Sample.pool3 nat string
            (Cases.counting "done"%string) (Cases.third_key "done"%string)
            3 (apiKeyManager.mkState (apiKeyManager.Idx 0) [] 0%nat) 2
            (fun _ _ => eq_refl) ltac:(lia) _ I)).
  intros j Hj. exists Sample.too_many.
  destruct j as [|[|j]]; [split; reflexivity | split; reflexivity | lia].
Defined.

Section RotationFacts.

Import apiKeyManager Shape.

Variable pool : list string.

Lemma keys_in_rotation (i : nat) :
  i < length pool ->
  map (fun j => key_at pool (advance pool j (Idx i))) (seq 0 (length pool))
  = map Some (rotation pool i).
Proof.
  intros Hi. apply nth_error_ext. intros n.
  rewrite !nth_error_map, nth_error_seq. unfold rotation.
  destruct (Nat.ltb_spec n (length pool)) as [Hn|Hn]; cbn [option_map].
  - rewrite advance_in_range by lia. cbn [key_at plus].
    destruct (Nat.lt_ge_cases n (length pool - i)) as [Hlow|Hhigh].
    + rewrite nth_error_app1 by (rewrite length_skipn; lia).
      rewrite nth_error_skipn, Nat.mod_small by lia.
      destruct (nth_error pool (i + n)) eqn:Hk; [reflexivity|].
      apply nth_error_None in Hk. lia.
    + rewrite nth_error_app2 by (rewrite length_skipn; lia).
      rewrite length_skipn, nth_error_firstn.
      destruct (Nat.ltb_spec (n - (length pool - i)) i); [|lia].
      replace ((i + n) mod length pool) with (n - (length pool - i)).
      * destruct (nth_error pool _) eqn:Hk; [reflexivity|].
        apply nth_error_None in Hk. lia.
      * apply Nat.mod_unique with 1; lia.
  - replace (nth_error (skipn i pool ++ firstn i pool) n) with (@None string);
      [reflexivity|].
    symmetry. apply nth_error_None.
    rewrite length_app, length_skipn, length_firstn. lia.
Qed.

End RotationFacts.

(** X6. Under the default budget, starting from a cursor that points
    into the pool, a call that is rate-limited every time is tried with
    every key of the pool exactly once: the keys used are the pool read
    from the cursor on and round to it again, and the cursor is left on
    the key just before the one it started from. *)
Theorem executeWithRetry_tries_every_key_once :
  forall (pool : list string) (E A : Type) (fn : apiKeyManager.ApiCall (E := E) A)
         (st : apiKeyManager.State E) (i : nat),
    apiKeyManager.currentApiKeyIndex st = apiKeyManager.Idx i ->
    i < length pool ->
    (forall model e, exists error e',
        fn model e = (Throw error, e') /\ apiKeyManager.is429Error error = true) ->
    let st' := snd (apiKeyManager.executeWithRetry_default pool fn st) in
    exists added,
      apiKeyManager.trace st' = apiKeyManager.trace st ++ added
      /\ Shape.invoked_keys added = map Some (Shape.rotation pool i)
      /\ apiKeyManager.currentApiKeyIndex st'
         = apiKeyManager.Idx ((i + (length pool - 1)) mod length pool).
Proof.
  intros pool E A fn st i Hcur Hi Hall. cbv zeta.
  unfold apiKeyManager.executeWithRetry_default.
  pose proof (executeWithRetry_runs pool fn (Z.of_nat (length pool)) st) as Hr.
  destruct (retry_loop_always_limited pool fn Hall (length pool - 1)
              (apiKeyManager.enough (Z.of_nat (length pool)))
              (Z.of_nat (length pool)) 0%Z st)
    as (error & e_last & st' & Hloop & Ht & Hc & _).
  - lia.
  - unfold apiKeyManager.enough. lia.
  - rewrite Hloop in Hr. injection Hr as <-. cbn [snd].
    eexists. split; [exact Ht|]. split.
    + cbn [Shape.invoked_keys]. rewrite invoked_keys_retries.
      unfold apiKeyManager.getCurrentApiKey. rewrite Hcur.
      rewrite <- keys_in_rotation by assumption.
      replace (length pool) with (S (length pool - 1)) at 2 by lia.
      reflexivity.
    + rewrite Hc, Hcur. apply advance_in_range; lia.
Qed.

Lemma executeWithRetry_tries_every_key_once_witness :
  exists added,
    apiKeyManager.trace
      (snd (apiKeyManager.executeWithRetry_default Sample.pool3
              (Sample.failing Sample.too_many)
              (apiKeyManager.mkState (apiKeyManager.Idx 1) [] 0%nat)))
    = [] ++ added
    /\ Shape.invoked_keys added = [Some "key-b"; Some "key-c"; Some "key-a"]%string.
Proof.
  destruct (executeWithRetry_tries_every_key_once Sample.pool3 nat unit
              (Sample.failing Sample.too_many)
              (apiKeyManager.mkState (apiKeyManager.Idx 1) [] 0%nat) 1
              eq_refl ltac:(simpl; lia)) as (added & Ht & Hk & _).
  - intros model e. exists Sample.too_many, (S e). split; reflexivity.
  - exists added. split; [exact Ht | exact Hk].
Defined.

(** ** Content normalisation: what each kind of item becomes *)

(** X7. The expression [/^data:([^;]+);base64,(.+)$/] matches a URL
    exactly when the URL is [data:<mime>;base64,<payload>] with a
    declared type that is not empty and has no [;] and a payload that is
    not empty and has no line terminator; the two groups are then that
    type and that payload, and no others. *)
Theorem match_data_uri_exact :
  forall (url mime payload : string),
    Content.match_data_uri url = Some (mime, payload)
    <-> (url = Content.data_uri mime payload
         /\ mime <> ""%string
         /\ includes mime ";" = false
         /\ payload <> ""%string
         /\ Content.has_line_terminator payload = false).
Proof.
  intros url mime payload. split.
  - intros H. apply match_data_uri_only in H as (Hu & Hm & Hs & Hp & Hl).
    repeat split; try assumption. now apply includes_head_absent.
  - intros (-> & Hm & Hs & Hp & Hl). now apply match_data_uri_accepts.
Qed.

Section ItemFacts.

Import Content.

Variable fs : Files.

Lemma map_res_first_failure {A B} (f : A -> Res B) (before : list A) (bad : A)
    (after : list A) (e : JsError) :
  Forall (fun x => exists y, f x = Ok y) before ->
  f bad = Throw e ->
  map_res f (before ++ bad :: after) = Throw e.
Proof.
  intros Hbefore Hbad. induction Hbefore as [|x before [y Hy] _ IH];
    cbn [app map_res].
  - now rewrite Hbad.
  - now rewrite Hy, IH.
Qed.

Lemma uploads_is_not_data (u : string) :
  startsWith u "/uploads/" = true -> startsWith u "data:" = false.
Proof.
  destruct u as [|c u]; [discriminate|]. cbn [startsWith].
  intros H. apply andb_true_iff in H as [Hc _].
  apply Ascii.eqb_eq in Hc. subst c. reflexivity.
Qed.

End ItemFacts.

(** X8. A list content gives one part for each item, in the order of the
    items, each being what the item alone gives; when an item throws,
    the first such error is the outcome of the whole normalisation. A
    string content gives the single text part holding it. *)
Theorem processMessageContent_part_per_item :
  forall (fs : Content.Files) (items : list value),
    (forall parts,
        Content.processMessageContent fs (JArr items) = Ok parts ->
        length parts = length items
        /\ Forall2 (fun item part => Content.process_item fs item = Ok part)
             items parts)
    /\ (forall before bad after e,
          items = before ++ bad :: after ->
          Forall (fun item => exists part, Content.process_item fs item = Ok part)
            before ->
          Content.process_item fs bad = Throw e ->
          Content.processMessageContent fs (JArr items) = Throw e)
    /\ (forall text,
          Content.processMessageContent fs (JStr text)
          = Ok [Content.PText (JStr text)]).
Proof.
  intros fs items. split; [|split].
  - intros parts H. cbn [Content.processMessageContent] in H.
    apply map_res_pointwise in H. split; [|exact H].
    symmetry. now apply Forall2_length in H.
  - intros before bad after e -> Hbefore Hbad.
    cbn [Content.processMessageContent]. now apply map_res_first_failure.
  - reflexivity.
Qed.

(** X9. An item that is not [null] or [undefined] and whose [type] is
    not ['image_url'] never makes normalisation fail and never touches
    the file system: tagged ['text'] it gives the text part holding its
    [text] property, whatever that is; otherwise it gives the
    "unsupported" text part.  An item that is [null] throws a
    [TypeError]. *)
Theorem process_item_degrades :
  forall (fs : Content.Files) (item ty : value),
    get item "type" = Ok ty ->
    is_str ty "image_url" = false ->
    (is_str ty "text" = true ->
       exists text, get item "text" = Ok text
                    /\ Content.process_item fs item = Ok (Content.PText text))
    /\ (is_str ty "text" = false ->
          Content.process_item fs item = Ok Content.unsupported)
    /\ (exists e, Content.process_item fs JNull = Throw e /\ name e = "TypeError"%string).
Proof.
  intros fs item ty Hty Himg. unfold Content.process_item.
  rewrite Hty. cbn [Js.bind]. rewrite Himg. split; [|split].
  - intros Htext. rewrite Htext.
    destruct item; try discriminate; cbn [get Js.bind];
      try (eexists; split; reflexivity).
    destruct (lookup "text" fields); eexists; split; reflexivity.
  - intros Htext. now rewrite Htext.
  - eexists. split; reflexivity.
Qed.

Lemma process_item_degrades_witness :
  Content.process_item Sample.no_files
    (JObj [("type", JStr "audio"); ("audio", JStr "...")])
  = Ok Content.unsupported.
Proof.
  exact (proj1 (proj2 (process_item_degrades Sample.no_files
                  (JObj [("type", JStr "audio"); ("audio", JStr "...")])
                  (JStr "audio") eq_refl eq_refl)) eq_refl).
Defined.

(** X10. An image item whose URL starts neither with [data:] nor with
    [/uploads/] (a remote address, say) is not fetched: it gives the
    "unsupported" text part, whatever the file system holds. *)
Theorem process_item_remote_url :
  forall (fs : Content.Files) (item image_url : value) (u : string),
    get item "type" = Ok (JStr "image_url") ->
    get item "image_url" = Ok image_url ->
    get image_url "url" = Ok (JStr u) ->
    startsWith u "data:" = false ->
    startsWith u "/uploads/" = false ->
    Content.process_item fs item = Ok Content.unsupported
    /\ Content.processMessageContent fs (JArr [item]) = Ok [Content.unsupported].
Proof.
  intros fs item image_url u Hty Hiu Hurl Hdata Hup.
  assert (H : Content.process_item fs item = Ok Content.unsupported).
  { unfold Content.process_item. rewrite Hty. cbn [Js.bind is_str].
    simpl String.eqb. rewrite Hiu. cbn [Js.bind]. rewrite Hurl.
    cbn [Js.bind Content.url_string]. now rewrite Hdata, Hup. }
  split; [exact H|]. cbn [Content.processMessageContent Content.map_res].
  now rewrite H.
Qed.

Lemma process_item_remote_url_witness :
  Content.process_item Sample.no_files
    (Content.image_item "https://example.com/cat.png")
  = Ok Content.unsupported.
Proof.
  exact (proj1 (process_item_remote_url Sample.no_files
                  (Content.image_item "https://example.com/cat.png")
                  (JObj [("url", JStr "https://example.com/cat.png")])
                  "https://example.com/cat.png"
                  eq_refl eq_refl eq_refl eq_refl eq_refl)).
Defined.

(** X11. An image item whose URL starts with [/uploads/] makes the
    server read the file at [path.join(rootDir, url)], whatever follows
    the prefix in the URL.  If the read succeeds the item gives the
    inline-data part with the file's Base64 text and the type found for
    the path, ['image/jpeg'] when none is found; if the read throws, the
    item throws that error. *)
Theorem process_item_upload_reference :
  forall (fs : Content.Files) (item image_url : value) (u : string),
    get item "type" = Ok (JStr "image_url") ->
    get item "image_url" = Ok image_url ->
    get image_url "url" = Ok (JStr u) ->
    startsWith u "/uploads/" = true ->
    let filePath := Content.path_join fs (Content.rootDir fs) u in
    (forall data,
        Content.readFileBase64 fs filePath = Ok data ->
        Content.process_item fs item
        = Ok (Content.PInlineData (JStr data)
                (JStr (Content.or_jpeg (Content.mime_lookup fs filePath)))))
    /\ (forall e,
          Content.readFileBase64 fs filePath = Throw e ->
          Content.process_item fs item = Throw e)
    /\ (Content.mime_lookup fs filePath = None ->
        Content.or_jpeg (Content.mime_lookup fs filePath) = "image/jpeg"%string).
Proof.
  intros fs item image_url u Hty Hiu Hurl Hup. cbv zeta.
  assert (H : Content.process_item fs item
              = Content.fileToGenerativePart fs
                  (Content.path_join fs (Content.rootDir fs) u)
                  (Content.or_jpeg
                     (Content.mime_lookup fs
                        (Content.path_join fs (Content.rootDir fs) u)))).
  { unfold Content.process_item. rewrite Hty. cbn [Js.bind is_str].
    simpl String.eqb. rewrite Hiu. cbn [Js.bind]. rewrite Hurl.
    cbn [Js.bind Content.url_string].
    now rewrite (uploads_is_not_data u Hup), Hup. }
  split; [|split].
  - intros data Hread. rewrite H. unfold Content.fileToGenerativePart.
    now rewrite Hread.
  - intros e Hread. rewrite H. unfold Content.fileToGenerativePart.
    now rewrite Hread.
  - intros ->. reflexivity.
Qed.

Lemma process_item_upload_reference_witness :
  Content.process_item Sample.no_files
    (Content.image_item "/uploads/1700000000123-cat.png")
  = Throw (mkError "Error"
             (Some "ENOENT: no such file or directory, open '/srv/uploads/1700000000123-cat.png'")).
Proof.
  exact (proj1 (proj2 (process_item_upload_reference Sample.no_files
                  (Content.image_item "/uploads/1700000000123-cat.png")
                  (JObj [("url", JStr "/uploads/1700000000123-cat.png")])
                  "/uploads/1700000000123-cat.png" eq_refl eq_refl eq_refl eq_refl))
           _ eq_refl).
Defined.

(** ** The request before the backend is called *)

Section PrepareFacts.

Import Content Backend Chat.

Variable fs : Files.

Lemma item_at_last (front : list value) (last : value) :
  item_at (front ++ [last]) (Z.of_nat (length (front ++ [last])) - 1) = last.
Proof.
  unfold item_at. rewrite length_app. cbn [length].
  destruct (Z.ltb_spec (Z.of_nat (length front + 1) - 1) 0) as [H|H]; [lia|].
  replace (Z.to_nat (Z.of_nat (length front + 1) - 1)) with (length front) by lia.
  now rewrite nth_middle.
Qed.

Lemma prepare_snoc (req : Request) (front : list value) (last : value) :
  messages req = front ++ [last] ->
  prepare fs req
  = (history <- map_res (translate_message fs) front ;;
     content <- get last "content" ;;
     lastMessageParts <- processMessageContent fs content ;;
     Ok (mkCall (chat_config req) history lastMessageParts)).
Proof.
  intros Hm. unfold prepare. rewrite Hm, translate_history_map, removelast_last.
  now rewrite item_at_last.
Qed.

End PrepareFacts.

(** X12. The role of a translated turn is ["model"] when the role of the
    message is ['assistant'] and ["user"] for anything else, a role that
    is unknown or absent included; and a message that is not a system
    message and has a string for content keeps that string as its one
    text part. *)
Theorem translate_message_roles :
  forall (fs : Content.Files) (message : value) (turn : Backend.Turn),
    Chat.translate_message fs message = Ok turn ->
    exists role content,
      get message "role" = Ok role
      /\ get message "content" = Ok content
      /\ Backend.role turn = (if is_str role "assistant" then "model" else "user")%string
      /\ (is_str role "system" = false ->
          forall text, content = JStr text ->
                       Backend.parts turn = [Content.PText (JStr text)]).
Proof.
  intros fs message turn H. unfold Chat.translate_message in H.
  assert (Hd : Chat.destructure message "role" "message" = get message "role"
               \/ exists e, Chat.destructure message "role" "message" = Throw e).
  { destruct message; cbn [Chat.destructure]; eauto. }
  destruct Hd as [Hd | [e Hd]]; rewrite Hd in H; [|discriminate].
  destruct (get message "role") as [role|e]; [|discriminate].
  destruct (get message "content") as [content|e]; [|discriminate].
  cbn [Js.bind] in H. exists role, content. split; [reflexivity|].
  split; [reflexivity|].
  destruct (is_str role "system") eqn:Hsys.
  - destruct (ToString content); [|discriminate]. cbn [Js.bind] in H.
    injection H as <-. split; [reflexivity|discriminate].
  - split.
    + destruct content; cbn [Js.bind] in H;
        try (injection H as <-; reflexivity);
        destruct (Content.processMessageContent fs _); try discriminate;
        cbn [Js.bind] in H; injection H as <-; reflexivity.
    + intros _ text ->. cbn [Js.bind] in H. injection H as <-. reflexivity.
Qed.

Lemma translate_message_roles_witness :
  exists role content,
    get (Sample.msg "tool" (JStr "42")) "role" = Ok role
    /\ get (Sample.msg "tool" (JStr "42")) "content" = Ok content
    /\ Backend.role (Backend.mkTurn "user" [Content.PText (JStr "42")])
       = (if is_str role "assistant" then "model" else "user")%string.
Proof.
  destruct (translate_message_roles Sample.no_files (Sample.msg "tool" (JStr "42"))
              (Backend.mkTurn "user" [Content.PText (JStr "42")]) eq_refl)
    as (role & content & Hr & Hc & Hrole & _).
  exists role, content. split; [exact Hr|]. split; [exact Hc | exact Hrole].
Defined.

(** X13. The last message is the input of the call and nothing else: its
    content is normalised as it stands, and its role is not looked at,
    so a final system message gets no ["[SYSTEM]: "] prefix.  Two
    requests that differ only in the last message, with the same content
    there, prepare the same call; and a request of one message prepares
    a call with an empty history. *)
Theorem prepare_ignores_last_role :
  forall (fs : Content.Files) (req req' : Chat.Request)
         (front : list value) (last last' : value),
    Chat.messages req = front ++ [last] ->
    Chat.messages req' = front ++ [last'] ->
    Chat.chat_config req = Chat.chat_config req' ->
    get last "content" = get last' "content" ->
    Chat.prepare fs req = Chat.prepare fs req'
    /\ (forall call,
          Chat.prepare fs req = Ok call ->
          exists content,
            get last "content" = Ok content
            /\ Content.processMessageContent fs content = Ok (Backend.input call)
            /\ Content.map_res (Chat.translate_message fs) front
               = Ok (Backend.history call))
    /\ (front = [] ->
        forall call, Chat.prepare fs req = Ok call -> Backend.history call = []).
Proof.
  intros fs req req' front last last' Hm Hm' Hcfg Hcontent.
  rewrite (prepare_snoc fs req front last Hm).
  rewrite (prepare_snoc fs req' front last' Hm'), Hcfg, Hcontent.
  split; [reflexivity|].
  assert (Hparts : forall call,
            (history <- Content.map_res (Chat.translate_message fs) front ;;
             content <- get last' "content" ;;
             lastMessageParts <- Content.processMessageContent fs content ;;
             Ok (Backend.mkCall (Chat.chat_config req') history lastMessageParts))
            = Ok call ->
            exists content,
              get last' "content" = Ok content
              /\ Content.processMessageContent fs content = Ok (Backend.input call)
              /\ Content.map_res (Chat.translate_message fs) front
                 = Ok (Backend.history call)).
  { intros call H.
    destruct (Content.map_res (Chat.translate_message fs) front) as [history|e];
      [|discriminate].
    destruct (get last' "content") as [content|e]; [|discriminate].
    cbn [Js.bind] in H.
    destruct (Content.processMessageContent fs content) as [parts|e] eqn:Hp;
      [|discriminate].
    cbn [Js.bind] in H. injection H as <-. exists content. now rewrite Hp. }
  split; [exact Hparts|].
  intros -> call H. destruct (Hparts call H) as (_ & _ & _ & Hh).
  cbn [Content.map_res] in Hh. now injection Hh as <-.
Qed.

Lemma prepare_ignores_last_role_witness :
  Chat.prepare Sample.no_files
    (Chat.mkRequest [Sample.msg "system" (JStr "Be brief.")] JUndefined JUndefined JNull)
  = Chat.prepare Sample.no_files
      (Chat.mkRequest [Sample.msg "user" (JStr "Be brief.")] JUndefined JUndefined JNull)
  /\ Chat.prepare Sample.no_files
       (Chat.mkRequest [Sample.msg "system" (JStr "Be brief.")]
          JUndefined JUndefined JNull)
     = Ok (Backend.mkCall
             (Backend.mkConfig (JNum (NOther "0.1")) (JNum (NInt 500)))
             [] [Content.PText (JStr "Be brief.")]).
Proof.
  split.
  - exact (proj1 (prepare_ignores_last_role Sample.no_files
                    (Chat.mkRequest [Sample.msg "system" (JStr "Be brief.")]
                       JUndefined JUndefined JNull)
                    (Chat.mkRequest [Sample.msg "user" (JStr "Be brief.")]
                       JUndefined JUndefined JNull)
                    [] (Sample.msg "system" (JStr "Be brief."))
                    (Sample.msg "user" (JStr "Be brief."))
                    eq_refl eq_refl eq_refl eq_refl)).
  - reflexivity.
Defined.

(** X14. When the request cannot be prepared (a message is [null], a
    part refers to a file that cannot be read, ...) the handler answers
    with status 500 and one JSON body carrying the message of the error;
    the backend is not called and the cursor keeps its place.  A request
    with an empty list of messages is such a request: reading the
    content of its last message throws a [TypeError]. *)
Theorem chat_completions_rejects_unprepared :
  forall (pool : list string) (fs : Content.Files) (sdk : Backend.Sdk)
         (clock : nat -> Z) (req : Chat.Request)
         (st : apiKeyManager.State Backend.Conn),
    (forall e,
        Chat.prepare fs req = Throw e ->
        let st' := Chat.chat_completions pool fs sdk clock req st in
        Http.statusCode (Backend.res (apiKeyManager.ext st')) = 500%Z
        /\ Backend.output st'
           = Backend.output st
             ++ [match Http.stringify (Chat.errorEvent e "internal_server_error") with
                 | Some text => text
                 | None => ""%string
                 end]
        /\ get (Chat.errorEvent e "internal_server_error") "error"
           = Ok (JObj [("message", Backend.message_value e);
                       ("type", JStr "internal_server_error")])
        /\ Http.ended (Backend.res (apiKeyManager.ext st')) = true
        /\ apiKeyManager.trace st' = apiKeyManager.trace st
        /\ Backend.attempts (apiKeyManager.ext st')
           = Backend.attempts (apiKeyManager.ext st)
        /\ apiKeyManager.currentApiKeyIndex st' = apiKeyManager.currentApiKeyIndex st)
    /\ (Chat.messages req = [] ->
        exists e, Chat.prepare fs req = Throw e /\ name e = "TypeError"%string)
    /\ (forall front back,
          Chat.messages req = front ++ JNull :: back ->
          back <> [] ->
          Forall (fun m => exists turn, Chat.translate_message fs m = Ok turn) front ->
          exists e, Chat.prepare fs req = Throw e /\ name e = "TypeError"%string).
Proof.
  intros pool fs sdk clock req st. split; [|split].
  - intros e He. cbv zeta. unfold Chat.chat_completions. rewrite He.
    repeat split.
  - intros Hm. unfold Chat.prepare. rewrite Hm. eexists. split; reflexivity.
  - intros front back Hm Hback Hfront. unfold Chat.prepare.
    rewrite Hm, translate_history_map, removelast_app by discriminate.
    destruct back as [|b back]; [congruence|].
    change (removelast (JNull :: b :: back)) with (JNull :: removelast (b :: back)).
    rewrite (map_res_first_failure (Chat.translate_message fs) front JNull
               (removelast (b :: back))
               (TypeError "Cannot destructure property 'role' of 'message' as it is null."))
      by (try assumption; reflexivity).
    eexists. split; reflexivity.
Qed.

(** ** Frames of the event stream *)

Section FrameFacts.

Import Content Http Backend Chat Shape.

Lemma all_chars_append ok (a b : string) :
  all_chars ok (a ++ b) = all_chars ok a && all_chars ok b.
Proof.
  induction a as [|c a IH]; cbn [append all_chars]; [reflexivity|].
  now rewrite IH, andb_assoc.
Qed.

Lemma escape_char_printable (c : ascii) :
  all_chars printable (escape_char c) = true.
Proof. destruct c as [[] [] [] [] [] [] [] []]; reflexivity. Qed.

Lemma escape_printable (s : string) : all_chars printable (escape s) = true.
Proof.
  induction s as [|c s IH]; cbn [escape]; [reflexivity|].
  now rewrite all_chars_append, escape_char_printable, IH.
Qed.

Lemma quote_printable (s : string) : all_chars printable (quote s) = true.
Proof.
  unfold quote. now rewrite !all_chars_append, escape_printable.
Qed.

Lemma uint_printable (d : Decimal.uint) :
  all_chars printable (NilEmpty.string_of_uint d) = true.
Proof. induction d; cbn [NilEmpty.string_of_uint all_chars]; auto. Qed.

Lemma decimal_printable (z : Z) : all_chars printable (decimal z) = true.
Proof.
  unfold decimal, NilZero.string_of_int.
  destruct (Z.to_int z) as [d|d]; unfold NilZero.string_of_uint;
    destruct d; cbn [all_chars]; try reflexivity;
    cbn [NilEmpty.string_of_uint all_chars]; apply uint_printable.
Qed.

Lemma framed_sse (event : value) (line : string) :
  stringify event = Some line ->
  all_chars printable line = true ->
  framed (sse event).
Proof.
  intros Hs Hp. exists line. unfold sse. now rewrite Hs.
Qed.

Lemma framed_chunk (id : string) (created : Z) (delta finish_reason : value)
    (d f : string) :
  stringify delta = Some d -> all_chars printable d = true ->
  stringify finish_reason = Some f -> all_chars printable f = true ->
  framed (sse (chunk id created delta finish_reason)).
Proof.
  intros Hd Hdp Hf Hfp.
  eapply framed_sse.
  - unfold chunk. cbn [stringify stringify_number]. rewrite Hd, Hf.
    cbn [join]. reflexivity.
  - rewrite !all_chars_append, !quote_printable, decimal_printable, Hdp, Hfp.
    reflexivity.
Qed.

Lemma framed_start (id : string) (created : Z) : framed (sse (startEvent id created)).
Proof.
  unfold startEvent. eapply framed_chunk; reflexivity.
Qed.

Lemma framed_finish (id : string) (created : Z) : framed (sse (finishEvent id created)).
Proof.
  unfold finishEvent. eapply framed_chunk; reflexivity.
Qed.

Lemma framed_delta (id : string) (created : Z) (text : string) :
  framed (sse (chunkEvent id created text)).
Proof.
  unfold chunkEvent. eapply framed_chunk; try reflexivity.
  cbn [join]. now rewrite !all_chars_append, !quote_printable.
Qed.

Lemma framed_error (error : JsError) (type : string) :
  framed (sse (errorEvent error type)).
Proof.
  unfold errorEvent, message_value.
  destruct (message error) as [m|]; eapply framed_sse;
    try (cbn [stringify join]; reflexivity);
    cbn [join]; now rewrite !all_chars_append, !quote_printable.
Qed.

Lemma framed_done : framed done_frame.
Proof. exists "[DONE]"%string. split; reflexivity. Qed.

Lemma framed_deltas (id : string) (created : Z) (texts : list string) :
  Forall framed (deltas id created texts).
Proof.
  unfold deltas. apply Forall_forall. intros frame Hin.
  apply in_map_iff in Hin as (t & <- & _). apply framed_delta.
Qed.

End FrameFacts.

(** ** The streaming branch, whatever the backend does *)

Section StreamingAlways.

Import apiKeyManager Content Http Backend Chat Shape.

Variables (pool : list string) (sdk : Sdk) (call : ChatCall).
Variables (id : string) (created : Z).

(** The loop writes well-formed frames only, and leaves the status and
    the headers alone; it ends the response exactly when it returns. *)
Lemma stream_loop_closes (fuel : nat) :
  forall (maxRetries retryCount : Z) (st : State Conn) out st',
    retry_loop pool fuel (stream_call sdk call id created) maxRetries retryCount st
    = Some (out, st') ->
    exists tail,
      output st' = output st ++ tail
      /\ Forall framed tail
      /\ statusCode (res (ext st')) = statusCode (res (ext st))
      /\ headers (res (ext st')) = headers (res (ext st))
      /\ match out with
         | Ok _ =>
             ended (res (ext st')) = true
             /\ exists body,
                 tail = body ++ [sse (finishEvent id created); done_frame]
         | Throw _ => ended (res (ext st')) = ended (res (ext st))
         end.
Proof.
  induction fuel as [|fuel IH]; intros maxRetries retryCount st out st' H;
    [discriminate|].
  cbn [retry_loop] in H.
  destruct (retryCount <? maxRetries)%Z.
  2:{ injection H as <- <-. exists []. rewrite app_nil_r. repeat split. constructor. }
  rewrite stream_call_run in H. cbv zeta in H.
  destruct (failure _) as [error|].
  - destruct (negb (is429Error error) || _).
    + injection H as <- <-. eexists. unfold output. cbn [ext res].
      rewrite write_all_unfold. cbn [written statusCode headers ended].
      split; [reflexivity|]. split; [apply framed_deltas|]. repeat split.
    + cbn [switchToNextApiKey] in H.
      apply IH in H as (tail & Ho & Hf & Hs & Hh & Hout).
      unfold output in *. cbn [ext res] in Ho, Hs, Hh, Hout.
      rewrite write_all_unfold in Ho, Hs, Hh, Hout.
      cbn [written statusCode headers ended] in Ho, Hs, Hh, Hout.
      eexists. split; [rewrite Ho, <- app_assoc; reflexivity|].
      split; [apply Forall_app; split; [apply framed_deltas | exact Hf]|].
      split; [exact Hs|]. split; [exact Hh|].
      destruct out as [u|e]; [|exact Hout].
      destruct Hout as (He & body & ->). split; [exact He|].
      eexists. now rewrite app_assoc.
  - injection H as <- <-. eexists. unfold output. cbn [ext res end_].
    rewrite write_all_unfold. cbn [written statusCode headers ended].
    split; [reflexivity|].
    split; [apply Forall_app; split;
            [apply framed_deltas
            | repeat constructor; [apply framed_finish | apply framed_done]]|].
    repeat split. eexists. reflexivity.
Qed.

End StreamingAlways.

(** X15. A request that asks for a stream and can be prepared always
    gets a stream that is opened and closed: whatever the backend and
    the pool, the handler first writes the role chunk, writes
    [data: [DONE]] last, and ends the response; it never changes the
    status, it sets the three headers of an event stream, and every
    frame it writes is [data: ], one line without a line break, and an
    empty line. *)
Theorem streaming_always_closes :
  forall (pool : list string) (fs : Content.Files) (sdk : Backend.Sdk)
         (clock : nat -> Z) (req : Chat.Request) (call : Backend.ChatCall)
         (st : apiKeyManager.State Backend.Conn),
    Chat.prepare fs req = Ok call ->
    truthy (Chat.stream req) = true ->
    let st' := Chat.chat_completions pool fs sdk clock req st in
    exists middle,
      Backend.output st'
      = Backend.output st
        ++ Http.sse (Chat.startEvent (Chat.responseId clock) (Chat.created_at clock))
           :: middle ++ [Http.done_frame]
      /\ Forall Shape.framed
           (Http.sse (Chat.startEvent (Chat.responseId clock) (Chat.created_at clock))
            :: middle ++ [Http.done_frame])
      /\ Http.ended (Backend.res (apiKeyManager.ext st')) = true
      /\ Http.statusCode (Backend.res (apiKeyManager.ext st'))
         = Http.statusCode (Backend.res (apiKeyManager.ext st))
      /\ Http.headers (Backend.res (apiKeyManager.ext st'))
         = Http.headers (Backend.res (apiKeyManager.ext st))
           ++ [("Content-Type", "text/event-stream");
               ("Cache-Control", "no-cache");
               ("Connection", "keep-alive")]%string.
Proof.
  intros pool fs sdk clock req call st Hprep Hstream. cbv zeta.
  rewrite (chat_completions_streams pool fs sdk clock req call Hprep Hstream).
  unfold Chat.streaming, apiKeyManager.executeWithRetry_default.
  match goal with
  | |- context [apiKeyManager.executeWithRetry pool ?f ?m ?s] =>
      pose proof (executeWithRetry_runs pool f m s) as Hr;
      destruct (apiKeyManager.executeWithRetry pool f m s) as [out st2]
  end.
  apply stream_loop_closes in Hr as (tail & Ho & Hf & Hs & Hh & Hout).
  unfold Backend.output, Backend.with_res in Ho, Hs, Hh, Hout.
  cbn [apiKeyManager.ext Backend.res Http.write Http.setHeader Http.written
       Http.statusCode Http.headers Http.ended] in Ho, Hs, Hh, Hout.
  destruct out as [u|error].
  - destruct Hout as (He & body & ->).
    exists (body ++ [Http.sse (Chat.finishEvent (Chat.responseId clock)
                                 (Chat.created_at clock))]).
    unfold Backend.output. rewrite Ho, <- !app_assoc.
    split; [reflexivity|]. split.
    + constructor; [apply framed_start|]. exact Hf.
    + rewrite He, Hs, Hh, <- ?app_assoc. repeat split.
  - exists (tail ++ [Http.sse (Chat.errorEvent error "server_error")]).
    unfold Backend.output, Backend.with_res.
    cbn [apiKeyManager.ext Backend.res Http.write Http.end_ Http.written
         Http.statusCode Http.headers Http.ended].
    rewrite Ho, Hs, Hh, <- ?app_assoc.
    split; [reflexivity|]. split; [|repeat split].
    constructor; [apply framed_start|].
    apply Forall_app; split; [exact Hf|].
    repeat constructor; [apply framed_error | apply framed_done].
Qed.

Lemma streaming_always_closes_witness :
  exists middle,
    Backend.output
      (Chat.chat_completions Sample.pool3 Sample.no_files Sample.limited_once
         Sample.clock Sample.streaming_request Backend.start)
    = [] ++ Http.sse (Chat.startEvent "chatcmpl-1700000000123" 1700000000)
            :: middle ++ [Http.done_frame].
Proof.
  destruct (Chat.prepare Sample.no_files Sample.streaming_request) as [call|e] eqn:Hprep;
    [|discriminate].
  destruct (streaming_always_closes Sample.pool3 Sample.no_files Sample.limited_once
              Sample.clock Sample.streaming_request call Backend.start
              Hprep eq_refl) as (middle & Ho & _).
  exists middle. exact Ho.
Defined.

(** X16. When the first run of the stream throws an error that is not a
    rate limit, or any error while the pool has a single key, there is no
    second attempt: the client gets the role chunk, the chunks streamed
    before the error, one error frame with the error's message and the
    type ["server_error"], and the sentinel; the wrapped call was invoked
    once and the cursor has not moved. *)
Theorem streaming_fatal_error_frame :
  forall (pool : list string) (fs : Content.Files) (sdk : Backend.Sdk)
         (clock : nat -> Z) (req : Chat.Request) (call : Backend.ChatCall)
         (st : apiKeyManager.State Backend.Conn) (error : JsError),
    Chat.prepare fs req = Ok call ->
    truthy (Chat.stream req) = true ->
    1 <= length pool ->
    let first := Backend.sendMessageStream sdk (apiKeyManager.getCurrentApiKey pool st)
                   call (Backend.attempts (apiKeyManager.ext st)) in
    Backend.failure first = Some error ->
    apiKeyManager.is429Error error = false \/ length pool = 1 ->
    let id := Chat.responseId clock in
    let created := Chat.created_at clock in
    let st' := Chat.chat_completions pool fs sdk clock req st in
    Backend.output st'
    = Backend.output st
      ++ Http.sse (Chat.startEvent id created)
         :: Chat.deltas id created (Backend.fragments first)
         ++ [Http.sse (Chat.errorEvent error "server_error"); Http.done_frame]
    /\ get (Chat.errorEvent error "server_error") "error"
       = Ok (JObj [("message", Backend.message_value error);
                   ("type", JStr "server_error")])
    /\ apiKeyManager.trace st'
       = apiKeyManager.trace st
         ++ [apiKeyManager.Invoked (apiKeyManager.getCurrentApiKey pool st)]
    /\ apiKeyManager.currentApiKeyIndex st' = apiKeyManager.currentApiKeyIndex st.
Proof.
  intros pool fs sdk clock req call st error Hprep Hstream Hpool. cbv zeta.
  intros Hfail Hwhy.
  rewrite (chat_completions_streams pool fs sdk clock req call Hprep Hstream).
  destruct (streaming_output pool sdk clock call st) as (Hout & Htr & Hcur & _).
  unfold apiKeyManager.executeWithRetry_default in *.
  match type of Hout with
  | context [apiKeyManager.executeWithRetry pool ?f ?m ?s] =>
      pose proof (executeWithRetry_runs pool f m s) as Hr;
      destruct (apiKeyManager.executeWithRetry pool f m s) as [out st2]
  end.
  cbn [fst snd] in *. unfold apiKeyManager.enough in Hr.
  assert (Hstop : negb (apiKeyManager.is429Error error)
                  || (0 >=? Z.of_nat (length pool) - 1)%Z = true).
  { destruct Hwhy as [-> | ->]; [reflexivity|]. apply orb_true_r. }
  cbn [apiKeyManager.retry_loop] in Hr.
  assert (Hlt : (0 <? Z.of_nat (length pool))%Z = true) by (apply Z.ltb_lt; lia).
  rewrite Hlt, stream_call_run in Hr. cbv zeta in Hr.
  unfold apiKeyManager.getCurrentApiKey in Hr.
  cbn [Backend.with_res apiKeyManager.currentApiKeyIndex apiKeyManager.ext
       Backend.attempts] in Hr.
  fold (apiKeyManager.getCurrentApiKey pool st) in Hr.
  rewrite Hfail, Hstop in Hr. injection Hr as <- <-.
  rewrite Hout, Htr, Hcur. unfold Backend.output, Backend.with_res.
  cbn [apiKeyManager.ext Backend.res apiKeyManager.trace
       apiKeyManager.currentApiKeyIndex].
  rewrite written_write_all. cbn [Http.write Http.written].
  rewrite <- !app_assoc. repeat split.
Qed.

Lemma streaming_fatal_error_frame_witness :
  Backend.output
    (Chat.chat_completions ["key-a"] Sample.no_files Sample.limited_once
       Sample.clock Sample.streaming_request Backend.start)
  = [] ++ Http.sse (Chat.startEvent "chatcmpl-1700000000123" 1700000000)
          :: Chat.deltas "chatcmpl-1700000000123" 1700000000 ["Hel"]
          ++ [Http.sse (Chat.errorEvent Sample.too_many "server_error");
              Http.done_frame].
Proof.
  destruct (Chat.prepare Sample.no_files Sample.streaming_request) as [call|e] eqn:Hprep;
    [|discriminate].
  exact (proj1 (streaming_fatal_error_frame ["key-a"]%string Sample.no_files
                  Sample.limited_once Sample.clock Sample.streaming_request call
                  Backend.start Sample.too_many Hprep eq_refl
                  ltac:(simpl; lia) eq_refl (or_intror eq_refl))).
Defined.

(** ** The other handlers: one body for each request *)

Section QuietCalls.

Import apiKeyManager Http Backend.

Variable pool : list string.
Context {A : Type}.
Variable fn : ApiCall (E := Conn) A.

Hypothesis quiet : forall model conn, res (snd (fn model conn)) = res conn.

(** A call that does not write leaves the response as it was, however
    often the loop runs it. *)
Lemma quiet_loop (fuel : nat) :
  forall (maxRetries retryCount : Z) (st : State Conn) out st',
    retry_loop pool fuel fn maxRetries retryCount st = Some (out, st') ->
    res (ext st') = res (ext st).
Proof.
  induction fuel as [|fuel IH]; intros maxRetries retryCount st out st' H;
    [discriminate|].
  cbn [retry_loop] in H.
  destruct (retryCount <? maxRetries)%Z; [|now injection H as _ <-].
  pose proof (quiet (getCurrentApiKey pool st) (ext st)) as Hq.
  destruct (fn _ _) as [[a|error] e1]; cbn [snd] in Hq.
  - now injection H as _ <-.
  - destruct (negb (is429Error error) || _); [now injection H as _ <-|].
    cbn [switchToNextApiKey] in H. apply IH in H. now rewrite H.
Qed.

Lemma quiet_executeWithRetry (maxRetries : Z) (st : State Conn) :
  res (ext (snd (executeWithRetry pool fn maxRetries st))) = res (ext st).
Proof.
  pose proof (executeWithRetry_runs pool fn maxRetries st) as Hr.
  destruct (executeWithRetry pool fn maxRetries st) as [out st'].
  now apply quiet_loop in Hr.
Qed.

End QuietCalls.

Section OneBody.

Import apiKeyManager Content Http Backend.

Lemma json_one_body (v : value) (r : Response) :
  written (json v r)
  = written r ++ [match stringify v with Some t => t | None => ""%string end]
  /\ ended (json v r) = true
  /\ statusCode (json v r) = statusCode r.
Proof. repeat split. Qed.

End OneBody.

Section OneShot.

Import apiKeyManager Http Backend Shape.

Variable pool : list string.
Context {A : Type}.
Variable ask : option string -> nat -> Res A.
Variable fn : ApiCall (E := Conn) A.

Hypothesis one_shot :
  forall model conn,
    fn model conn = (ask model (attempts conn), mkConn (res conn) (S (attempts conn))).

(** A call that only asks the backend: the loop returns the answer to
    the first attempt that is not rate-limited, or to the last attempt
    it may make; every attempt before it was rate-limited. *)
Lemma one_shot_loop (fuel : nat) :
  forall (maxRetries retryCount : Z) (st : State Conn) out st',
    retry_loop pool fuel fn maxRetries retryCount st = Some (out, st') ->
    (retryCount < maxRetries)%Z ->
    exists n,
      (Z.of_nat n < maxRetries - retryCount)%Z
      /\ (forall j, j < n ->
            exists error,
              ask (key_at pool (advance pool j (currentApiKeyIndex st)))
                  (attempts (ext st) + j) = Throw error
              /\ is429Error error = true)
      /\ out = ask (key_at pool (advance pool n (currentApiKeyIndex st)))
                   (attempts (ext st) + n)
      /\ (settles out \/ (Z.of_nat n = maxRetries - retryCount - 1)%Z)
      /\ res (ext st') = res (ext st).
Proof.
  induction fuel as [|fuel IH]; intros maxRetries retryCount st out st' H Hlt;
    [discriminate|].
  cbn [retry_loop] in H.
  destruct (retryCount <? maxRetries)%Z eqn:Hltb; [|apply Z.ltb_ge in Hltb; lia].
  rewrite one_shot in H. unfold getCurrentApiKey in H.
  destruct (ask (key_at pool (currentApiKeyIndex st)) (attempts (ext st)))
    as [a|error] eqn:Hask.
  - injection H as <- <-. exists 0%nat. cbn [advance ext res].
    rewrite Nat.add_0_r, Hask.
    split; [lia|]. split; [intros j Hj; lia|]. split; [reflexivity|].
    split; [left; exact I|reflexivity].
  - destruct (negb (is429Error error) || (retryCount >=? maxRetries - 1)%Z) eqn:Hstop.
    + injection H as <- <-. exists 0%nat. cbn [advance ext res].
      rewrite Nat.add_0_r, Hask.
      split; [lia|]. split; [intros j Hj; lia|]. split; [reflexivity|].
      split; [|reflexivity].
      apply orb_true_iff in Hstop as [Hfatal | Hge].
      * left. cbn [settles]. now apply negb_true_iff in Hfatal.
      * right. rewrite Z.geb_leb in Hge. apply Z.leb_le in Hge. lia.
    + apply orb_false_iff in Hstop as [H429 Hge].
      apply negb_false_iff in H429.
      rewrite Z.geb_leb in Hge. apply Z.leb_gt in Hge.
      cbn [switchToNextApiKey] in H.
      apply IH in H as (n & Hn & Hbefore & Hout & Hsettle & Hres); [|lia].
      cbn [currentApiKeyIndex ext attempts res] in Hn, Hbefore, Hout, Hres.
      exists (S n). cbn [advance].
      replace (attempts (ext st) + S n) with (S (attempts (ext st)) + n) by lia.
      split; [lia|]. split; [|split; [exact Hout|split; [|exact Hres]]].
      * intros [|j] Hj.
        -- exists error. cbn [advance]. rewrite Nat.add_0_r. now split.
        -- cbn [advance].
           replace (attempts (ext st) + S j) with (S (attempts (ext st)) + j) by lia.
           apply Hbefore. lia.
      * destruct Hsettle as [Hs | Hlast]; [left; exact Hs | right; lia].
Qed.

Lemma one_shot_executeWithRetry (st : State Conn) out st' :
  executeWithRetry pool fn (Z.of_nat (length pool)) st = (out, st') ->
  pool <> [] ->
  exists n,
    n < length pool
    /\ (forall j, j < n ->
          exists error,
            ask (key_at pool (advance pool j (currentApiKeyIndex st)))
                (attempts (ext st) + j) = Throw error
            /\ is429Error error = true)
    /\ out = ask (key_at pool (advance pool n (currentApiKeyIndex st)))
                 (attempts (ext st) + n)
    /\ (settles out \/ S n = length pool)
    /\ res (ext st') = res (ext st).
Proof.
  intros Hexec Hpool.
  pose proof (executeWithRetry_runs pool fn (Z.of_nat (length pool)) st) as Hr.
  rewrite Hexec in Hr.
  assert (Hlen : 0 < length pool) by (destruct pool; [congruence|cbn; lia]).
  apply one_shot_loop in Hr as (n & Hn & Hbefore & Hout & Hsettle & Hres); [|lia].
  exists n. split; [lia|]. split; [exact Hbefore|]. split; [exact Hout|].
  split; [|exact Hres]. destruct Hsettle as [Hs | Hlast]; [left; exact Hs | right; lia].
Qed.

End OneShot.

(** X17. A request that does not ask for a stream is answered with
    exactly one body, after which the response is ended, whatever the
    backend does and however many attempts are made: either the status
    is left as it was and the body is the completion object built from
    the text of the answer, or the status is 500 and the body is the
    error object with the type ["internal_server_error"].  The answer
    is the one [sendMessage] gave to the last attempt: the attempts
    before it were rate-limited, and it is either not rate-limited or
    the attempt made with the last key of the pool.  Its text is the
    content of the completion; an error thrown by [sendMessage], by the
    reading of the text, or by the preparation of the call is the error
    of the body, and so is the error of an empty pool. *)
Theorem non_streaming_one_body :
  forall (pool : list string) (fs : Content.Files) (sdk : Backend.Sdk)
         (clock : nat -> Z) (req : Chat.Request)
         (st : apiKeyManager.State Backend.Conn),
    truthy (Chat.stream req) = false ->
    let st' := Chat.chat_completions pool fs sdk clock req st in
    exists answer,
      Backend.output st'
      = Backend.output st
        ++ [match Http.stringify answer with Some t => t | None => ""%string end]
      /\ Http.ended (Backend.res (apiKeyManager.ext st')) = true
      /\ ((Http.statusCode (Backend.res (apiKeyManager.ext st'))
           = Http.statusCode (Backend.res (apiKeyManager.ext st))
           /\ exists text,
               answer = Chat.completion (Chat.responseId clock)
                          (Chat.created_at clock) text)
          \/ (Http.statusCode (Backend.res (apiKeyManager.ext st')) = 500%Z
              /\ exists e, answer = Chat.errorEvent e "internal_server_error"))
      /\ match Chat.prepare fs req with
         | Throw error =>
             Http.statusCode (Backend.res (apiKeyManager.ext st')) = 500%Z
             /\ answer = Chat.errorEvent error "internal_server_error"
         | Ok call =>
             match pool with
             | [] =>
                 Http.statusCode (Backend.res (apiKeyManager.ext st')) = 500%Z
                 /\ answer = Chat.errorEvent apiKeyManager.allKeysLimited
                               "internal_server_error"
             | _ :: _ =>
                 exists n,
                   n < length pool
                   /\ (forall j, j < n ->
                         exists error,
                           Answers.answer_after pool sdk call st j = Throw error
                           /\ apiKeyManager.is429Error error = true)
                   /\ (Shape.settles (Answers.answer_after pool sdk call st n)
                       \/ S n = length pool)
                   /\ match Answers.answer_after pool sdk call st n with
                      | Ok (Ok text) =>
                          Http.statusCode (Backend.res (apiKeyManager.ext st'))
                          = Http.statusCode (Backend.res (apiKeyManager.ext st))
                          /\ answer = Chat.completion (Chat.responseId clock)
                                        (Chat.created_at clock) text
                      | Ok (Throw error) | Throw error =>
                          Http.statusCode (Backend.res (apiKeyManager.ext st')) = 500%Z
                          /\ answer = Chat.errorEvent error "internal_server_error"
                      end
             end
         end.
Proof.
  intros pool fs sdk clock req st Hstream. cbv zeta.
  unfold Chat.chat_completions. rewrite Hstream.
  destruct (Chat.prepare fs req) as [call|e].
  2:{ eexists. split; [reflexivity|]. split; [reflexivity|].
      split; [right; eauto|]. split; reflexivity. }
  unfold Chat.non_streaming, apiKeyManager.executeWithRetry_default.
  destruct pool as [|key others] eqn:Hpool.
  { rewrite executeWithRetry_stops_at_once by (cbn; lia).
    eexists. split; [reflexivity|]. split; [reflexivity|].
    split; [right; eauto|]. split; reflexivity. }
  rewrite <- Hpool.
  destruct (apiKeyManager.executeWithRetry pool _ _ st) as [out st1] eqn:Hexec.
  apply (one_shot_executeWithRetry pool
           (fun model made => Backend.sendMessage sdk model call made)
           (Chat.send_call sdk call) (fun _ _ => eq_refl)) in Hexec
    as (n & Hn & Hbefore & Hout & Hsettle & Hq); [|congruence].
  fold (Answers.answer_after pool sdk call st n) in Hout.
  destruct out as [[text|e]|e]; eexists;
    unfold Chat.fail500, Backend.output, Backend.with_res;
    cbn [apiKeyManager.ext Backend.res]; rewrite Hq;
    (split; [reflexivity|]); (split; [reflexivity|]);
    (split; [first [left; split; [reflexivity|eauto] | right; eauto]|]);
    exists n; rewrite <- Hout; (split; [exact Hn|]);
    (split; [exact Hbefore|]); (split; [exact Hsettle|]); split; reflexivity.
Qed.

Lemma non_streaming_one_body_witness :
  Backend.output
    (Chat.chat_completions Sample.pool3 Sample.no_files Sample.steady Sample.clock
       Cases.plain_request Backend.start)
  = [Wire.quoted "{'id':'chatcmpl-1700000000123','object':'chat.completion','created':1700000000,'model':'gemini-2.5-pro-exp-03-25','choices':[{'index':0,'message':{'role':'assistant','content':'Hello'},'finish_reason':'stop'}],'usage':{'prompt_tokens':-1,'completion_tokens':-1,'total_tokens':-1}}"].
Proof.
  destruct (non_streaming_one_body Sample.pool3 Sample.no_files Sample.steady
              Sample.clock Cases.plain_request Backend.start eq_refl)
    as (answer & Ho & _ & _ & Hlast).
  destruct (Chat.prepare Sample.no_files Cases.plain_request) as [call|e] eqn:Hprep;
    [|discriminate].
  destruct Hlast as (n & _ & _ & _ & _ & Hanswer).
  rewrite Ho, Hanswer. vm_compute. reflexivity.
Defined.

(** X18. Without a stream the failed attempts leave no mark on the
    response.  If the answer of the backend depends only on the key, the
    keys at the cursor and at the next [k - 1] positions are
    rate-limited, the key after them answers with a text, and [k] is
    below the size of the pool, then the one body sent is the completion
    object of that text, the status is untouched, and the call has run
    [k + 1] times. *)
Theorem non_streaming_hides_retries :
  forall (pool : list string) (fs : Content.Files) (sdk : Backend.Sdk)
         (clock : nat -> Z) (req : Chat.Request) (call : Backend.ChatCall)
         (st : apiKeyManager.State Backend.Conn)
         (answer : option string -> Res (Res string)) (k : nat) (text : string),
    Chat.prepare fs req = Ok call ->
    truthy (Chat.stream req) = false ->
    (forall model n, Backend.sendMessage sdk model call n = answer model) ->
    k < length pool ->
    (forall j, j < k ->
       exists error,
         answer (apiKeyManager.key_at pool
                   (apiKeyManager.advance pool j (apiKeyManager.currentApiKeyIndex st)))
         = Throw error
         /\ apiKeyManager.is429Error error = true) ->
    answer (apiKeyManager.key_at pool
              (apiKeyManager.advance pool k (apiKeyManager.currentApiKeyIndex st)))
    = Ok (Ok text) ->
    let st' := Chat.chat_completions pool fs sdk clock req st in
    Backend.output st'
    = Backend.output st
      ++ [match Http.stringify
                  (Chat.completion (Chat.responseId clock) (Chat.created_at clock) text)
          with Some t => t | None => ""%string end]
    /\ Http.statusCode (Backend.res (apiKeyManager.ext st'))
       = Http.statusCode (Backend.res (apiKeyManager.ext st))
    /\ apiKeyManager.invocations (apiKeyManager.trace st')
       = apiKeyManager.invocations (apiKeyManager.trace st) + S k
    /\ apiKeyManager.currentApiKeyIndex st'
       = apiKeyManager.advance pool k (apiKeyManager.currentApiKeyIndex st).
Proof.
  intros pool fs sdk clock req call st answer k text Hprep Hstream Hkey Hk
         Hbefore Hhere. cbv zeta.
  unfold Chat.chat_completions. rewrite Hprep, Hstream.
  unfold Chat.non_streaming, apiKeyManager.executeWithRetry_default.
  pose proof (quiet_executeWithRetry pool (Chat.send_call sdk call)
                (fun _ _ => eq_refl) (Z.of_nat (length pool)) st) as Hq.
  pose proof (executeWithRetry_runs pool (Chat.send_call sdk call)
                (Z.of_nat (length pool)) st) as Hr.
  destruct (retry_loop_first_usable pool (Chat.send_call sdk call) answer
              (Z.of_nat (length pool))
              (fun model conn => Hkey model (Backend.attempts conn)) k
              (apiKeyManager.enough (Z.of_nat (length pool))) 0%Z st)
    as (st1 & Hloop & Hcur & Htr);
    [unfold apiKeyManager.enough; lia | lia | assumption
    | rewrite Hhere; exact I |].
  rewrite Hloop in Hr. injection Hr as Hr. rewrite <- Hr in Hq |- *.
  rewrite Hhere. cbn [snd] in Hq.
  unfold Backend.output, Backend.with_res.
  cbn [apiKeyManager.ext Backend.res apiKeyManager.trace
       apiKeyManager.currentApiKeyIndex]. rewrite Hq, Htr, Hcur.
  split; [reflexivity|]. split; [reflexivity|]. split; [|reflexivity].
  rewrite invocations_app.
  change (apiKeyManager.invocations (apiKeyManager.Invoked ?x :: ?t))
    with (S (apiKeyManager.invocations t)).
  now rewrite invocations_retries.
Qed.

Lemma non_streaming_hides_retries_witness :
  Backend.output
    (Chat.chat_completions Sample.pool3 Sample.no_files Cases.third_key_sdk
       Sample.clock Cases.plain_request Backend.start)
  = [] ++ [match Http.stringify
                   (Chat.completion "chatcmpl-1700000000123" 1700000000 "Hello")
           with Some t => t | None => ""%string end].
Proof.
  destruct (Chat.prepare Sample.no_files Cases.plain_request)
    as [call|e] eqn:Hprep; [|discriminate].
  refine (proj1 (non_streaming_hides_retries Sample.pool3 Sample.no_files
                   Cases.third_key_sdk Sample.clock Cases.plain_request call
                   Backend.start (Cases.third_key (Ok "Hello"%string)) 2 "Hello"
                   Hprep eq_refl (fun _ _ => eq_refl)
                   ltac:(simpl; lia) _ eq_refl)).
  intros j Hj. exists Sample.too_many.
  destruct j as [|[|j]]; [split; reflexivity | split; reflexivity | lia].
Defined.

Section CursorOfHandlers.

Import apiKeyManager Content Http Backend Shape.

Variable pool : list string.

(** [executeWithRetry] moves the cursor as some number of calls of
    [switchToNextApiKey] would, and not otherwise. *)
Lemma executeWithRetry_cursor {A} (fn : ApiCall (E := Conn) A) (maxRetries : Z)
    (st : State Conn) :
  exists n,
    currentApiKeyIndex (snd (executeWithRetry pool fn maxRetries st))
    = advance pool n (currentApiKeyIndex st).
Proof.
  pose proof (executeWithRetry_runs pool fn maxRetries st) as Hr.
  destruct (executeWithRetry pool fn maxRetries st) as [out st'].
  apply retry_loop_shape in Hr as [(_ & -> & _) | (_ & n & _ & _ & Hc)].
  - now exists 0%nat.
  - now exists n.
Qed.

Lemma chat_completions_cursor (fs : Files) (sdk : Sdk) (clock : nat -> Z)
    (req : Chat.Request) (st : State Conn) :
  exists n,
    currentApiKeyIndex (Chat.chat_completions pool fs sdk clock req st)
    = advance pool n (currentApiKeyIndex st).
Proof.
  unfold Chat.chat_completions.
  destruct (Chat.prepare fs req) as [call|e]; [|now exists 0%nat].
  destruct (truthy (Chat.stream req)).
  - destruct (streaming_output pool sdk clock call st) as (_ & _ & Hcur & _).
    rewrite Hcur. unfold executeWithRetry_default.
    match goal with
    | |- context [executeWithRetry pool ?f ?m ?s] =>
        destruct (executeWithRetry_cursor f m s) as [n Hn]
    end.
    exists n. exact Hn.
  - unfold Chat.non_streaming, executeWithRetry_default.
    destruct (executeWithRetry_cursor (Chat.send_call sdk call)
                (Z.of_nat (length pool)) st) as [n Hn].
    destruct (executeWithRetry pool _ _ st) as [[[text|e]|e] st1];
      exists n; exact Hn.
Qed.

Lemma generate_cursor (fs : Files) (sdk : Sdk) (body : value)
    (files : list Generate.Upload) (st : State Conn) :
  exists n,
    currentApiKeyIndex (Generate.generate pool fs sdk body files st)
    = advance pool n (currentApiKeyIndex st).
Proof.
  unfold Generate.generate.
  destruct (Chat.destructure body "prompt" "req.body") as [prompt|e];
    [|now exists 0%nat].
  destruct (negb (truthy prompt)); [now exists 0%nat|].
  destruct (Generate.message_parts fs prompt body files) as [parts|e];
    [|now exists 0%nat].
  unfold executeWithRetry_default.
  destruct (executeWithRetry_cursor (Generate.generate_call sdk parts)
              (Z.of_nat (length pool)) st) as [n Hn].
  destruct (executeWithRetry pool _ _ st) as [[[text|e]|e] st1];
    exists n; exact Hn.
Qed.

End CursorOfHandlers.

(** X19. No request takes the cursor out of the pool: if it points into
    the pool before a request to the chat endpoint or to the image
    endpoint, it does so after it, whatever the request and the backend;
    so the health report that follows shows a [current] index below
    [total]. *)
Theorem handlers_keep_cursor_in_pool :
  forall (pool : list string) (fs : Content.Files) (sdk : Backend.Sdk)
         (clock : nat -> Z) (st : apiKeyManager.State Backend.Conn),
    Shape.in_range pool (apiKeyManager.currentApiKeyIndex st) ->
    (forall req,
        let st' := Chat.chat_completions pool fs sdk clock req st in
        Shape.in_range pool (apiKeyManager.currentApiKeyIndex st')
        /\ exists i, (i < length pool)%nat
                     /\ Health.report pool (apiKeyManager.currentApiKeyIndex st')
                        = JObj [("status", JStr "ok");
                                ("apiKeys",
                                 JObj [("total", JNum (NInt (Z.of_nat (length pool))));
                                       ("current", JNum (NInt (Z.of_nat i)))])])
    /\ (forall body files,
          let st' := Generate.generate pool fs sdk body files st in
          Shape.in_range pool (apiKeyManager.currentApiKeyIndex st')
          /\ exists i, (i < length pool)%nat
                       /\ Health.report pool (apiKeyManager.currentApiKeyIndex st')
                          = JObj [("status", JStr "ok");
                                  ("apiKeys",
                                   JObj [("total", JNum (NInt (Z.of_nat (length pool))));
                                         ("current", JNum (NInt (Z.of_nat i)))])]).
Proof.
  intros pool fs sdk clock st Hin.
  assert (Hreport : forall c, Shape.in_range pool c ->
            exists i, (i < length pool)%nat
                      /\ Health.report pool c
                         = JObj [("status", JStr "ok");
                                 ("apiKeys",
                                  JObj [("total", JNum (NInt (Z.of_nat (length pool))));
                                        ("current", JNum (NInt (Z.of_nat i)))])]).
  { intros [i|] Hc; [|contradiction]. exists i. split; [exact Hc|reflexivity]. }
  split.
  - intros req. cbv zeta.
    destruct (chat_completions_cursor pool fs sdk clock req st) as [n Hn].
    assert (Hr : Shape.in_range pool
                   (apiKeyManager.currentApiKeyIndex
                      (Chat.chat_completions pool fs sdk clock req st)))
      by (rewrite Hn; now apply advance_keeps_range).
    split; [exact Hr | now apply Hreport].
  - intros body files. cbv zeta.
    destruct (generate_cursor pool fs sdk body files st) as [n Hn].
    assert (Hr : Shape.in_range pool
                   (apiKeyManager.currentApiKeyIndex
                      (Generate.generate pool fs sdk body files st)))
      by (rewrite Hn; now apply advance_keeps_range).
    split; [exact Hr | now apply Hreport].
Qed.

Lemma handlers_keep_cursor_in_pool_witness :
  Shape.in_range Sample.pool3
    (apiKeyManager.currentApiKeyIndex
       (Chat.chat_completions Sample.pool3 Sample.no_files Sample.limited_once
          Sample.clock Sample.streaming_request Backend.start)).
Proof.
  exact (proj1 (proj1 (handlers_keep_cursor_in_pool Sample.pool3 Sample.no_files
                         Sample.limited_once Sample.clock Backend.start
                         ltac:(simpl; lia)) Sample.streaming_request)).
Defined.

(** X20. With an empty pool no endpoint reaches the backend.  A request
    that can be prepared gets, as a stream, the role chunk, one error
    frame saying that all keys are rate-limited, and the sentinel;
    without a stream, status 500 and that error as the one body.  The
    image endpoint, given a prompt and parts it can build, answers with
    status 500 and that error's message. *)
Theorem empty_pool_never_calls_backend :
  forall (fs : Content.Files) (sdk : Backend.Sdk) (clock : nat -> Z)
         (st : apiKeyManager.State Backend.Conn),
    (forall req call,
        Chat.prepare fs req = Ok call ->
        let st' := Chat.chat_completions [] fs sdk clock req st in
        apiKeyManager.trace st' = apiKeyManager.trace st
        /\ Backend.attempts (apiKeyManager.ext st')
           = Backend.attempts (apiKeyManager.ext st)
        /\ (truthy (Chat.stream req) = true ->
            Backend.output st'
            = Backend.output st
              ++ [Http.sse (Chat.startEvent (Chat.responseId clock) (Chat.created_at clock));
                  Http.sse (Chat.errorEvent apiKeyManager.allKeysLimited "server_error");
                  Http.done_frame])
        /\ (truthy (Chat.stream req) = false ->
            st' = Chat.fail500 apiKeyManager.allKeysLimited st))
    /\ (forall body prompt files parts,
          get body "prompt" = Ok prompt ->
          truthy prompt = true ->
          Generate.message_parts fs prompt body files = Ok parts ->
          Generate.generate [] fs sdk body files st
          = Generate.fail500 apiKeyManager.allKeysLimited st).
Proof.
  intros fs sdk clock st. split.
  - intros req call Hprep. cbv zeta. unfold Chat.chat_completions.
    rewrite Hprep. destruct (truthy (Chat.stream req)).
    + unfold Chat.streaming, apiKeyManager.executeWithRetry_default.
      rewrite executeWithRetry_stops_at_once by (simpl; lia).
      unfold Backend.output, Backend.with_res.
      cbn [apiKeyManager.ext Backend.res apiKeyManager.trace Backend.attempts
           Http.write Http.end_ Http.setHeader Http.written].
      rewrite <- !app_assoc. repeat split. discriminate.
    + unfold Chat.non_streaming, apiKeyManager.executeWithRetry_default.
      rewrite executeWithRetry_stops_at_once by (simpl; lia).
      repeat split. discriminate.
  - intros body prompt files parts Hget Htruthy Hparts. unfold Generate.generate.
    assert (Hd : Chat.destructure body "prompt" "req.body" = Ok prompt)
      by (destruct body; try exact Hget; discriminate).
    rewrite Hd, Htruthy, Hparts. cbn [negb].
    unfold apiKeyManager.executeWithRetry_default.
    now rewrite executeWithRetry_stops_at_once by (simpl; lia).
Qed.

(** ** The image endpoint *)

Section GenerateFacts.

Import apiKeyManager Content Http Backend Generate.

(** The loop over the inline images keeps, in order, the images that
    carry both properties. *)
Lemma inline_images_loop_members (items : list value) :
  Forall (fun image => image <> JNull /\ image <> JUndefined) items ->
  exists parts,
    inline_images_loop items = Ok parts
    /\ length parts <= length items
    /\ forall part,
        In part parts <->
        exists image data mimeType,
          In image items
          /\ get image "data" = Ok data
          /\ get image "mimeType" = Ok mimeType
          /\ truthy data = true
          /\ truthy mimeType = true
          /\ part = PInlineData data mimeType.
Proof.
  induction 1 as [|image items [Hnull Hundef] _ (parts & Hloop & Hlen & Hmem)].
  - exists []. split; [reflexivity|]. split; [reflexivity|].
    intros part. split; [contradiction|]. intros (image & _ & _ & [] & _).
  - cbn [inline_images_loop]. rewrite Hloop.
    assert (Hget : forall key, exists v, get image key = Ok v).
    { intros key. destruct image; try congruence; cbn [get]; eauto.
      destruct (lookup key fields); eauto. }
    destruct (Hget "data"%string) as [data Hdata].
    destruct (Hget "mimeType"%string) as [mime Hmime].
    unfold inline_image. rewrite Hdata. cbn [Js.bind].
    destruct (truthy data) eqn:Htd;
      [rewrite Hmime; cbn [Js.bind]; destruct (truthy mime) eqn:Htm|];
      cbn [Js.bind app]; eexists; (split; [reflexivity|]);
      (split; [cbn [length]; lia|]); intros part; cbn [In]; rewrite Hmem;
      split.
    + intros [<- | (im & d & m & Hin & H)].
      * exists image, data, mime. repeat split; auto.
      * exists im, d, m. tauto.
    + intros (im & d & m & [<- | Hin] & Hd & Hm & Htd' & Htm' & ->).
      * left. congruence.
      * right. exists im, d, m. tauto.
    + intros (im & d & m & Hin & H). exists im, d, m. tauto.
    + intros (im & d & m & [<- | Hin] & Hd & Hm & Htd' & Htm' & ->).
      * congruence.
      * exists im, d, m. tauto.
    + intros (im & d & m & Hin & H). exists im, d, m. tauto.
    + intros (im & d & m & [<- | Hin] & Hd & Hm & Htd' & Htm' & ->).
      * congruence.
      * exists im, d, m. tauto.
Qed.

End GenerateFacts.

(** The loop over the inline images, entry by entry. *)
Lemma inline_images_loop_kept (items : list value) :
  Forall (fun image => image <> JNull /\ image <> JUndefined) items ->
  Generate.inline_images_loop items = Ok (flat_map Inline.kept_image items).
Proof.
  induction 1 as [|image items [Hnull Hundef] _ IH]; [reflexivity|].
  cbn [Generate.inline_images_loop flat_map]. rewrite IH.
  destruct image as [| | | | | |fields]; try congruence; try reflexivity.
  unfold Generate.inline_image, Inline.kept_image. cbn [get].
  destruct (lookup "data" fields) as [data|]; cbn [Js.bind truthy];
    [|destruct (lookup "mimeType" fields); reflexivity].
  destruct (truthy data); cbn [andb];
    [|destruct (lookup "mimeType" fields); reflexivity].
  destruct (lookup "mimeType" fields) as [mimeType|]; cbn [Js.bind truthy];
    [destruct (truthy mimeType)|]; reflexivity.
Qed.

(** X21. The inline images of a request to the image endpoint: from an
    array without [null] entries the server keeps exactly the entries
    that carry a truthy [data] and a truthy [mimeType], as inline-data
    parts, one part for each such entry and in the order of the array
    (an entry that occurs twice gives two parts), and passes over the
    others without failing; a value that is absent, falsy or a string
    gives no part; an array with a [null] entry throws a [TypeError]. *)
Theorem inline_images_keeps_complete_entries :
  forall (items : list value),
    (Forall (fun image => image <> JNull /\ image <> JUndefined) items ->
     exists parts,
       Generate.inline_images (JArr items) = Ok parts
       /\ parts = flat_map Inline.kept_image items
       /\ length parts <= length items
       /\ forall part,
           In part parts <->
           exists image data mimeType,
             In image items
             /\ get image "data" = Ok data
             /\ get image "mimeType" = Ok mimeType
             /\ truthy data = true
             /\ truthy mimeType = true
             /\ part = Content.PInlineData data mimeType)
    /\ Generate.inline_images
         (JArr [Inline.image "QUJD" "image/png";
                JObj [("data", JStr "R0lG")];
                Inline.image "/9j/" "image/jpeg";
                JStr "QUJD";
                Inline.image "QUJD" "image/png";
                Inline.image "" "image/png"])
       = Ok [Content.PInlineData (JStr "QUJD") (JStr "image/png");
             Content.PInlineData (JStr "/9j/") (JStr "image/jpeg");
             Content.PInlineData (JStr "QUJD") (JStr "image/png")]
    /\ (forall images,
          truthy images = false \/ (exists s, images = JStr s) ->
          Generate.inline_images images = Ok [])
    /\ (exists e,
          Generate.inline_images (JArr (JNull :: items)) = Throw e
          /\ name e = "TypeError"%string).
Proof.
  intros items. split; [|split; [reflexivity|split]].
  - intros Hall. cbn [Generate.inline_images truthy].
    destruct (inline_images_loop_members items Hall) as (parts & Hloop & Hlen & Hmem).
    exists parts. split; [exact Hloop|]. split; [|split; [exact Hlen|exact Hmem]].
    rewrite (inline_images_loop_kept items Hall) in Hloop. congruence.
  - intros images [Hf | [s ->]]; unfold Generate.inline_images.
    + now rewrite Hf.
    + destruct (truthy (JStr s)); reflexivity.
  - eexists. split; reflexivity.
Qed.

(** X22. Every request to the image endpoint is answered with exactly
    one body, after which the response is ended; the status is left as
    it was or set to 400 or 500; and when it is left as it was the body
    is [{success: true, response: <text>}]. *)
Theorem generate_one_body :
  forall (pool : list string) (fs : Content.Files) (sdk : Backend.Sdk)
         (body : value) (files : list Generate.Upload)
         (st : apiKeyManager.State Backend.Conn),
    let st' := Generate.generate pool fs sdk body files st in
    exists answer,
      Backend.output st'
      = Backend.output st
        ++ [match Http.stringify answer with Some t => t | None => ""%string end]
      /\ Http.ended (Backend.res (apiKeyManager.ext st')) = true
      /\ ((Http.statusCode (Backend.res (apiKeyManager.ext st'))
           = Http.statusCode (Backend.res (apiKeyManager.ext st))
           /\ exists text, answer = Generate.success_body text)
          \/ (Http.statusCode (Backend.res (apiKeyManager.ext st')) = 400%Z
              /\ answer = Generate.missing_prompt)
          \/ (Http.statusCode (Backend.res (apiKeyManager.ext st')) = 500%Z
              /\ exists e, answer = Generate.failure_body e)).
Proof.
  intros pool fs sdk body files st. cbv zeta. unfold Generate.generate.
  destruct (Chat.destructure body "prompt" "req.body") as [prompt|e].
  2:{ eexists. split; [reflexivity|]. split; [reflexivity|]. right. right. eauto. }
  destruct (negb (truthy prompt)).
  { eexists. split; [reflexivity|]. split; [reflexivity|]. right. left. eauto. }
  destruct (Generate.message_parts fs prompt body files) as [parts|e].
  2:{ eexists. split; [reflexivity|]. split; [reflexivity|]. right. right. eauto. }
  unfold apiKeyManager.executeWithRetry_default.
  pose proof (quiet_executeWithRetry pool (Generate.generate_call sdk parts)
                (fun _ _ => eq_refl) (Z.of_nat (length pool)) st) as Hq.
  destruct (apiKeyManager.executeWithRetry pool _ _ st) as [out st1].
  cbn [snd] in Hq.
  destruct out as [[text|e]|e]; eexists;
    unfold Generate.fail500, Backend.output, Backend.with_res;
    cbn [apiKeyManager.ext Backend.res]; rewrite Hq;
    (split; [reflexivity|]); (split; [reflexivity|]);
    [left; split; [reflexivity|eauto] | right; right; eauto | right; right; eauto].
Qed.

(** ** Uploads *)

Section UploadFacts.

Import Content Http Backend Upload.

Lemma length_append (a b : string) :
  String.length (a ++ b) = String.length a + String.length b.
Proof. induction a as [|c a IH]; cbn [append String.length]; [reflexivity|]. now rewrite IH. Qed.

Lemma decimal_nonempty (z : Z) : decimal z <> ""%string.
Proof.
  unfold decimal, NilZero.string_of_int.
  destruct (Z.to_int z) as [d|d]; [|discriminate].
  unfold NilZero.string_of_uint. destruct d; discriminate.
Qed.

End UploadFacts.

(** X23. The upload endpoint lists one entry for each stored file, in
    order, with the URL [/uploads/<filename>]; with no file it still
    answers [{success: true, files: []}], and when multer left
    [req.files] undefined it answers with status 500.  A stored name is
    [<time>-<original name>], so it is never the original name.  And the
    URL of an entry, sent back as an image of a chat message, is read by
    the normaliser as a reference to the file [rootDir/uploads/<filename>]:
    it never gives the "unsupported" part. *)
Theorem upload_url_is_read_back :
  forall (fs : Content.Files) (files : list Upload.Stored) (r : Http.Response),
    Http.written (Upload.upload_files (Some files) r)
    = Http.written r
      ++ [match Http.stringify (Upload.uploaded files) with
          | Some t => t
          | None => ""%string
          end]
    /\ Http.statusCode (Upload.upload_files (Some files) r) = Http.statusCode r
    /\ (exists entries,
          get (Upload.uploaded files) "files" = Ok (JArr entries)
          /\ length entries = length files
          /\ Forall2 (fun file e =>
                        get e "url" = Ok (JStr ("/uploads/" ++ Upload.filename file))
                        /\ get e "filename" = Ok (JStr (Upload.filename file))
                        /\ get e "originalname" = Ok (JStr (Upload.originalname file)))
               files entries)
    /\ get (Upload.uploaded []) "files" = Ok (JArr [])
    /\ Http.statusCode (Upload.upload_files None r) = 500%Z
    /\ (forall now original,
          Upload.stored_name now original <> original
          /\ exists stamp, stamp <> ""%string
                           /\ Upload.stored_name now original
                              = (stamp ++ "-" ++ original)%string)
    /\ (forall file,
          Content.process_item fs (Content.image_item (Upload.url_of file))
          = Content.fileToGenerativePart fs
              (Content.path_join fs (Content.rootDir fs)
                 ("/uploads/" ++ Upload.filename file))
              (Content.or_jpeg
                 (Content.mime_lookup fs
                    (Content.path_join fs (Content.rootDir fs)
                       ("/uploads/" ++ Upload.filename file))))).
Proof.
  intros fs files r. split; [reflexivity|]. split; [reflexivity|].
  split; [|split; [reflexivity|split; [reflexivity|split]]].
  - exists (map Upload.entry files). split; [reflexivity|].
    split; [apply length_map|].
    induction files as [|file files IH]; cbn [map]; constructor; [|exact IH].
    repeat split.
  - intros now original. split.
    + intros H. apply (f_equal String.length) in H.
      unfold Upload.stored_name in H. rewrite !length_append in H.
      cbn [String.length] in H. lia.
    + exists (decimal now). split; [apply decimal_nonempty|reflexivity].
  - intros file. unfold Content.process_item, Content.image_item, Upload.url_of.
    cbn [get lookup Js.bind is_str Content.url_string]. simpl String.eqb.
    cbv iota. cbn [get lookup Js.bind Content.url_string]. simpl String.eqb.
    cbv iota. cbn [Js.bind Content.url_string].
    assert (Hup : startsWith ("/uploads/" ++ Upload.filename file) "/uploads/" = true)
      by apply startsWith_app.
    now rewrite (uploads_is_not_data _ Hup), Hup.
Qed.

(** ** The pool of keys at start-up *)

Section PoolFacts.

Import Pool.

Lemma split_not_empty (sep : ascii) (s : string) : split sep s <> [].
Proof.
  destruct s as [|c s]; cbn [split]; [discriminate|].
  destruct (Ascii.eqb c sep); [discriminate|].
  destruct (split sep s); discriminate.
Qed.

(** Joining the pieces with the separator gives the text back. *)
Lemma join_split (sep : ascii) (s : string) : join sep (split sep s) = s.
Proof.
  induction s as [|c s IH]; [reflexivity|]. cbn [split].
  destruct (Ascii.eqb_spec c sep) as [->|Hc].
  - pose proof (split_not_empty sep s) as Hne.
    destruct (split sep s) as [|p ps] eqn:Hs; [congruence|].
    cbn [join append]. cbn [join] in IH. now rewrite IH.
  - pose proof (split_not_empty sep s) as Hne.
    destruct (split sep s) as [|p ps] eqn:Hs; [congruence|].
    destruct ps as [|q ps]; cbn [join append] in *; now rewrite IH.
Qed.

(** No piece holds the separator. *)
Lemma split_pieces (sep : ascii) (s : string) :
  Forall (fun piece => all_chars (fun c => negb (Ascii.eqb c sep)) piece = true)
    (split sep s).
Proof.
  induction s as [|c s IH]; cbn [split]; [repeat constructor|].
  destruct (Ascii.eqb c sep) eqn:Hc; [constructor; [reflexivity|exact IH]|].
  destruct (split sep s) as [|p ps]; [repeat constructor; cbn; now rewrite Hc|].
  inversion IH as [|? ? Hp Hps]; subst. constructor; [|exact Hps].
  cbn [all_chars]. now rewrite Hc, Hp.
Qed.

Lemma filter_nil_iff {A} (f : A -> bool) (l : list A) :
  filter f l = [] <-> Forall (fun x => f x = false) l.
Proof.
  induction l as [|x l IH]; cbn [filter]; [split; [constructor|reflexivity]|].
  destruct (f x) eqn:Hx; split.
  - discriminate.
  - intros H. inversion H; congruence.
  - intros H. constructor; [exact Hx | now apply IH].
  - intros H. inversion H. now apply IH.
Qed.

End PoolFacts.

(** X24. The keys listed in [GEMINI_API_KEYS] are the texts between the
    commas, taken as they stand and in their order (joined again with
    commas, the pieces give the variable back), less the pieces that are
    blank.  So a key of the pool that comes from the list is never blank
    and holds no comma; white space around it is kept. *)
Theorem apiKeyPool_from_list :
  forall (listed : string) (single : option string),
    listed <> ""%string ->
    let pieces := Pool.split ","%char listed in
    let pool := Pool.apiKeyPool (Some listed) single in
    Pool.join ","%char pieces = listed
    /\ (filter (fun key => negb (Pool.blank key)) pieces <> [] ->
        pool = filter (fun key => negb (Pool.blank key)) pieces
        /\ Forall (fun key => Pool.blank key = false
                              /\ includes key "," = false
                              /\ In key pieces) pool)
    /\ (filter (fun key => negb (Pool.blank key)) pieces = [] ->
        pool = match single with
               | Some key => if String.eqb key "" then [] else [key]
               | None => []
               end).
Proof.
  intros listed single Hne. cbv zeta.
  split; [apply join_split|].
  unfold Pool.apiKeyPool. rewrite (eqb_empty_false listed Hne). cbn [negb].
  split.
  - intros Hsome.
    destruct (filter _ (Pool.split "," listed)) as [|key keys] eqn:Hf;
      [congruence|].
    cbn [length Nat.eqb andb]. split; [reflexivity|].
    rewrite <- Hf. apply Forall_forall. intros k Hin.
    apply filter_In in Hin as [Hin Hk]. apply negb_true_iff in Hk.
    split; [exact Hk|]. split; [|exact Hin].
    pose proof (split_pieces ","%char listed) as Hp.
    rewrite Forall_forall in Hp. specialize (Hp k Hin).
    apply includes_head_absent.
    eapply all_chars_weaken; [|exact Hp].
    intros c Hc. now rewrite Ascii.eqb_sym.
  - intros ->. cbn [length Nat.eqb andb app].
    destruct single as [key|]; cbn [Pool.set_var]; [|reflexivity].
    destruct (String.eqb key ""); reflexivity.
Qed.

Lemma apiKeyPool_from_list_witness :
  Pool.apiKeyPool (Some "key-a, key-b ,,key-c") (Some "spare")
  = ["key-a"; " key-b "; "key-c"]%string.
Proof.
  destruct (apiKeyPool_from_list "key-a, key-b ,,key-c" (Some "spare"%string)
              ltac:(discriminate)) as (_ & Hsome & _).
  exact (proj1 (Hsome ltac:(discriminate))).
Defined.

(** X25. The server starts with an empty pool exactly when the list
    gives no key that is not blank and the single key is unset or empty;
    the single key is used only when the list gives none, and then it is
    the whole pool, even if it is blank. *)
Theorem apiKeyPool_empty_iff :
  forall (listed single : option string),
    let usable :=
      match listed with
      | Some s =>
          if String.eqb s "" then []
          else filter (fun key => negb (Pool.blank key)) (Pool.split ","%char s)
      | None => []
      end in
    (Pool.apiKeyPool listed single = []
     <-> usable = [] /\ Pool.set_var single = false)
    /\ (usable <> [] -> Pool.apiKeyPool listed single = usable)
    /\ (forall key,
          usable = [] -> single = Some key -> key <> ""%string ->
          Pool.apiKeyPool listed single = [key]).
Proof.
  intros listed single. cbv zeta. unfold Pool.apiKeyPool.
  assert (Heq : match listed with
                | Some s =>
                    if negb (String.eqb s "")
                    then filter (fun key => negb (Pool.blank key)) (Pool.split "," s)
                    else []
                | None => []
                end
                = match listed with
                  | Some s =>
                      if String.eqb s "" then []
                      else filter (fun key => negb (Pool.blank key)) (Pool.split "," s)
                  | None => []
                  end).
  { destruct listed as [s|]; [|reflexivity]. now destruct (String.eqb s ""). }
  rewrite Heq. clear Heq.
  destruct (match listed with Some s => _ | None => [] end) as [|k ks].
  - cbn [length Nat.eqb andb app].
    destruct single as [key|]; cbn [Pool.set_var].
    + destruct (String.eqb key "") eqn:Hk; cbn [negb].
      * split; [split; [tauto|tauto]|]. split; [congruence|].
        intros key' _ H Hne. injection H as <-.
        apply String.eqb_eq in Hk. congruence.
      * split; [split; [discriminate|intros [_ H]; discriminate]|].
        split; [congruence|]. intros key' _ H _. now injection H as <-.
    + split; [tauto|]. split; [congruence|]. discriminate.
  - cbn [length Nat.eqb andb].
    split; [split; [discriminate|intros [H _]; discriminate]|].
    split; [reflexivity|]. discriminate.
Qed.

(** ** A stream when every key is rate-limited *)

Section StreamExhausted.

Import apiKeyManager Content Http Backend Chat Shape Runs.

Variables (pool : list string) (sdk : Sdk) (call : ChatCall).
Variables (id : string) (created : Z).

Hypothesis all_limited :
  forall key n, exists error,
    failure (sendMessageStream sdk key call n) = Some error
    /\ is429Error error = true.

Lemma stream_loop_all_limited (n : nat) :
  forall (fuel : nat) (maxRetries retryCount : Z) (st : State Conn),
    maxRetries = (retryCount + Z.of_nat (S n))%Z ->
    n < fuel ->
    exists error st',
      retry_loop pool fuel (stream_call sdk call id created) maxRetries retryCount st
      = Some (Throw error, st')
      /\ output st'
         = output st
           ++ concat (map (fun j => deltas id created
                                      (fragments (run_after pool sdk call st j)))
                          (seq 0 (S n)))
      /\ failure (run_after pool sdk call st n) = Some error
      /\ invocations (trace st') = invocations (trace st) + S n.
Proof.
  induction n as [|n IH]; intros fuel maxRetries retryCount st Hm Hf;
    (destruct fuel as [|fuel]; [lia|]);
    destruct (all_limited (getCurrentApiKey pool st) (attempts (ext st)))
      as (error & Hfail & Hc);
    pose proof (stream_call_run id created sdk call (getCurrentApiKey pool st) (ext st))
      as Hrun; cbv zeta in Hrun; rewrite Hfail in Hrun.
  - exists error. eexists. split; [|split; [|split]].
    + apply retry_loop_last; [lia|lia|exact Hrun].
    + unfold output. cbn [ext res seq map concat]. rewrite written_write_all.
      unfold run_after. cbn [advance]. rewrite Nat.add_0_r, app_nil_r. reflexivity.
    + unfold run_after. cbn [advance]. rewrite Nat.add_0_r. exact Hfail.
    + cbn [trace]. rewrite invocations_app. reflexivity.
  - rewrite (retry_loop_again pool _ fuel maxRetries retryCount st error _ ltac:(lia) Hrun Hc).
    cbn [switchToNextApiKey snd].
    match goal with
    | |- context [retry_loop pool fuel _ maxRetries (retryCount + 1)%Z ?s] =>
        destruct (IH fuel maxRetries (retryCount + 1)%Z s ltac:(lia) ltac:(lia))
          as (err & st' & Hr & Ho & Hlast & Hinv)
    end.
    exists err, st'. split; [exact Hr|].
    assert (Hshift : forall j,
              run_after pool sdk call
                (mkState (next_index pool (currentApiKeyIndex st))
                   ((trace st ++ [Invoked (getCurrentApiKey pool st)])
                    ++ [Switched (next_index pool (currentApiKeyIndex st))])
                   (mkConn (write_all (deltas id created
                              (fragments (sendMessageStream sdk (getCurrentApiKey pool st)
                                            call (attempts (ext st)))))
                              (res (ext st)))
                           (S (attempts (ext st))))) j
              = run_after pool sdk call st (S j)).
    { intros j. unfold run_after. cbn [currentApiKeyIndex ext attempts advance].
      now rewrite Nat.add_succ_r. }
    split; [|split].
    + rewrite Ho. unfold output. cbn [ext res]. rewrite written_write_all.
      rewrite <- app_assoc. f_equal.
      change (seq 0 (S (S n))) with (0%nat :: seq 1 (S n)).
      cbn [map concat]. f_equal.
      * unfold run_after. cbn [advance]. now rewrite Nat.add_0_r.
      * f_equal. rewrite <- (seq_shift (S n) 0), map_map.
        apply map_ext. intros j. now rewrite Hshift.
    + rewrite <- Hshift. exact Hlast.
    + rewrite Hinv. cbn [trace]. rewrite !invocations_app.
      change (invocations [Invoked ?k]) with 1%nat.
      change (invocations [Switched ?i]) with 0%nat.
      lia.
Qed.

End StreamExhausted.

(** X26. When every run of the stream is rate-limited, the client of a
    pool of [p >= 1] keys receives the role chunk, then the chunks of all
    [p] runs one after the other, then one error frame carrying the
    error of the last run, then the sentinel; the call has been invoked
    [p] times. *)
Theorem streaming_exhausts_every_key :
  forall (pool : list string) (fs : Content.Files) (sdk : Backend.Sdk)
         (clock : nat -> Z) (req : Chat.Request) (call : Backend.ChatCall)
         (st : apiKeyManager.State Backend.Conn),
    Chat.prepare fs req = Ok call ->
    truthy (Chat.stream req) = true ->
    1 <= length pool ->
    (forall key n, exists error,
        Backend.failure (Backend.sendMessageStream sdk key call n) = Some error
        /\ apiKeyManager.is429Error error = true) ->
    let id := Chat.responseId clock in
    let created := Chat.created_at clock in
    let st' := Chat.chat_completions pool fs sdk clock req st in
    exists error,
      Backend.failure (Runs.run_after pool sdk call st (length pool - 1)) = Some error
      /\ Backend.output st'
         = Backend.output st
           ++ Http.sse (Chat.startEvent id created)
              :: concat (map (fun j => Chat.deltas id created
                                         (Backend.fragments
                                            (Runs.run_after pool sdk call st j)))
                             (seq 0 (length pool)))
              ++ [Http.sse (Chat.errorEvent error "server_error"); Http.done_frame]
      /\ apiKeyManager.invocations (apiKeyManager.trace st')
         = apiKeyManager.invocations (apiKeyManager.trace st) + length pool.
Proof.
  intros pool fs sdk clock req call st Hprep Hstream Hpool Hall. cbv zeta.
  rewrite (chat_completions_streams pool fs sdk clock req call Hprep Hstream).
  destruct (streaming_output pool sdk clock call st) as (Hout & Htr & _ & _).
  unfold apiKeyManager.executeWithRetry_default in *.
  match type of Hout with
  | context [apiKeyManager.executeWithRetry pool ?f ?m ?s] =>
      pose proof (executeWithRetry_runs pool f m s) as Hr;
      destruct (stream_loop_all_limited pool sdk call (Chat.responseId clock)
                  (Chat.created_at clock) Hall (length pool - 1)
                  (apiKeyManager.enough m) m 0%Z s)
        as (error & st2 & Hloop & Ho & Hlast & Hinv);
      [lia | unfold apiKeyManager.enough; lia |]
  end.
  rewrite Hloop in Hr. injection Hr as Hr. rewrite <- Hr in Hout, Htr.
  cbn [fst snd] in Hout, Htr.
  assert (Hsame : forall j,
            Runs.run_after pool sdk call
              (Backend.with_res
                 (fun r => Http.write
                    (Http.sse (Chat.startEvent (Chat.responseId clock)
                                 (Chat.created_at clock)))
                    (Http.setHeader "Connection" "keep-alive"
                       (Http.setHeader "Cache-Control" "no-cache"
                          (Http.setHeader "Content-Type" "text/event-stream" r)))) st) j
            = Runs.run_after pool sdk call st j) by reflexivity.
  exists error. split; [now rewrite <- Hsame|]. split.
  - rewrite Hout, Ho.
    replace (S (length pool - 1)) with (length pool) by lia.
    unfold Backend.output at 1, Backend.with_res.
    cbn [apiKeyManager.ext Backend.res Http.write Http.written].
    rewrite <- !app_assoc. reflexivity.
  - rewrite Htr, Hinv. cbn [Backend.with_res apiKeyManager.trace]. lia.
Qed.

Lemma streaming_exhausts_every_key_witness :
  exists error,
    Backend.output
      (Chat.chat_completions ["key-a"; "key-a"] Sample.no_files
         (Backend.mkSdk (fun _ _ _ => Backend.mkRun ["Hel"] (Some Sample.too_many))
            (fun _ _ _ => Ok (Ok "Hello")) (fun _ _ _ => Ok (Ok "Hello")))
         Sample.clock Sample.streaming_request Backend.start)
    = [] ++ Http.sse (Chat.startEvent "chatcmpl-1700000000123" 1700000000)
            :: concat (map (fun j => Chat.deltas "chatcmpl-1700000000123" 1700000000
                                       ["Hel"]) (seq 0 2))
            ++ [Http.sse (Chat.errorEvent error "server_error"); Http.done_frame].
Proof.
  destruct (Chat.prepare Sample.no_files Sample.streaming_request) as [call|e] eqn:Hprep;
    [|discriminate].
  destruct (streaming_exhausts_every_key ["key-a"; "key-a"]%string Sample.no_files
              (Backend.mkSdk (fun _ _ _ => Backend.mkRun ["Hel"] (Some Sample.too_many))
                 (fun _ _ _ => Ok (Ok "Hello"%string))
                 (fun _ _ _ => Ok (Ok "Hello"%string)))
              Sample.clock Sample.streaming_request call Backend.start
              Hprep eq_refl ltac:(simpl; lia)) as (error & _ & Ho & _).
  - intros key n. exists Sample.too_many. split; reflexivity.
  - exists error. exact Ho.
Defined.

(** ** An answer whose text cannot be read *)

(** X27. The text of an answer is read after [executeWithRetry] has
    returned.  So when the backend answers at the first attempt and
    reading the text of that answer throws, the error is never retried,
    not even a rate-limit error: the chat endpoint (without a stream) and
    the image endpoint answer with status 500 and the message of that
    error, after one invocation and with the cursor where it was. *)
Theorem unreadable_answer_is_not_retried :
  forall (pool : list string) (fs : Content.Files) (sdk : Backend.Sdk)
         (clock : nat -> Z) (st : apiKeyManager.State Backend.Conn) (e : JsError),
    1 <= length pool ->
    (forall req call,
        Chat.prepare fs req = Ok call ->
        truthy (Chat.stream req) = false ->
        Backend.sendMessage sdk (apiKeyManager.getCurrentApiKey pool st) call
          (Backend.attempts (apiKeyManager.ext st)) = Ok (Throw e) ->
        let st' := Chat.chat_completions pool fs sdk clock req st in
        Backend.output st'
        = Backend.output st
          ++ [match Http.stringify (Chat.errorEvent e "internal_server_error") with
              | Some t => t
              | None => ""%string
              end]
        /\ Http.statusCode (Backend.res (apiKeyManager.ext st')) = 500%Z
        /\ apiKeyManager.trace st'
           = apiKeyManager.trace st
             ++ [apiKeyManager.Invoked (apiKeyManager.getCurrentApiKey pool st)]
        /\ apiKeyManager.currentApiKeyIndex st' = apiKeyManager.currentApiKeyIndex st)
    /\ (forall body prompt files parts,
          get body "prompt" = Ok prompt ->
          truthy prompt = true ->
          Generate.message_parts fs prompt body files = Ok parts ->
          Backend.generateContent sdk (apiKeyManager.getCurrentApiKey pool st) parts
            (Backend.attempts (apiKeyManager.ext st)) = Ok (Throw e) ->
          let st' := Generate.generate pool fs sdk body files st in
          Backend.output st'
          = Backend.output st
            ++ [match Http.stringify (Generate.failure_body e) with
                | Some t => t
                | None => ""%string
                end]
          /\ Http.statusCode (Backend.res (apiKeyManager.ext st')) = 500%Z
          /\ apiKeyManager.trace st'
             = apiKeyManager.trace st
               ++ [apiKeyManager.Invoked (apiKeyManager.getCurrentApiKey pool st)]
          /\ apiKeyManager.currentApiKeyIndex st' = apiKeyManager.currentApiKeyIndex st).
Proof.
  intros pool fs sdk clock st e Hpool. split.
  - intros req call Hprep Hstream Hsend. cbv zeta.
    unfold Chat.chat_completions. rewrite Hprep, Hstream.
    unfold Chat.non_streaming, apiKeyManager.executeWithRetry_default.
    rewrite (executeWithRetry_first_success pool (Chat.send_call sdk call)
               (Z.of_nat (length pool)) st (Throw e)
               (Backend.mkConn (Backend.res (apiKeyManager.ext st))
                  (S (Backend.attempts (apiKeyManager.ext st)))))
      by (try lia; unfold Chat.send_call; now rewrite Hsend).
    repeat split.
  - intros body prompt files parts Hget Htruthy Hparts Hgen. cbv zeta.
    unfold Generate.generate.
    assert (Hd : Chat.destructure body "prompt" "req.body" = Ok prompt)
      by (destruct body; try exact Hget; discriminate).
    rewrite Hd, Htruthy, Hparts. cbn [negb].
    unfold apiKeyManager.executeWithRetry_default.
    rewrite (executeWithRetry_first_success pool (Generate.generate_call sdk parts)
               (Z.of_nat (length pool)) st (Throw e)
               (Backend.mkConn (Backend.res (apiKeyManager.ext st))
                  (S (Backend.attempts (apiKeyManager.ext st)))))
      by (try lia; unfold Generate.generate_call; now rewrite Hgen).
    repeat split.
Qed.

Lemma unreadable_answer_is_not_retried_witness :
  Http.statusCode
    (Backend.res
       (apiKeyManager.ext
          (Chat.chat_completions Sample.pool3 Sample.no_files
             (Backend.mkSdk (fun _ _ _ => Backend.mkRun [] None)
                (fun _ _ _ => Ok (Throw Sample.too_many))
                (fun _ _ _ => Ok (Throw Sample.too_many)))
             Sample.clock Cases.plain_request Backend.start))) = 500%Z.
Proof.
  destruct (Chat.prepare Sample.no_files Cases.plain_request)
    as [call|e] eqn:Hprep; [|discriminate].
  destruct (unreadable_answer_is_not_retried Sample.pool3 Sample.no_files
              (Backend.mkSdk (fun _ _ _ => Backend.mkRun [] None)
                 (fun _ _ _ => Ok (Throw Sample.too_many))
                 (fun _ _ _ => Ok (Throw Sample.too_many)))
              Sample.clock Backend.start Sample.too_many ltac:(simpl; lia))
    as (Hchat & _).
  exact (proj1 (proj2 (Hchat Cases.plain_request call Hprep eq_refl eq_refl))).
Defined.


